(** * SkeeterHawk: sonar detection and guidance firmware

    A shallow embedding of the signal-processing and guidance routines of
    the firmware ([sonar.c], [signal_utils.c], [guidance.c]) together with
    the properties of the design description that concern them, and of
    the routines around them ([dfsdm_mic.c], [data_logger.c], [config.c],
    [calibration.c]) with properties read off their code.

    Numeric models.  The firmware computes in IEEE-754 single precision
    ([float32_t]).  Two readings are used.  In the real model every
    [float32_t] is a real number and every floating-point operation the
    exact operation on reals; it carries the properties that do not
    depend on rounding: control flow, indices, array frames, comparisons
    of samples.  In the single-precision model (module [Binary32]) a
    [float32_t] is a binary32 value and every operation is rounded to
    nearest, with infinities and NaN; it carries the properties of
    [guidance.c] that rounding decides.  The integer types keep their
    machine semantics: [uint32_t] values are integers in [0, 2^32) and
    arithmetic on them wraps. *)

From Stdlib Require Import Reals Lra Lia ZArith List Bool Sorted.
From Stdlib Require Import SpecFloat.
From stdpp Require Import base list.

(** ** Machine integers and idealised floats *)

Abbreviation float32_t := R (only parsing).

(** [uint32_t] arithmetic: the mathematical result reduced modulo 2^32. *)
Definition u32 (z : Z) : Z := (z mod 2 ^ 32)%Z.

(** A well-formed [uint32_t] value. *)
Definition is_u32 (z : Z) : Prop := (0 <= z < 2 ^ 32)%Z.

(** [(int32_t)u] for an unsigned [u]: values from 2^31 on wrap to
    negative numbers. *)
Definition s32_of_u32 (z : Z) : Z :=
  if (z <? 2 ^ 31)%Z then z else (z - 2 ^ 32)%Z.

(** [(int32_t)x] for a float [x]: truncation toward zero. *)
Definition Rtrunc (x : R) : Z :=
  if Rle_dec 0 x then Int_part x else (- Int_part (- x))%Z.

(** C comparison operators on floats, as booleans. *)
Definition Rltb (a b : R) : bool := if Rlt_dec a b then true else false.
Definition Rgtb (a b : R) : bool := Rltb b a.

Definition fabsf (x : float32_t) : float32_t := Rabs x.
Definition fmaxf (x y : float32_t) : float32_t := Rmax x y.
Definition fminf (x y : float32_t) : float32_t := Rmin x y.
Definition sqrtf (x : float32_t) : float32_t := sqrt x.

(** [a[i]] for a float array and an unsigned index.  A read outside the
    list stands for a read outside the allocated object. *)
Definition rd (a : list float32_t) (i : Z) : float32_t :=
  nth (Z.to_nat i) a 0%R.

(** [a[i]] for an array of [uint32_t]. *)
Definition rdz (a : list Z) (i : Z) : Z := nth (Z.to_nat i) a 0%Z.

(** A counted loop [for (j = j0; j < j0 + n; j++) body] whose bound is
    not changed by the body. *)
Fixpoint for_loop {St : Type} (n : nat) (j : Z) (body : Z -> St -> St)
    (s : St) : St :=
  match n with
  | O => s
  | S n' => for_loop n' (j + 1)%Z body (body j s)
  end.

(** ** CMSIS-DSP routines

    [arm_math.h] is an external library, not part of the firmware
    sources.  The routines the firmware calls are modelled from their
    documented contracts; [arm_cos_f32] and [arm_sin_f32] are read as the
    real cosine and sine. *)

Definition arm_cos_f32 (x : float32_t) : float32_t := cos x.
Definition arm_sin_f32 (x : float32_t) : float32_t := sin x.

(** The first [blockSize] samples of a buffer. *)
Definition block (pSrc : list float32_t) (blockSize : Z) : list float32_t :=
  take (Z.to_nat blockSize) pSrc.

Definition Rsum (l : list R) : R := fold_right Rplus 0%R l.

(** [arm_mean_f32]: sum of the block divided by [blockSize]. *)
Definition arm_mean_f32 (pSrc : list float32_t) (blockSize : Z) : float32_t :=
  (Rsum (block pSrc blockSize) / IZR blockSize)%R.

(** [arm_std_f32]: sample standard deviation,
    [sqrt((sumOfSquares - sum^2 / blockSize) / (blockSize - 1))], and 0
    for a block of a single sample. *)
Definition arm_std_f32 (pSrc : list float32_t) (blockSize : Z) : float32_t :=
  if (blockSize <=? 1)%Z then 0%R
  else
    let sum := Rsum (block pSrc blockSize) in
    let sumOfSquares := Rsum (map (fun x => x * x)%R (block pSrc blockSize)) in
    sqrtf ((sumOfSquares - sum * sum / IZR blockSize) / (IZR blockSize - 1))%R.

(** [arm_max_f32]: the maximum value of the block and the index of its
    first occurrence.  The scan starts from sample 0 and replaces the
    running maximum only by a strictly larger sample. *)
Fixpoint arm_max_loop (pSrc : list float32_t) (k : Z) (out : float32_t)
    (outIndex : Z) : float32_t * Z :=
  match pSrc with
  | [] => (out, outIndex)
  | maxVal :: rest =>
      if Rltb out maxVal then arm_max_loop rest (k + 1)%Z maxVal k
      else arm_max_loop rest (k + 1)%Z out outIndex
  end.

(** An empty block is outside the routine's contract; the model then
    yields value 0 at index 0. *)
Definition arm_max_f32 (pSrc : list float32_t) (blockSize : Z)
    : float32_t * Z :=
  match block pSrc blockSize with
  | [] => (0%R, 0%Z)
  | x :: rest => arm_max_loop rest 1%Z x 0%Z
  end.

(** [arm_scale_f32] used in place: [pDst[n] = pSrc[n] * scale] for
    [n < blockSize]. *)
Definition arm_scale_f32 (pSrc : list float32_t) (scale : float32_t)
    (blockSize : Z) : list float32_t :=
  for_loop (Z.to_nat blockSize) 0%Z
    (fun n dst => <[Z.to_nat n := (rd dst n * scale)%R]> dst) pSrc.

(** ** sonar.h and signal_utils.h: constants and data *)

Definition SONAR_SAMPLE_RATE : Z := 200000.
Definition SONAR_CHIRP_F0 : Z := 38000.
Definition SONAR_CHIRP_F1 : Z := 42000.
Definition NUM_MICS : Z := 4.
Definition BEAMFORM_AZIMUTH_STEPS : Z := 20.
Definition BEAMFORM_ELEVATION_STEPS : Z := 20.
Definition BEAMFORM_AZIMUTH_MIN : R := (- PI / 2)%R.
Definition BEAMFORM_AZIMUTH_MAX : R := (PI / 2)%R.
Definition BEAMFORM_ELEVATION_MIN : R := (- PI / 4)%R.
Definition BEAMFORM_ELEVATION_MAX : R := (PI / 4)%R.
Definition DETECTION_THRESHOLD : R := 1000%R.
Definition MIN_RANGE_CM : Z := 10.
Definition MAX_RANGE_CM : Z := 500.
Definition SPEED_OF_SOUND : R := 343%R.

Definition ADAPTIVE_THRESHOLD_FACTOR : R := 3%R.
Definition MAX_TARGETS : Z := 5.
Definition MIN_TARGET_SEPARATION_CM : Z := 20.

Record target_info_t := {
  range_cm : float32_t;
  azimuth_rad : float32_t;
  elevation_rad : float32_t;
  confidence : float32_t;
  valid : bool
}.

Record sonar_state_t := {
  tx_chirp : list float32_t;
  matched_filter : list float32_t;
  rx_buffer : list (list float32_t);
  filtered_buffer : list (list float32_t);
  beamformed_output : list float32_t;
  target : target_info_t;
  processing_complete : bool;
  sample_count : Z
}.

(** [target_cluster_t]; the fields carry the prefix [cl_] because
    [target_info_t] has fields of the same names. *)
Record target_cluster_t := {
  cl_range_cm : float32_t;
  cl_azimuth_rad : float32_t;
  cl_elevation_rad : float32_t;
  cl_power : float32_t;
  cl_sample_count : Z
}.

Record multi_target_result_t := {
  targets : list target_cluster_t;
  num_targets : Z;
  mt_valid : bool
}.

Definition zero_cluster : target_cluster_t :=
  {| cl_range_cm := 0%R; cl_azimuth_rad := 0%R; cl_elevation_rad := 0%R;
     cl_power := 0%R; cl_sample_count := 0%Z |}.

(** [clusters[i]]. *)
Definition rdc (a : list target_cluster_t) (i : Z) : target_cluster_t :=
  nth (Z.to_nat i) a zero_cluster.

(** ** signal_utils.c *)

(** [signal_adaptive_threshold]: return code and [*threshold]. *)
Definition signal_adaptive_threshold (signal : option (list float32_t))
    (length : Z) (threshold : option float32_t) : Z * option float32_t :=
  match signal, threshold with
  | Some sig, Some _ =>
      if (length =? 0)%Z then ((-1)%Z, threshold)
      else
        let mean := arm_mean_f32 sig length in
        let std := arm_std_f32 sig length in
        (0%Z, Some (mean + ADAPTIVE_THRESHOLD_FACTOR * std)%R)
  | _, _ => ((-1)%Z, threshold)
  end.

(** Loop of [signal_find_peaks]:
    [for (i = 1; i < length - 1 && *num_peaks < max_peaks; i++)].
    The state is the loop counter, the [peaks] array and [*num_peaks].
    [n] bounds the number of iterations; the loop condition itself is
    evaluated at every iteration as in the source. *)
Fixpoint find_peaks_loop (n : nat) (signal : list float32_t) (length : Z)
    (threshold : float32_t) (max_peaks : Z)
    (i : Z) (peaks : list Z) (num_peaks : Z) : Z * list Z * Z :=
  match n with
  | O => (i, peaks, num_peaks)
  | S n' =>
      if (i <? u32 (length - 1))%Z && (num_peaks <? max_peaks)%Z then
        let val := fabsf (rd signal i) in
        if Rgtb val threshold &&
           Rgtb val (fabsf (rd signal (i - 1))) &&
           Rgtb val (fabsf (rd signal (i + 1)))
        then
          find_peaks_loop n' signal length threshold max_peaks
            (u32 (i + 1)) (<[Z.to_nat num_peaks := i]> peaks)
            (u32 (num_peaks + 1))
        else
          find_peaks_loop n' signal length threshold max_peaks
            (u32 (i + 1)) peaks num_peaks
      else (i, peaks, num_peaks)
  end.

(** [signal_find_peaks].  Pointers are options ([None] is [NULL]); the
    result is the return code and the contents of [peaks] and
    [*num_peaks] after the call. *)
Definition signal_find_peaks (signal : option (list float32_t)) (length : Z)
    (threshold : float32_t) (peaks : option (list Z)) (max_peaks : Z)
    (num_peaks : option Z) : Z * option (list Z) * option Z :=
  match signal, peaks, num_peaks with
  | Some sig, Some pk, Some _ =>
      if (length =? 0)%Z then ((-1)%Z, peaks, num_peaks)
      else
        let '(_, pk', np') :=
          find_peaks_loop (Z.to_nat length) sig length threshold max_peaks
            1%Z pk 0%Z in
        (0%Z, Some pk', Some np')
  | _, _, _ => ((-1)%Z, peaks, num_peaks)
  end.

(** State of the clustering loops: outer counter [i], the [clusters]
    array, [*num_clusters] and the [processed] flags. *)
Record cluster_state := {
  cs_i : Z;
  cs_clusters : list target_cluster_t;
  cs_num : Z;
  cs_processed : list bool
}.

(** Body of the inner loop of [signal_cluster_detections] at index [j],
    acting on [*cluster] and [processed]. *)
Definition cluster_merge_body (peaks : list Z) (signal : list float32_t)
    (sample_rate : Z) (j : Z) (s : target_cluster_t * list bool)
    : target_cluster_t * list bool :=
  let '(cluster, processed) := s in
  if nth (Z.to_nat j) processed false then s
  else
    let range_j :=
      ((IZR (rdz peaks j) * SPEED_OF_SOUND * 100) /
       (2 * IZR sample_rate))%R in
    let separation := fabsf (range_j - cl_range_cm cluster) in
    if Rltb separation (IZR MIN_TARGET_SEPARATION_CM) then
      ({| cl_range_cm :=
            ((cl_range_cm cluster * IZR (cl_sample_count cluster) + range_j) /
             IZR (u32 (cl_sample_count cluster + 1)))%R;
          cl_azimuth_rad := cl_azimuth_rad cluster;
          cl_elevation_rad := cl_elevation_rad cluster;
          cl_power := fmaxf (cl_power cluster)
                            (fabsf (rd signal (rdz peaks j)));
          cl_sample_count := u32 (cl_sample_count cluster + 1) |},
       <[Z.to_nat j := true]> processed)
    else s.

(** Body of the outer loop, including the increment of [i]. *)
Definition cluster_outer_body (peaks : list Z) (num_peaks : Z)
    (signal : list float32_t) (sample_rate : Z) (s : cluster_state)
    : cluster_state :=
  let i := cs_i s in
  if nth (Z.to_nat i) (cs_processed s) false then
    {| cs_i := u32 (i + 1); cs_clusters := cs_clusters s;
       cs_num := cs_num s; cs_processed := cs_processed s |}
  else
    let old := rdc (cs_clusters s) (cs_num s) in
    let cluster :=
      {| cl_range_cm :=
           ((IZR (rdz peaks i) * SPEED_OF_SOUND * 100) /
            (2 * IZR sample_rate))%R;
         cl_azimuth_rad := cl_azimuth_rad old;
         cl_elevation_rad := cl_elevation_rad old;
         cl_power := fabsf (rd signal (rdz peaks i));
         cl_sample_count := 1%Z |} in
    let processed := <[Z.to_nat i := true]> (cs_processed s) in
    let '(cluster', processed') :=
      for_loop (Z.to_nat (num_peaks - u32 (i + 1))) (u32 (i + 1))
        (cluster_merge_body peaks signal sample_rate) (cluster, processed) in
    {| cs_i := u32 (i + 1);
       cs_clusters := <[Z.to_nat (cs_num s) := cluster']> (cs_clusters s);
       cs_num := u32 (cs_num s + 1);
       cs_processed := processed' |}.

(** Outer loop:
    [for (i = 0; i < num_peaks && *num_clusters < max_clusters; i++)]. *)
Fixpoint cluster_loop (n : nat) (peaks : list Z) (num_peaks : Z)
    (signal : list float32_t) (sample_rate max_clusters : Z)
    (s : cluster_state) : cluster_state :=
  match n with
  | O => s
  | S n' =>
      if (cs_i s <? num_peaks)%Z && (cs_num s <? max_clusters)%Z then
        cluster_loop n' peaks num_peaks signal sample_rate max_clusters
          (cluster_outer_body peaks num_peaks signal sample_rate s)
      else s
  end.

(** State on entry to the outer loop: [*num_clusters = 0] and the
    [processed] flags as [calloc] leaves them. *)
Definition cluster_init (num_peaks : Z) (clusters : list target_cluster_t)
    : cluster_state :=
  {| cs_i := 0%Z; cs_clusters := clusters; cs_num := 0%Z;
     cs_processed := replicate (Z.to_nat num_peaks) false |}.

(** The clustering state after at most [k] iterations of the outer
    loop. *)
Definition cluster_run (k : nat) (peaks : list Z) (num_peaks : Z)
    (signal : list float32_t) (sample_rate : Z)
    (clusters : list target_cluster_t) (max_clusters : Z) : cluster_state :=
  cluster_loop k peaks num_peaks signal sample_rate max_clusters
    (cluster_init num_peaks clusters).

(** [signal_cluster_detections]: return code, [clusters] and
    [*num_clusters] after the call.  [calloc_ok] tells whether the
    allocation of [processed] succeeds. *)
Definition signal_cluster_detections (calloc_ok : bool)
    (peaks : option (list Z)) (num_peaks : Z)
    (signal : option (list float32_t)) (length : Z) (sample_rate : Z)
    (clusters : option (list target_cluster_t)) (max_clusters : Z)
    (num_clusters : option Z)
    : Z * option (list target_cluster_t) * option Z :=
  match peaks, signal, clusters, num_clusters with
  | Some pk, Some sig, Some cl, Some _ =>
      if (num_peaks =? 0)%Z then ((-1)%Z, clusters, num_clusters)
      else if negb calloc_ok then ((-2)%Z, clusters, Some 0%Z)
      else
        let s := cluster_run (Z.to_nat num_peaks) pk num_peaks sig
                   sample_rate cl max_clusters in
        (0%Z, Some (cs_clusters s), Some (cs_num s))
  | _, _, _, _ => ((-1)%Z, clusters, num_clusters)
  end.

(** Copy loop of [signal_detect_multi_target]:
    [for (i = 0; i < num_clusters && i < MAX_TARGETS; i++)]. *)
Definition copy_clusters (clusters : list target_cluster_t)
    (num_clusters : Z) (targets : list target_cluster_t)
    : list target_cluster_t :=
  for_loop (Z.to_nat (Z.min num_clusters MAX_TARGETS)) 0%Z
    (fun i tg =>
       let c := rdc clusters i in
       <[Z.to_nat i :=
           {| cl_range_cm := cl_range_cm c;
              cl_azimuth_rad := 0%R; cl_elevation_rad := 0%R;
              cl_power := cl_power c;
              cl_sample_count := cl_sample_count c |}]> tg)
    targets.

(** [signal_detect_multi_target]: return code and [*result].  The local
    arrays [peaks] and [clusters] start with indeterminate contents that
    are never read before being written; the model starts them zeroed. *)
Definition signal_detect_multi_target (calloc_ok : bool)
    (beamformed_output : option (list float32_t)) (length : Z)
    (sample_rate : Z) (result : option multi_target_result_t)
    : Z * option multi_target_result_t :=
  match beamformed_output, result with
  | Some sig, Some res =>
      if (length =? 0)%Z then ((-1)%Z, result)
      else
        let res0 := {| targets := targets res; num_targets := 0%Z;
                       mt_valid := false |} in
        match signal_adaptive_threshold (Some sig) length (Some 0%R) with
        | (0%Z, Some threshold) =>
            let peaks := replicate (Z.to_nat (MAX_TARGETS * 2)) 0%Z in
            match signal_find_peaks (Some sig) length threshold (Some peaks)
                    (MAX_TARGETS * 2) (Some 0%Z) with
            | (0%Z, Some peaks', Some num_peaks) =>
                if (num_peaks =? 0)%Z then (0%Z, Some res0)
                else
                  let clusters :=
                    replicate (Z.to_nat MAX_TARGETS) zero_cluster in
                  match signal_cluster_detections calloc_ok (Some peaks')
                          num_peaks (Some sig) length sample_rate
                          (Some clusters) MAX_TARGETS (Some 0%Z) with
                  | (0%Z, Some clusters', Some num_clusters) =>
                      (0%Z,
                       Some {| targets :=
                                 copy_clusters clusters' num_clusters
                                   (targets res);
                               num_targets := num_clusters;
                               mt_valid := (0 <? num_clusters)%Z |})
                  | _ => ((-4)%Z, Some res0)
                  end
            | _ => ((-3)%Z, Some res0)
            end
        | _ => ((-2)%Z, Some res0)
        end
  | _, _ => ((-1)%Z, result)
  end.

(** ** sonar.c *)

Definition SONAR_CHIRP_SAMPLES : Z := (SONAR_SAMPLE_RATE * 1 / 1000)%Z.

(** Microphone array positions (in meters). *)
Definition mic_positions : list (float32_t * float32_t * float32_t) :=
  [ (-0.005, -0.005, 0); (0.005, -0.005, 0);
    (-0.005, 0.005, 0); (0.005, 0.005, 0) ]%R.

(** [sonar_generate_chirp]: the contents of [chirp] after the call.  The
    function returns [void] and tests none of its arguments. *)
Definition sonar_generate_chirp (chirp : list float32_t) (length : Z)
    : list float32_t :=
  let fs := IZR SONAR_SAMPLE_RATE in
  let duration := (IZR length / fs)%R in
  let f0 := IZR SONAR_CHIRP_F0 in
  let f1 := IZR SONAR_CHIRP_F1 in
  let bandwidth := (f1 - f0)%R in
  let chirp_rate := (bandwidth / duration)%R in
  for_loop (Z.to_nat length) 0%Z
    (fun i chirp =>
       let t := (IZR i / fs)%R in
       let phase := (2 * PI * (f0 * t + 0.5 * chirp_rate * t * t))%R in
       let chirp1 := <[Z.to_nat i := arm_cos_f32 phase]> chirp in
       let window :=
         (0.5 * (1 - arm_cos_f32 (2 * PI * IZR i / IZR (u32 (length - 1)))))%R in
       <[Z.to_nat i := (rd chirp1 i * window)%R]> chirp1)
    chirp.

Definition set_filtered_buffer (st : sonar_state_t)
    (f : list (list float32_t)) : sonar_state_t :=
  {| tx_chirp := tx_chirp st; matched_filter := matched_filter st;
     rx_buffer := rx_buffer st; filtered_buffer := f;
     beamformed_output := beamformed_output st; target := target st;
     processing_complete := processing_complete st;
     sample_count := sample_count st |}.

Definition set_beamformed_output (st : sonar_state_t)
    (b : list float32_t) : sonar_state_t :=
  {| tx_chirp := tx_chirp st; matched_filter := matched_filter st;
     rx_buffer := rx_buffer st; filtered_buffer := filtered_buffer st;
     beamformed_output := b; target := target st;
     processing_complete := processing_complete st;
     sample_count := sample_count st |}.

Definition set_target (st : sonar_state_t) (t : target_info_t)
    (complete : bool) : sonar_state_t :=
  {| tx_chirp := tx_chirp st; matched_filter := matched_filter st;
     rx_buffer := rx_buffer st; filtered_buffer := filtered_buffer st;
     beamformed_output := beamformed_output st; target := t;
     processing_complete := complete;
     sample_count := sample_count st |}.

Definition invalidate (t : target_info_t) : target_info_t :=
  {| range_cm := range_cm t; azimuth_rad := azimuth_rad t;
     elevation_rad := elevation_rad t; confidence := confidence t;
     valid := false |}.

(** [memset(buf, 0, nbytes)] on a float array: the first [nbytes / 4]
    samples become 0. *)
Definition memset_zero (buf : list float32_t) (nbytes : Z)
    : list float32_t :=
  for_loop (Z.to_nat (nbytes / 4)) 0%Z
    (fun k b => <[Z.to_nat k := 0%R]> b) buf.

(** The [delays] array of [sonar_beamform] after normalisation relative
    to the first microphone. *)
Definition beamform_delays (azimuth elevation : float32_t)
    : list float32_t :=
  let steering_dir :=
    ((arm_cos_f32 elevation * arm_cos_f32 azimuth)%R,
     (arm_cos_f32 elevation * arm_sin_f32 azimuth)%R,
     arm_sin_f32 elevation) in
  let delays :=
    map (fun p : float32_t * float32_t * float32_t =>
           ((p.1.1 * steering_dir.1.1 + p.1.2 * steering_dir.1.2 +
             p.2 * steering_dir.2) / SPEED_OF_SOUND)%R)
        mic_positions in
  let delay_offset := rd delays 0 in
  map (fun d => (d - delay_offset)%R) delays.

(** Delay-and-sum for microphone [i]: the inner loop over [j]. *)
Definition delay_sum_body (filtered : list (list float32_t))
    (sample_count : Z) (delays : list float32_t) (i : Z)
    (out : list float32_t) : list float32_t :=
  let delay_samples := Rtrunc (rd delays i * IZR SONAR_SAMPLE_RATE) in
  for_loop (Z.to_nat sample_count) 0%Z
    (fun j out =>
       let src_idx := (s32_of_u32 j - delay_samples)%Z in
       if (0 <=? src_idx)%Z && (src_idx <? s32_of_u32 sample_count)%Z then
         <[Z.to_nat j :=
             (rd out j + rd (nth (Z.to_nat i) filtered []) src_idx)%R]> out
       else out)
    out.

(** [sonar_beamform] on a non-null state. *)
Definition beamform (st : sonar_state_t) (azimuth elevation : float32_t)
    : sonar_state_t :=
  let delays := beamform_delays azimuth elevation in
  let out0 := memset_zero (beamformed_output st) (u32 (sample_count st * 4)) in
  let out1 :=
    for_loop (Z.to_nat NUM_MICS) 0%Z
      (delay_sum_body (filtered_buffer st) (sample_count st) delays) out0 in
  set_beamformed_output st
    (arm_scale_f32 out1 (1 / IZR NUM_MICS) (sample_count st)).

Definition sonar_beamform (state : option sonar_state_t)
    (azimuth elevation : float32_t) : option sonar_state_t :=
  match state with
  | None => None
  | Some st => Some (beamform st azimuth elevation)
  end.

(** Locals of the angular search of [sonar_detect_target], together with
    the state the search works on. *)
Record scan_state := {
  sc_state : sonar_state_t;
  max_power : float32_t;
  best_azimuth : float32_t;
  best_elevation : float32_t;
  best_peak_idx : Z
}.

Definition az_step : float32_t :=
  ((BEAMFORM_AZIMUTH_MAX - BEAMFORM_AZIMUTH_MIN) /
   IZR BEAMFORM_AZIMUTH_STEPS)%R.
Definition el_step : float32_t :=
  ((BEAMFORM_ELEVATION_MAX - BEAMFORM_ELEVATION_MIN) /
   IZR BEAMFORM_ELEVATION_STEPS)%R.

(** Body of the inner (elevation) loop of the search. *)
Definition scan_el_body (azimuth : float32_t) (el_idx : Z) (s : scan_state)
    : scan_state :=
  let elevation := (BEAMFORM_ELEVATION_MIN + IZR el_idx * el_step)%R in
  let st := beamform (sc_state s) azimuth elevation in
  let '(max_val, max_idx) :=
    arm_max_f32 (beamformed_output st) (sample_count st) in
  let power := fabsf max_val in
  if Rgtb power (max_power s) then
    {| sc_state := st; max_power := power; best_azimuth := azimuth;
       best_elevation := elevation; best_peak_idx := max_idx |}
  else
    {| sc_state := st; max_power := max_power s;
       best_azimuth := best_azimuth s; best_elevation := best_elevation s;
       best_peak_idx := best_peak_idx s |}.

(** Body of the outer (azimuth) loop. *)
Definition scan_az_body (az_idx : Z) (s : scan_state) : scan_state :=
  let azimuth := (BEAMFORM_AZIMUTH_MIN + IZR az_idx * az_step)%R in
  for_loop (Z.to_nat BEAMFORM_ELEVATION_STEPS) 0%Z (scan_el_body azimuth) s.

Definition angular_search (st : sonar_state_t) : scan_state :=
  for_loop (Z.to_nat BEAMFORM_AZIMUTH_STEPS) 0%Z scan_az_body
    {| sc_state := st; max_power := 0; best_azimuth := 0;
       best_elevation := 0; best_peak_idx := 0 |}.

(** The part of [sonar_detect_target] after the angular search. *)
Definition detect_decide (s : scan_state) : Z * sonar_state_t :=
  let st := sc_state s in
  if Rltb (max_power s) DETECTION_THRESHOLD then
    ((-2)%Z, set_target st (invalidate (target st)) (processing_complete st))
  else
    let tof := (IZR (best_peak_idx s) / IZR SONAR_SAMPLE_RATE)%R in
    let range_cm := ((tof * SPEED_OF_SOUND * 100) / 2)%R in
    if Rltb range_cm (IZR MIN_RANGE_CM) || Rgtb range_cm (IZR MAX_RANGE_CM)
    then
      ((-3)%Z, set_target st (invalidate (target st)) (processing_complete st))
    else
      (0%Z,
       set_target st
         {| range_cm := range_cm;
            azimuth_rad := best_azimuth s;
            elevation_rad := best_elevation s;
            confidence :=
              fminf (max_power s / (DETECTION_THRESHOLD * 10)) 1;
            valid := true |}
         true).

Section MatchedFilter.
(** [arm_correlate_f32 pSrcA srcALen pSrcB srcBLen pDst] of CMSIS-DSP:
    the contents of [pDst] after the call.  The routine is external and
    is kept as a parameter. *)
Variable arm_correlate_f32 :
  list float32_t -> Z -> list float32_t -> Z -> list float32_t ->
  list float32_t.

(** [sonar_matched_filter] on a non-null state. *)
Definition matched_filter_mic (st : sonar_state_t) (mic_idx : Z)
    : sonar_state_t :=
  if (NUM_MICS <=? mic_idx)%Z then st
  else
    set_filtered_buffer st
      (<[Z.to_nat mic_idx :=
           arm_correlate_f32
             (nth (Z.to_nat mic_idx) (rx_buffer st) [])
             (sample_count st)
             (matched_filter st)
             SONAR_CHIRP_SAMPLES
             (nth (Z.to_nat mic_idx) (filtered_buffer st) [])]>
         (filtered_buffer st)).

Definition sonar_matched_filter (state : option sonar_state_t)
    (mic_idx : Z) : option sonar_state_t :=
  match state with
  | None => None
  | Some st => Some (matched_filter_mic st mic_idx)
  end.

(** [sonar_detect_target]: return code and the state after the call. *)
Definition sonar_detect_target (state : option sonar_state_t)
    : Z * option sonar_state_t :=
  match state with
  | None => ((-1)%Z, None)
  | Some st0 =>
      let st1 :=
        for_loop (Z.to_nat NUM_MICS) 0%Z
          (fun i st => matched_filter_mic st i) st0 in
      let '(ret, st2) := detect_decide (angular_search st1) in
      (ret, Some st2)
  end.
End MatchedFilter.

(** [sonar_get_target]: return code and [*target] after the call. *)
Definition sonar_get_target (state : option sonar_state_t)
    (target_out : option target_info_t) : Z * option target_info_t :=
  match state, target_out with
  | Some st, Some _ =>
      if negb (valid (target st)) then ((-2)%Z, target_out)
      else (0%Z, Some (target st))
  | _, _ => ((-1)%Z, target_out)
  end.

(** ** guidance.h and guidance.c *)

Definition GUIDANCE_N : float32_t := 3.
Definition GUIDANCE_MAX_ACCEL : float32_t := 9.81.
Definition GUIDANCE_MIN_RANGE_CM : float32_t := 5.

Record vehicle_state_t := {
  pos_x : float32_t; pos_y : float32_t; pos_z : float32_t;
  vel_x : float32_t; vel_y : float32_t; vel_z : float32_t
}.

Record guidance_cmd_t := {
  accel_x : float32_t; accel_y : float32_t; accel_z : float32_t;
  intercept : bool
}.

(** [guidance_compute]: return code and [*cmd] after the call. *)
Definition guidance_compute (vehicle : option vehicle_state_t)
    (target : option target_info_t) (cmd : option guidance_cmd_t)
    : Z * option guidance_cmd_t :=
  match vehicle, target, cmd with
  | Some vehicle, Some target, Some _ =>
      if negb (valid target) then ((-2)%Z, cmd)
      else
        let target_range_m := (range_cm target / 100)%R in
        let target_x := (target_range_m * arm_cos_f32 (elevation_rad target) *
                         arm_cos_f32 (azimuth_rad target))%R in
        let target_y := (target_range_m * arm_cos_f32 (elevation_rad target) *
                         arm_sin_f32 (azimuth_rad target))%R in
        let target_z := (target_range_m * arm_sin_f32 (elevation_rad target))%R in
        let rel_x := (target_x - pos_x vehicle)%R in
        let rel_y := (target_y - pos_y vehicle)%R in
        let rel_z := (target_z - pos_z vehicle)%R in
        let range := sqrtf (rel_x * rel_x + rel_y * rel_y + rel_z * rel_z) in
        if Rltb range (GUIDANCE_MIN_RANGE_CM / 100) then
          (0%Z, Some {| accel_x := 0; accel_y := 0; accel_z := 0;
                        intercept := true |})
        else
          let los_x := (rel_x / range)%R in
          let los_y := (rel_y / range)%R in
          let los_z := (rel_z / range)%R in
          let rel_vel_x := (- vel_x vehicle)%R in
          let rel_vel_y := (- vel_y vehicle)%R in
          let rel_vel_z := (- vel_z vehicle)%R in
          let closing_vel :=
            (los_x * rel_vel_x + los_y * rel_vel_y + los_z * rel_vel_z)%R in
          let los_rate_x := ((rel_vel_x - los_x * closing_vel) / range)%R in
          let los_rate_y := ((rel_vel_y - los_y * closing_vel) / range)%R in
          let los_rate_z := ((rel_vel_z - los_z * closing_vel) / range)%R in
          let accel_x := (GUIDANCE_N * closing_vel * los_rate_x)%R in
          let accel_y := (GUIDANCE_N * closing_vel * los_rate_y)%R in
          let accel_z := (GUIDANCE_N * closing_vel * los_rate_z)%R in
          let accel_mag :=
            sqrtf (accel_x * accel_x + accel_y * accel_y + accel_z * accel_z) in
          if Rgtb accel_mag GUIDANCE_MAX_ACCEL then
            let scale := (GUIDANCE_MAX_ACCEL / accel_mag)%R in
            (0%Z, Some {| accel_x := accel_x * scale;
                          accel_y := accel_y * scale;
                          accel_z := accel_z * scale;
                          intercept := false |})
          else
            (0%Z, Some {| accel_x := accel_x; accel_y := accel_y;
                          accel_z := accel_z; intercept := false |})
  | _, _, _ => ((-1)%Z, cmd)
  end.

(** ** main.c: the processing step of the main loop

    [target_local] stands for the indeterminate initial contents of the
    local [target]; the boolean tells whether [guidance_to_motors] is
    reached. *)
Definition process_cycle
    (arm_correlate_f32 :
       list float32_t -> Z -> list float32_t -> Z -> list float32_t ->
       list float32_t)
    (sonar_state : sonar_state_t) (vehicle_state : vehicle_state_t)
    (guidance_cmd : guidance_cmd_t) (target_local : target_info_t)
    : sonar_state_t * guidance_cmd_t * bool :=
  match sonar_detect_target arm_correlate_f32 (Some sonar_state) with
  | (0%Z, Some st') =>
      match sonar_get_target (Some st') (Some target_local) with
      | (0%Z, Some target) =>
          match guidance_compute (Some vehicle_state) (Some target)
                  (Some guidance_cmd) with
          | (0%Z, Some cmd') => (st', cmd', true)
          | (_, Some cmd') => (st', cmd', false)
          | (_, None) => (st', guidance_cmd, false)
          end
      | _ => (st', guidance_cmd, false)
      end
  | (_, Some st') => (st', guidance_cmd, false)
  | (_, None) => (sonar_state, guidance_cmd, false)
  end.

(** ** Specification-level notions *)

(** The peaks reported to the caller: [peaks[0 .. num_peaks)]. *)
Definition reported (peaks : list Z) (num_peaks : Z) : list Z :=
  take (Z.to_nat num_peaks) peaks.

(** A strict local maximum of the rectified signal above the threshold. *)
Definition strict_local_peak (signal : list float32_t) (threshold : R)
    (i : Z) : Prop :=
  (fabsf (rd signal i) > threshold /\
   fabsf (rd signal i) > fabsf (rd signal (i - 1)) /\
   fabsf (rd signal i) > fabsf (rd signal (i + 1)))%R.

(** Invariant of the peak-finding loop: the reported prefix is sorted,
    made of interior strict local peaks below the loop counter, and
    within the cap. *)
Definition peaks_inv (signal : list float32_t) (length : Z)
    (threshold : float32_t) (max_peaks : Z)
    (i : Z) (peaks : list Z) (num_peaks : Z) : Prop :=
  (1 <= i <= Z.max 1 (length - 1))%Z /\
  (0 <= num_peaks <= max_peaks)%Z /\
  Forall (fun p => (1 <= p < i)%Z /\ strict_local_peak signal threshold p)
         (reported peaks num_peaks) /\
  StronglySorted Z.lt (reported peaks num_peaks).

(** ** Clustering *)

(** The round-trip range of a peak index, as in the angular search:
    [peakIndex * speedOfSound * 100 / (2 * sampleRate)]. *)
Definition round_trip_range (peakIndex sample_rate : Z) : R :=
  (IZR peakIndex * SPEED_OF_SOUND * 100 / (2 * IZR sample_rate))%R.

(** Peak number [j] is claimed by the cluster opened in outer iteration
    [k]: its [processed] flag is clear before that iteration and set
    after it.  [run k] is the clustering state after [k] iterations. *)
Definition claimed_at (run : nat -> cluster_state) (k : nat) (j : Z) : Prop :=
  nth (Z.to_nat j) (cs_processed (run k)) false = false /\
  nth (Z.to_nat j) (cs_processed (run (S k))) false = true.

(** Two peaks end in one cluster. *)
Definition same_cluster (run : nat -> cluster_state) (j1 j2 : Z) : Prop :=
  exists k, claimed_at run k j1 /\ claimed_at run k j2.

(** The cluster after merging a peak of range [range_j] and power [p]:
    running weighted mean of the ranges, maximum of the powers. *)
Definition merged (cluster : target_cluster_t) (range_j p : R)
    : target_cluster_t :=
  {| cl_range_cm :=
       ((cl_range_cm cluster * IZR (cl_sample_count cluster) + range_j) /
        IZR (u32 (cl_sample_count cluster + 1)))%R;
     cl_azimuth_rad := cl_azimuth_rad cluster;
     cl_elevation_rad := cl_elevation_rad cluster;
     cl_power := Rmax (cl_power cluster) p;
     cl_sample_count := u32 (cl_sample_count cluster + 1) |}.

(** A signal of 600 samples of unit amplitude, long enough for the peak
    indices used below. *)
Definition echo_signal : list R := replicate 600 1%R.

(** The cluster opened for a peak of range [r] and power [p] in slot
    [n] of [clusters]: the angles keep what the slot held. *)
Definition opened (clusters : list target_cluster_t) (n : Z) (r p : R)
    : target_cluster_t :=
  {| cl_range_cm := r;
     cl_azimuth_rad := cl_azimuth_rad (rdc clusters n);
     cl_elevation_rad := cl_elevation_rad (rdc clusters n);
     cl_power := p;
     cl_sample_count := 1 |}.

(** ** Chirp and array loops *)

(** Sample [i] of the linear chirp of [length] samples, tapered by a
    Hann window, as the design description states it. *)
Definition chirp_sample (length i : Z) : R :=
  let sampleRate := IZR SONAR_SAMPLE_RATE in
  let f0 := IZR SONAR_CHIRP_F0 in
  let f1 := IZR SONAR_CHIRP_F1 in
  let duration := (IZR length / sampleRate)%R in
  let k := ((f1 - f0) / duration)%R in
  let t := (IZR i / sampleRate)%R in
  (cos (2 * PI * (f0 * t + 0.5 * k * (t * t))) *
   (0.5 * (1 - cos (2 * PI * IZR i / IZR (length - 1)))))%R.

(** One iteration of a loop that rewrites cell [j] of an array from its
    index and its current value. *)
Definition cell_update (f : Z -> R -> R) (j : Z) (l : list R) : list R :=
  <[Z.to_nat j := f j (rd l j)]> l.

(** ** Beamformer *)

(** Steering unit vector and the time of arrival at microphone [i], as
    the design description states them. *)
Definition steering_vector (azimuth elevation : R) : R * R * R :=
  ((cos elevation * cos azimuth)%R, (cos elevation * sin azimuth)%R,
   sin elevation).

Definition tdoa (azimuth elevation : R) (i : Z) : R :=
  let p := nth (Z.to_nat i) mic_positions (0, 0, 0)%R in
  let v := steering_vector azimuth elevation in
  ((p.1.1 * v.1.1 + p.1.2 * v.1.2 + p.2 * v.2) / SPEED_OF_SOUND)%R.

(** Delay of channel [i] relative to the reference channel 0. *)
Definition rel_delay (azimuth elevation : R) (i : Z) : R :=
  (tdoa azimuth elevation i - tdoa azimuth elevation 0)%R.

(** Sample [src] of filtered channel [i], zero outside [0, L). *)
Definition channel_sample (st : sonar_state_t) (i src : Z) : R :=
  if (0 <=? src)%Z && (src <? sample_count st)%Z
  then rd (nth (Z.to_nat i) (filtered_buffer st) []) src
  else 0%R.

(** Delay-and-sum output at index [j] when delays are turned into
    sample shifts by [quant]. *)
Definition delay_and_sum (quant : R -> Z) (st : sonar_state_t)
    (azimuth elevation : R) (j : Z) : R :=
  let shift i := quant (rel_delay azimuth elevation i * IZR SONAR_SAMPLE_RATE)%R in
  ((channel_sample st 0 (j - shift 0%Z) + channel_sample st 1 (j - shift 1%Z) +
    channel_sample st 2 (j - shift 2%Z) + channel_sample st 3 (j - shift 3%Z)) /
   IZR NUM_MICS)%R.

(** Rounding to the nearest integer, halves away from zero. *)
Definition round_nearest (x : R) : Z :=
  if Rle_dec 0 x then Int_part (x + 1 / 2) else (- Int_part (- x + 1 / 2))%Z.

(** A state with four filtered channels of eight samples, channel 1
    holding a unit impulse at sample 0. *)
Definition impulse_state : sonar_state_t :=
  {| tx_chirp := []; matched_filter := []; rx_buffer := [];
     filtered_buffer :=
       [replicate 8 0%R; 1%R :: replicate 7 0%R; replicate 8 0%R;
        replicate 8 0%R];
     beamformed_output := replicate 8 0%R;
     target := {| range_cm := 0; azimuth_rad := 0; elevation_rad := 0;
                  confidence := 0; valid := false |};
     processing_complete := false;
     sample_count := 8 |}.

(** ** Angular search *)

(** The grid of the angular search in scan order: azimuth-major. *)
Definition grid_azimuth (az_idx : Z) : R :=
  (BEAMFORM_AZIMUTH_MIN + IZR az_idx * az_step)%R.
Definition grid_elevation (el_idx : Z) : R :=
  (BEAMFORM_ELEVATION_MIN + IZR el_idx * el_step)%R.

(** The values a counted loop gives its counter: [j], [j+1], ... *)
Fixpoint zrange (j : Z) (n : nat) : list Z :=
  match n with
  | O => []
  | S n' => j :: zrange (j + 1) n'
  end.

Definition indices (n : Z) : list Z := zrange 0 (Z.to_nat n).

Definition grid : list (R * R) :=
  flat_map
    (fun a => map (fun e => (grid_azimuth a, grid_elevation e))
                  (indices BEAMFORM_ELEVATION_STEPS))
    (indices BEAMFORM_AZIMUTH_STEPS).

(** The peak the search computes at a grid point: the absolute value of
    what [arm_max_f32] returns on the beamformed output, and its index. *)
Definition point_peak (st : sonar_state_t) (g : R * R) : R * Z :=
  let '(max_val, max_idx) :=
    arm_max_f32 (beamformed_output (beamform st g.1 g.2)) (sample_count st) in
  (fabsf max_val, max_idx).

(** [v] is the largest sample of [l] and [idx] the first index holding
    it. *)
Definition first_max (l : list R) (v : R) (idx : nat) : Prop :=
  (idx < List.length l)%nat /\ nth idx l 0%R = v /\
  (forall j, (j < List.length l)%nat -> (nth j l 0 <= v)%R) /\
  (forall j, (j < idx)%nat -> (nth j l 0 < v)%R).

(** The locals of the search as a tuple, and the update at one grid
    point. *)
Definition best_of (s : scan_state) : R * R * R * Z :=
  (max_power s, best_azimuth s, best_elevation s, best_peak_idx s).

Definition track (st : sonar_state_t) (b : R * R * R * Z) (g : R * R)
    : R * R * R * Z :=
  if Rgtb (point_peak st g).1 b.1.1.1
  then ((point_peak st g).1, g.1, g.2, (point_peak st g).2)
  else b.

(** Two states that the beamformer cannot tell apart. *)
Definition same_input (st1 st2 : sonar_state_t) : Prop :=
  filtered_buffer st1 = filtered_buffer st2 /\
  sample_count st1 = sample_count st2 /\
  List.length (beamformed_output st1) = List.length (beamformed_output st2).

(** The locals of the search before the first grid point. *)
Definition scan_init (st : sonar_state_t) : scan_state :=
  {| sc_state := st; max_power := 0; best_azimuth := 0;
     best_elevation := 0; best_peak_idx := 0 |}.

(** ** Vectors *)

(** Dot product and Euclidean norm of vectors of reals. *)
Definition dot (a b : R * R * R) : R :=
  (a.1.1 * b.1.1 + a.1.2 * b.1.2 + a.2 * b.2)%R.
Definition norm (a : R * R * R) : R := sqrt (dot a a).

(** A filtered channel of 400 samples: an echo of amplitude 8000 at
    sample 120 and a stronger one of opposite sign, -40000, at sample
    300. *)
Definition spike_sample (k : nat) : R :=
  if (k =? 120)%nat then 8000%R
  else if (k =? 300)%nat then (-40000)%R else 0%R.

Definition spike_channel : list R := map spike_sample (seq 0 400).

(** A state whose channel 0 holds [spike_channel] and whose other
    channels are silent. *)
Definition spike_state : sonar_state_t :=
  {| tx_chirp := []; matched_filter := []; rx_buffer := [];
     filtered_buffer :=
       [spike_channel; replicate 400 0%R; replicate 400 0%R;
        replicate 400 0%R];
     beamformed_output := replicate 400 0%R;
     target := {| range_cm := 0; azimuth_rad := 0; elevation_rad := 0;
                  confidence := 0; valid := false |};
     processing_complete := false;
     sample_count := 400 |}.

(** ** signal_utils.c and dfsdm_mic.c: windowing and sample conversion *)

(** [signal_apply_window]: the contents of [signal] after the call. *)
Definition signal_apply_window (signal : option (list float32_t))
    (length : Z) : option (list float32_t) :=
  match signal with
  | None => None
  | Some sig =>
      if (length =? 0)%Z then signal
      else
        Some
          (for_loop (Z.to_nat length) 0%Z
             (fun i signal =>
                let window :=
                  (0.5 * (1 - arm_cos_f32
                                (2 * PI * IZR i / IZR (u32 (length - 1)))))%R in
                <[Z.to_nat i := (rd signal i * window)%R]> signal)
             sig)
  end.

(** [dfsdm_convert_pdm_to_pcm]: the contents of [pcm_data] after the
    call.  [pdm_data] holds [int16_t] values. *)
Definition dfsdm_convert_pdm_to_pcm (pdm_data : list Z)
    (pcm_data : list float32_t) (length : Z) : list float32_t :=
  for_loop (Z.to_nat length) 0%Z
    (fun i pcm_data =>
       <[Z.to_nat i := (IZR (rdz pdm_data i) / 32768)%R]> pcm_data)
    pcm_data.

(** The Hann window value at sample [i] of [length]. *)
Definition hann (length i : Z) : R :=
  (0.5 * (1 - cos (2 * PI * IZR i / IZR (length - 1))))%R.

(** An [int16_t] value. *)
Definition is_s16 (z : Z) : Prop := (- 32768 <= z < 32768)%Z.

(** ** Peak scan *)

(** What the scan of [signal_find_peaks] has established when its counter
    is [i]: every peak below [i] is reported, every reported index is
    below [i], and the cells of [peaks] from [num_peaks] on hold what
    they held on entry ([peaks0]). *)
Definition scanned (signal : list float32_t) (length : Z)
    (threshold : float32_t) (max_peaks : Z) (peaks0 : list Z)
    (i : Z) (peaks : list Z) (num_peaks : Z) : Prop :=
  (1 <= i <= Z.max 1 (length - 1))%Z /\
  (0 <= num_peaks <= max_peaks)%Z /\
  List.length peaks = List.length peaks0 /\
  (forall p, (1 <= p < i)%Z -> strict_local_peak signal threshold p ->
             In p (reported peaks num_peaks)) /\
  (forall p, In p (reported peaks num_peaks) -> (p < i)%Z) /\
  (forall k, (num_peaks <= k)%Z -> rdz peaks k = rdz peaks0 k).

(** ** Cluster bookkeeping *)

(** Number of flags set in [processed]. *)
Fixpoint count_true (l : list bool) : Z :=
  match l with
  | [] => 0%Z
  | b :: l' => ((if b then 1 else 0) + count_true l')%Z
  end.

(** Sum of the sample counts of clusters [0 .. n). *)
Definition total_samples (clusters : list target_cluster_t) (n : Z) : Z :=
  fold_right Z.add 0%Z (map cl_sample_count (take (Z.to_nat n) clusters)).

(** A cluster that holds at least one peak, with its range between [lo]
    and [hi] and a power that is a magnitude. *)
Definition cluster_sound (lo hi : R) (c : target_cluster_t) : Prop :=
  (1 <= cl_sample_count c)%Z /\ (lo <= cl_range_cm c <= hi)%R /\
  (0 <= cl_power c)%R.

(** Invariant of the outer loop of [signal_cluster_detections];
    [clusters0] is the [clusters] array on entry. *)
Definition clusters_inv (num_peaks max_clusters : Z) (lo hi : R)
    (clusters0 : list target_cluster_t) (s : cluster_state) : Prop :=
  (0 <= cs_num s <= cs_i s)%Z /\ (cs_i s <= num_peaks)%Z /\
  (cs_num s <= max_clusters)%Z /\
  List.length (cs_processed s) = Z.to_nat num_peaks /\
  List.length (cs_clusters s) = List.length clusters0 /\
  (forall k, (k < Z.to_nat (cs_i s))%nat ->
     nth k (cs_processed s) false = true) /\
  total_samples (cs_clusters s) (cs_num s) = count_true (cs_processed s) /\
  (forall c, (0 <= c < cs_num s)%Z ->
     cluster_sound lo hi (rdc (cs_clusters s) c)) /\
  (forall c, cl_azimuth_rad (rdc (cs_clusters s) c) =
               cl_azimuth_rad (rdc clusters0 c) /\
             cl_elevation_rad (rdc (cs_clusters s) c) =
               cl_elevation_rad (rdc clusters0 c)) /\
  (forall c, (cs_num s <= c)%Z -> rdc (cs_clusters s) c = rdc clusters0 c) /\
  ((1 <= cs_i s)%Z -> (1 <= cs_num s)%Z).

(** ** Fields of the sonar state left alone by processing *)

(** Two states that differ at most in the contents of
    [beamformed_output]. *)
Definition same_but_output (st1 st2 : sonar_state_t) : Prop :=
  tx_chirp st1 = tx_chirp st2 /\ matched_filter st1 = matched_filter st2 /\
  rx_buffer st1 = rx_buffer st2 /\ filtered_buffer st1 = filtered_buffer st2 /\
  List.length (beamformed_output st1) = List.length (beamformed_output st2) /\
  target st1 = target st2 /\
  processing_complete st1 = processing_complete st2 /\
  sample_count st1 = sample_count st2.

(** ** sonar.c: sonar_init *)

Definition SONAR_MAX_RANGE_CM : Z := 500.
Definition SONAR_MAX_SAMPLES : Z :=
  (SONAR_SAMPLE_RATE * SONAR_MAX_RANGE_CM * 2 / 34300)%Z.

(** [sonar_state_t] with its pointer fields as they are during
    initialisation: [None] is [NULL]. *)
Record sonar_state_raw := {
  raw_tx_chirp : option (list float32_t);
  raw_matched_filter : option (list float32_t);
  raw_rx_buffer : list (option (list float32_t));
  raw_filtered_buffer : list (option (list float32_t));
  raw_beamformed_output : option (list float32_t);
  raw_target : target_info_t;
  raw_processing_complete : bool;
  raw_sample_count : Z
}.

(** [malloc(count * sizeof(float32_t))].  [r] is what the allocator
    answers: [None] for a failed allocation, otherwise the indeterminate
    initial contents of the block, cell by cell. *)
Definition malloc_f32 (r : option (nat -> float32_t)) (count : Z)
    : option (list float32_t) :=
  match r with
  | None => None
  | Some garbage => Some (map garbage (seq 0 (Z.to_nat count)))
  end.

Definition is_null {A : Type} (p : option A) : bool :=
  match p with None => true | Some _ => false end.

(** The allocation loop of [sonar_init] over the microphones, from
    [i]; [heap k] is the allocator's answer to the [k]-th call of
    [malloc].  The boolean is false when the loop returned -2. *)
Fixpoint sonar_init_mics (n : nat) (i : Z)
    (heap : nat -> option (nat -> float32_t))
    (rx_buffer filtered_buffer : list (option (list float32_t)))
    : bool * list (option (list float32_t)) *
      list (option (list float32_t)) :=
  match n with
  | O => (true, rx_buffer, filtered_buffer)
  | S n' =>
      let rx :=
        malloc_f32 (heap (Z.to_nat (3 + 2 * i))) SONAR_MAX_SAMPLES in
      let filtered :=
        malloc_f32 (heap (Z.to_nat (4 + 2 * i)))
          (SONAR_MAX_SAMPLES + SONAR_CHIRP_SAMPLES) in
      let rx_buffer := <[Z.to_nat i := rx]> rx_buffer in
      let filtered_buffer := <[Z.to_nat i := filtered]> filtered_buffer in
      if is_null rx || is_null filtered
      then (false, rx_buffer, filtered_buffer)
      else sonar_init_mics n' (i + 1)%Z heap rx_buffer filtered_buffer
  end.

(** [sonar_init]: return code and the state after the call. *)
Definition sonar_init (state : option sonar_state_raw)
    (heap : nat -> option (nat -> float32_t))
    : Z * option sonar_state_raw :=
  match state with
  | None => ((-1)%Z, None)
  | Some st =>
      let tx_chirp := malloc_f32 (heap 0%nat) SONAR_CHIRP_SAMPLES in
      let matched_filter := malloc_f32 (heap 1%nat) SONAR_CHIRP_SAMPLES in
      let beamformed_output := malloc_f32 (heap 2%nat) SONAR_MAX_SAMPLES in
      let '(ok, rx_buffer, filtered_buffer) :=
        sonar_init_mics (Z.to_nat NUM_MICS) 0%Z heap (raw_rx_buffer st)
          (raw_filtered_buffer st) in
      let st1 :=
        {| raw_tx_chirp := tx_chirp; raw_matched_filter := matched_filter;
           raw_rx_buffer := rx_buffer;
           raw_filtered_buffer := filtered_buffer;
           raw_beamformed_output := beamformed_output;
           raw_target := raw_target st;
           raw_processing_complete := raw_processing_complete st;
           raw_sample_count := raw_sample_count st |} in
      if negb ok then ((-2)%Z, Some st1)
      else
        match tx_chirp, matched_filter, beamformed_output with
        | Some tx, Some mf, Some bo =>
            let tx := sonar_generate_chirp tx SONAR_CHIRP_SAMPLES in
            let mf :=
              for_loop (Z.to_nat SONAR_CHIRP_SAMPLES) 0%Z
                (fun i mf =>
                   <[Z.to_nat i :=
                       rd tx (u32 (SONAR_CHIRP_SAMPLES - 1 - i))]> mf)
                mf in
            (0%Z,
             Some {| raw_tx_chirp := Some tx; raw_matched_filter := Some mf;
                     raw_rx_buffer := rx_buffer;
                     raw_filtered_buffer := filtered_buffer;
                     raw_beamformed_output := Some bo;
                     raw_target :=
                       {| range_cm := 0; azimuth_rad := 0;
                          elevation_rad := 0; confidence := 0;
                          valid := false |};
                     raw_processing_complete := false;
                     raw_sample_count := 0 |})
        | _, _, _ => ((-2)%Z, Some st1)
        end
  end.

(** The buffers behind an array of pointers, when none is null. *)
Fixpoint buffers_of (l : list (option (list float32_t)))
    : option (list (list float32_t)) :=
  match l with
  | [] => Some []
  | None :: _ => None
  | Some b :: l' =>
      match buffers_of l' with
      | None => None
      | Some bs => Some (b :: bs)
      end
  end.

(** The state as the processing routines see it, when no pointer is
    null. *)
Definition sonar_state_of (r : sonar_state_raw) : option sonar_state_t :=
  match raw_tx_chirp r, raw_matched_filter r, raw_beamformed_output r,
        buffers_of (raw_rx_buffer r), buffers_of (raw_filtered_buffer r) with
  | Some tx, Some mf, Some bo, Some rx, Some filtered =>
      Some {| tx_chirp := tx; matched_filter := mf; rx_buffer := rx;
              filtered_buffer := filtered; beamformed_output := bo;
              target := raw_target r;
              processing_complete := raw_processing_complete r;
              sample_count := raw_sample_count r |}
  | _, _, _, _, _ => None
  end.

(** An allocator that never fails and hands out blocks filled with 7. *)
Definition ready_heap : nat -> option (nat -> float32_t) :=
  fun _ => Some (fun _ => 7%R).

(** A state that has not been initialised: null pointers and stale
    scalar fields. *)
Definition blank_state : sonar_state_raw :=
  {| raw_tx_chirp := None; raw_matched_filter := None;
     raw_rx_buffer := [None; None; None; None];
     raw_filtered_buffer := [None; None; None; None];
     raw_beamformed_output := None;
     raw_target := {| range_cm := 1; azimuth_rad := 1; elevation_rad := 1;
                      confidence := 1; valid := true |};
     raw_processing_complete := true;
     raw_sample_count := 9 |}.

(** ** data_logger.c *)

Definition LOGGER_MAX_ENTRIES : Z := 1000.

Inductive log_entry_type_t :=
  | LOG_ENTRY_SONAR_DATA
  | LOG_ENTRY_TARGET_DETECTION
  | LOG_ENTRY_GUIDANCE_CMD
  | LOG_ENTRY_VEHICLE_STATE
  | LOG_ENTRY_DIAGNOSTIC
  | LOG_ENTRY_MAX.

(** The member of the union [data] that was written last.  Buffers are
    logged by address: the entry keeps the pointers, not the samples. *)
Inductive log_data_t :=
  | data_sonar (timestamp_ms : Z) (rx_data : list Z) (sample_count : Z)
               (beamformed_output : Z) (beamformed_length : Z)
  | data_target (timestamp_ms : Z) (target : target_info_t)
                (confidence : float32_t)
  | data_guidance (timestamp_ms : Z) (cmd : guidance_cmd_t)
                  (vehicle_state : vehicle_state_t).

Record log_entry_t := {
  entry_type : log_entry_type_t;
  entry_data : log_data_t
}.

Record data_logger_t := {
  entries : list log_entry_t;
  write_index : Z;
  read_index : Z;
  entry_count : Z;
  enabled : bool;
  overflow : bool
}.

(** An entry of all-zero bytes. *)
Definition zero_entry : log_entry_t :=
  {| entry_type := LOG_ENTRY_SONAR_DATA;
     entry_data := data_sonar 0 [0; 0; 0; 0]%Z 0 0 0 |}.

(** [memset(logger, 0, sizeof(data_logger_t))]. *)
Definition zero_logger : data_logger_t :=
  {| entries := replicate (Z.to_nat LOGGER_MAX_ENTRIES) zero_entry;
     write_index := 0; read_index := 0; entry_count := 0;
     enabled := false; overflow := false |}.

(** [logger_init]: return code and [*logger] after the call. *)
Definition logger_init (logger : option data_logger_t)
    : Z * option data_logger_t :=
  match logger with
  | None => ((-1)%Z, None)
  | Some _ => (0%Z, Some zero_logger)
  end.

Definition logger_set_enabled (logger : option data_logger_t) (enable : bool)
    : option data_logger_t :=
  match logger with
  | None => None
  | Some lg =>
      Some {| entries := entries lg; write_index := write_index lg;
              read_index := read_index lg; entry_count := entry_count lg;
              enabled := enable; overflow := overflow lg |}
  end.

(** The steps the three logging functions share once their arguments
    are accepted: refuse when full, else store [entry] at
    [write_index], advance it modulo the capacity and count the entry. *)
Definition logger_store (lg : data_logger_t) (entry : log_entry_t)
    : Z * option data_logger_t :=
  if (LOGGER_MAX_ENTRIES <=? entry_count lg)%Z then
    ((-2)%Z,
     Some {| entries := entries lg; write_index := write_index lg;
             read_index := read_index lg; entry_count := entry_count lg;
             enabled := enabled lg; overflow := true |})
  else
    (0%Z,
     Some {| entries := <[Z.to_nat (write_index lg) := entry]> (entries lg);
             write_index := (u32 (write_index lg + 1) mod LOGGER_MAX_ENTRIES)%Z;
             read_index := read_index lg;
             entry_count := u32 (entry_count lg + 1);
             enabled := enabled lg; overflow := overflow lg |}).

(** [logger_log_sonar]; [tick] is what [HAL_GetTick()] returns. *)
Definition logger_log_sonar (logger : option data_logger_t)
    (rx_data : list Z) (sample_count : Z) (beamformed : Z)
    (beamformed_length : Z) (tick : Z) : Z * option data_logger_t :=
  match logger with
  | None => ((-1)%Z, None)
  | Some lg =>
      if negb (enabled lg) then ((-1)%Z, logger)
      else
        logger_store lg
          {| entry_type := LOG_ENTRY_SONAR_DATA;
             entry_data :=
               data_sonar tick
                 (map (fun i => rdz rx_data i) (indices NUM_MICS))
                 sample_count beamformed beamformed_length |}
  end.

(** [logger_log_target]. *)
Definition logger_log_target (logger : option data_logger_t)
    (target : option target_info_t) (confidence : float32_t) (tick : Z)
    : Z * option data_logger_t :=
  match logger with
  | None => ((-1)%Z, None)
  | Some lg =>
      if negb (enabled lg) then ((-1)%Z, logger)
      else
        match target with
        | None => ((-1)%Z, logger)
        | Some target =>
            logger_store lg
              {| entry_type := LOG_ENTRY_TARGET_DETECTION;
                 entry_data := data_target tick target confidence |}
        end
  end.

(** [logger_log_guidance]. *)
Definition logger_log_guidance (logger : option data_logger_t)
    (cmd : option guidance_cmd_t) (vehicle_state : option vehicle_state_t)
    (tick : Z) : Z * option data_logger_t :=
  match logger with
  | None => ((-1)%Z, None)
  | Some lg =>
      if negb (enabled lg) then ((-1)%Z, logger)
      else
        match cmd, vehicle_state with
        | Some cmd, Some vehicle_state =>
            logger_store lg
              {| entry_type := LOG_ENTRY_GUIDANCE_CMD;
                 entry_data := data_guidance tick cmd vehicle_state |}
        | _, _ => ((-1)%Z, logger)
        end
  end.

Definition logger_get_count (logger : option data_logger_t) : Z :=
  match logger with
  | None => 0%Z
  | Some lg => entry_count lg
  end.

(** [logger_read]: return code, [*logger] and [*entry] after the
    call. *)
Definition logger_read (logger : option data_logger_t)
    (entry : option log_entry_t)
    : Z * option data_logger_t * option log_entry_t :=
  match logger, entry with
  | Some lg, Some _ =>
      if (entry_count lg =? 0)%Z then ((-2)%Z, logger, entry)
      else
        (0%Z,
         Some {| entries := entries lg; write_index := write_index lg;
                 read_index := (u32 (read_index lg + 1) mod LOGGER_MAX_ENTRIES)%Z;
                 entry_count := u32 (entry_count lg - 1);
                 enabled := enabled lg; overflow := overflow lg |},
         Some (nth (Z.to_nat (read_index lg)) (entries lg) zero_entry))
  | _, _ => ((-1)%Z, logger, entry)
  end.

Definition logger_clear (logger : option data_logger_t)
    : option data_logger_t :=
  match logger with
  | None => None
  | Some _ => Some zero_logger
  end.

(** The logger as a ring: indices in range and the write position
    [entry_count] places after the read position. *)
Definition logger_wf (lg : data_logger_t) : Prop :=
  Z.of_nat (List.length (entries lg)) = LOGGER_MAX_ENTRIES /\
  (0 <= read_index lg < LOGGER_MAX_ENTRIES)%Z /\
  (0 <= entry_count lg <= LOGGER_MAX_ENTRIES)%Z /\
  write_index lg = ((read_index lg + entry_count lg) mod LOGGER_MAX_ENTRIES)%Z.

(** The entries waiting to be read, oldest first. *)
Definition logger_queue (lg : data_logger_t) : list log_entry_t :=
  map (fun k => nth (Z.to_nat ((read_index lg + Z.of_nat k) mod
                               LOGGER_MAX_ENTRIES))
                    (entries lg) zero_entry)
      (seq 0 (Z.to_nat (entry_count lg))).


(** A freshly initialised logger with logging switched on. *)
Definition fresh_logger : data_logger_t :=
  {| entries := entries zero_logger; write_index := 0; read_index := 0;
     entry_count := 0; enabled := true; overflow := false |}.


(** A series of calls of [logger_log_target], one per element of [ts]
    (target, confidence, tick), with the return codes in order. *)
Fixpoint logger_log_targets (logger : option data_logger_t)
    (ts : list (target_info_t * float32_t * Z))
    : list Z * option data_logger_t :=
  match ts with
  | [] => ([], logger)
  | x :: ts' =>
      let '(rc, logger') := logger_log_target logger (Some x.1.1) x.1.2 x.2 in
      let '(rcs, logger'') := logger_log_targets logger' ts' in
      (rc :: rcs, logger'')
  end.

(** The entry that [logger_log_target] stores. *)
Definition target_entry (x : target_info_t * float32_t * Z) : log_entry_t :=
  {| entry_type := LOG_ENTRY_TARGET_DETECTION;
     entry_data := data_target x.2 x.1.1 x.1.2 |}.

(** ** config.h and config.c *)

Definition CONFIG_VERSION : Z := 1.

Record sonar_config_t := {
  cfg_sample_rate : Z;
  chirp_duration_ms : Z;
  chirp_f0 : Z;
  chirp_f1 : Z;
  detection_threshold : float32_t;
  max_range_cm : Z;
  min_range_cm : Z
}.

Record guidance_config_t := {
  navigation_constant : float32_t;
  max_acceleration : float32_t;
  guidance_min_range_cm : float32_t
}.

Record system_config_t := {
  version : Z;
  sonar : sonar_config_t;
  guidance : guidance_config_t;
  logging_enabled : bool;
  log_level : Z
}.

Definition CONFIG_DEFAULT_SONAR_SAMPLE_RATE : Z := 200000.
Definition CONFIG_DEFAULT_SONAR_CHIRP_DURATION_MS : Z := 1.
Definition CONFIG_DEFAULT_SONAR_CHIRP_F0 : Z := 38000.
Definition CONFIG_DEFAULT_SONAR_CHIRP_F1 : Z := 42000.
Definition CONFIG_DEFAULT_SONAR_THRESHOLD : float32_t := 1000.
Definition CONFIG_DEFAULT_SONAR_MAX_RANGE_CM : Z := 500.
Definition CONFIG_DEFAULT_SONAR_MIN_RANGE_CM : Z := 10.
Definition CONFIG_DEFAULT_GUIDANCE_N : float32_t := 3.
Definition CONFIG_DEFAULT_GUIDANCE_MAX_ACCEL : float32_t := 9.81.
Definition CONFIG_DEFAULT_GUIDANCE_MIN_RANGE_CM : float32_t := 5.

(** [config_init]: return code and [*config] after the call. *)
Definition config_init (config : option system_config_t)
    : Z * option system_config_t :=
  match config with
  | None => ((-1)%Z, None)
  | Some _ =>
      (0%Z,
       Some {| version := CONFIG_VERSION;
               sonar :=
                 {| cfg_sample_rate := CONFIG_DEFAULT_SONAR_SAMPLE_RATE;
                    chirp_duration_ms := CONFIG_DEFAULT_SONAR_CHIRP_DURATION_MS;
                    chirp_f0 := CONFIG_DEFAULT_SONAR_CHIRP_F0;
                    chirp_f1 := CONFIG_DEFAULT_SONAR_CHIRP_F1;
                    detection_threshold := CONFIG_DEFAULT_SONAR_THRESHOLD;
                    max_range_cm := CONFIG_DEFAULT_SONAR_MAX_RANGE_CM;
                    min_range_cm := CONFIG_DEFAULT_SONAR_MIN_RANGE_CM |};
               guidance :=
                 {| navigation_constant := CONFIG_DEFAULT_GUIDANCE_N;
                    max_acceleration := CONFIG_DEFAULT_GUIDANCE_MAX_ACCEL;
                    guidance_min_range_cm :=
                      CONFIG_DEFAULT_GUIDANCE_MIN_RANGE_CM |};
               logging_enabled := false;
               log_level := 2 |})
  end.

(** [config_validate]: the return code. *)
Definition config_validate (config : option system_config_t) : Z :=
  match config with
  | None => (-1)%Z
  | Some config =>
      if (cfg_sample_rate (sonar config) <? 100000)%Z ||
         (500000 <? cfg_sample_rate (sonar config))%Z then (-2)%Z
      else if (chirp_duration_ms (sonar config) =? 0)%Z ||
              (10 <? chirp_duration_ms (sonar config))%Z then (-3)%Z
      else if (chirp_f1 (sonar config) <=? chirp_f0 (sonar config))%Z
      then (-4)%Z
      else if (max_range_cm (sonar config) <=? min_range_cm (sonar config))%Z
      then (-5)%Z
      else if Rltb (navigation_constant (guidance config)) 1 ||
              Rgtb (navigation_constant (guidance config)) 10 then (-6)%Z
      else if negb (Rgtb (max_acceleration (guidance config)) 0) then (-7)%Z
      else 0%Z
  end.

Definition config_load (config : option system_config_t)
    : Z * option system_config_t :=
  match config with
  | None => ((-1)%Z, None)
  | Some _ => config_init config
  end.

(** [config_save]: the return code; the configuration is not changed. *)
Definition config_save (config : option system_config_t) : Z :=
  match config with
  | None => (-1)%Z
  | Some _ => if (config_validate config =? 0)%Z then 0%Z else (-2)%Z
  end.

Definition config_reset (config : option system_config_t)
    : Z * option system_config_t :=
  config_init config.

(** [config_get_sonar]: return code and [*sonar_config] after the
    call. *)
Definition config_get_sonar (config : option system_config_t)
    (sonar_config : option sonar_config_t) : Z * option sonar_config_t :=
  match config, sonar_config with
  | Some config, Some _ => (0%Z, Some (sonar config))
  | _, _ => ((-1)%Z, sonar_config)
  end.

(** [config_set_sonar]: return code and [*config] after the call. *)
Definition config_set_sonar (config : option system_config_t)
    (sonar_config : option sonar_config_t) : Z * option system_config_t :=
  match config, sonar_config with
  | Some config, Some sonar_config =>
      let config :=
        {| version := version config; sonar := sonar_config;
           guidance := guidance config;
           logging_enabled := logging_enabled config;
           log_level := log_level config |} in
      (config_validate (Some config), Some config)
  | _, _ => ((-1)%Z, config)
  end.

Definition config_get_guidance (config : option system_config_t)
    (guidance_config : option guidance_config_t)
    : Z * option guidance_config_t :=
  match config, guidance_config with
  | Some config, Some _ => (0%Z, Some (guidance config))
  | _, _ => ((-1)%Z, guidance_config)
  end.

Definition config_set_guidance (config : option system_config_t)
    (guidance_config : option guidance_config_t)
    : Z * option system_config_t :=
  match config, guidance_config with
  | Some config, Some guidance_config =>
      let config :=
        {| version := version config; sonar := sonar config;
           guidance := guidance_config;
           logging_enabled := logging_enabled config;
           log_level := log_level config |} in
      (config_validate (Some config), Some config)
  | _, _ => ((-1)%Z, config)
  end.

(** ** calibration.h and calibration.c *)

Definition CALIBRATION_TEMPERATURE : float32_t := 20.
Definition SPEED_OF_SOUND_BASE : float32_t := 331.3.
Definition SPEED_OF_SOUND_COEFF : float32_t := 0.606.

(** The arrays hold one value per microphone. *)
Record mic_calibration_t := {
  gain : list float32_t;
  phase_offset : list float32_t;
  dc_offset : list float32_t;
  calibrated : bool
}.

Record system_calibration_t := {
  mic_cal : mic_calibration_t;
  speed_of_sound : float32_t;
  temperature : float32_t;
  tx_power : float32_t;
  system_calibrated : bool
}.

(** The loop that both [calibration_init] and
    [calibration_calibrate_mics] run over the microphones: unity gain,
    zero phase and DC offsets. *)
Definition unity_mic_cal (m : mic_calibration_t) (is_calibrated : bool)
    : mic_calibration_t :=
  let m' :=
    for_loop (Z.to_nat NUM_MICS) 0%Z
      (fun i m =>
         {| gain := <[Z.to_nat i := 1%R]> (gain m);
            phase_offset := <[Z.to_nat i := 0%R]> (phase_offset m);
            dc_offset := <[Z.to_nat i := 0%R]> (dc_offset m);
            calibrated := calibrated m |})
      m in
  {| gain := gain m'; phase_offset := phase_offset m';
     dc_offset := dc_offset m'; calibrated := is_calibrated |}.

(** [calibration_init]: return code and [*cal] after the call. *)
Definition calibration_init (cal : option system_calibration_t)
    : Z * option system_calibration_t :=
  match cal with
  | None => ((-1)%Z, None)
  | Some _ =>
      let zeros := replicate (Z.to_nat NUM_MICS) 0%R in
      let m0 := {| gain := zeros; phase_offset := zeros; dc_offset := zeros;
                   calibrated := false |} in
      (0%Z,
       Some {| mic_cal := unity_mic_cal m0 false;
               speed_of_sound :=
                 (SPEED_OF_SOUND_BASE +
                  SPEED_OF_SOUND_COEFF * CALIBRATION_TEMPERATURE)%R;
               temperature := CALIBRATION_TEMPERATURE;
               tx_power := 1;
               system_calibrated := false |})
  end.

(** [calibration_calibrate_mics]. *)
Definition calibration_calibrate_mics (cal : option system_calibration_t)
    (reference_signal : option (list float32_t)) (length : Z)
    : Z * option system_calibration_t :=
  match cal, reference_signal with
  | Some c, Some _ =>
      if (length =? 0)%Z then ((-1)%Z, cal)
      else
        (0%Z,
         Some {| mic_cal := unity_mic_cal (mic_cal c) true;
                 speed_of_sound := speed_of_sound c;
                 temperature := temperature c;
                 tx_power := tx_power c;
                 system_calibrated := system_calibrated c |})
  | _, _ => ((-1)%Z, cal)
  end.

(** [calibration_set_temperature]. *)
Definition calibration_set_temperature (cal : option system_calibration_t)
    (temperature' : float32_t) : Z * option system_calibration_t :=
  match cal with
  | None => ((-1)%Z, None)
  | Some c =>
      (0%Z,
       Some {| mic_cal := mic_cal c;
               speed_of_sound :=
                 (SPEED_OF_SOUND_BASE + SPEED_OF_SOUND_COEFF * temperature')%R;
               temperature := temperature';
               tx_power := tx_power c;
               system_calibrated := system_calibrated c |})
  end.

(** [memcpy(dst, src, nbytes)] between float arrays: the first
    [nbytes / 4] samples are copied. *)
Definition memcpy_f32 (dst src : list float32_t) (nbytes : Z)
    : list float32_t :=
  for_loop (Z.to_nat (nbytes / 4)) 0%Z
    (fun k d => <[Z.to_nat k := rd src k]> d) dst.

(** [calibration_apply]: the contents of the [calibrated_signals]
    buffers after the call. *)
Definition calibration_apply (cal : option system_calibration_t)
    (raw_signals calibrated_signals : option (list (list float32_t)))
    (length : Z) : option (list (list float32_t)) :=
  match cal, raw_signals, calibrated_signals with
  | Some c, Some raw, Some out =>
      if negb (calibrated (mic_cal c)) then
        Some
          (for_loop (Z.to_nat NUM_MICS) 0%Z
             (fun i out =>
                <[Z.to_nat i :=
                    memcpy_f32 (nth (Z.to_nat i) out [])
                      (nth (Z.to_nat i) raw []) (u32 (length * 4))]> out)
             out)
      else
        Some
          (for_loop (Z.to_nat NUM_MICS) 0%Z
             (fun i out =>
                let gain := rd (gain (mic_cal c)) i in
                let dc_offset := rd (dc_offset (mic_cal c)) i in
                <[Z.to_nat i :=
                    for_loop (Z.to_nat length) 0%Z
                      (fun j o =>
                         <[Z.to_nat j :=
                             ((rd (nth (Z.to_nat i) raw []) j - dc_offset) *
                              gain)%R]> o)
                      (nth (Z.to_nat i) out [])]> out)
             out)
  | _, _, _ => calibrated_signals
  end.

Definition calibration_is_calibrated (cal : option system_calibration_t)
    : bool :=
  match cal with
  | None => false
  | Some c => system_calibrated c && calibrated (mic_cal c)
  end.

(** [calibration_save] and [calibration_load]: the return code; neither
    touches the structure. *)
Definition calibration_save (cal : option system_calibration_t) : Z :=
  match cal with None => (-1)%Z | Some _ => 0%Z end.

Definition calibration_load (cal : option system_calibration_t) : Z :=
  match cal with None => (-1)%Z | Some _ => 0%Z end.

(** The calibration structures that the functions of [calibration.c]
    can produce, starting from [calibration_init]. *)
Inductive cal_reachable : system_calibration_t -> Prop :=
  | reach_init c0 c :
      calibration_init (Some c0) = (0%Z, Some c) -> cal_reachable c
  | reach_calibrate_mics c reference_signal length rc c' :
      cal_reachable c ->
      calibration_calibrate_mics (Some c) reference_signal length =
        (rc, Some c') ->
      cal_reachable c'
  | reach_set_temperature c t rc c' :
      cal_reachable c ->
      calibration_set_temperature (Some c) t = (rc, Some c') ->
      cal_reachable c'.


(** The structure after [calibration_init] and
    [calibration_calibrate_mics]. *)
Definition calibrated_mics_example : system_calibration_t :=
  {| mic_cal := {| gain := [1; 1; 1; 1]%R; phase_offset := [0; 0; 0; 0]%R;
                   dc_offset := [0; 0; 0; 0]%R; calibrated := true |};
     speed_of_sound :=
       (SPEED_OF_SOUND_BASE + SPEED_OF_SOUND_COEFF * CALIBRATION_TEMPERATURE)%R;
     temperature := CALIBRATION_TEMPERATURE;
     tx_power := 1;
     system_calibrated := false |}.

(** ** Single precision

    IEEE-754 binary32 with round-to-nearest-even, as the FPU of the
    target computes: 24 bits of precision, exponent of the infinities
    128.  Every operation of the source is rounded on its own (no fused
    multiply-add).  NaNs carry no payload. *)
Module Binary32.

Definition float32_t : Type := spec_float.

Definition prec : Z := 24.
Definition emax : Z := 128.

Definition fadd : float32_t -> float32_t -> float32_t := SFadd prec emax.
Definition fsub : float32_t -> float32_t -> float32_t := SFsub prec emax.
Definition fmul : float32_t -> float32_t -> float32_t := SFmul prec emax.
Definition fdiv : float32_t -> float32_t -> float32_t := SFdiv prec emax.
Definition fneg : float32_t -> float32_t := SFopp.
Definition sqrtf : float32_t -> float32_t := SFsqrt prec emax.

(** The C comparisons [x < y], [x > y] and [x <= y]: false when an
    operand is NaN. *)
Definition fltb (x y : float32_t) : bool := SFltb x y.
Definition fgtb (x y : float32_t) : bool := SFltb y x.
Definition fleb (x y : float32_t) : bool := SFleb x y.

(** The float nearest to the integer [z], and the float nearest to the
    decimal literal [num / den] (the quotient of two integers that are
    floats themselves, rounded once). *)
Definition of_Z (z : Z) : float32_t := binary_normalize prec emax z 0 false.
Definition literal (num den : Z) : float32_t := fdiv (of_Z num) (of_Z den).

Definition is_nan (x : float32_t) : bool :=
  match x with S754_nan => true | _ => false end.

(** The real number a float stands for; 0 for infinities and NaN. *)
Definition to_R (x : float32_t) : R :=
  match x with
  | S754_finite s m e =>
      ((if s then -1 else 1) * IZR (Zpos m) * powerRZ 2 e)%R
  | _ => 0%R
  end.

Declare Scope f32_scope.
Delimit Scope f32_scope with f32.
Bind Scope f32_scope with float32_t.
Infix "+" := fadd : f32_scope.
Infix "-" := fsub : f32_scope.
Infix "*" := fmul : f32_scope.
Infix "/" := fdiv : f32_scope.
Notation "- x" := (fneg x) : f32_scope.

(** *** guidance.h and guidance.c in single precision *)

Definition GUIDANCE_N : float32_t := literal 3 1.
Definition GUIDANCE_MAX_ACCEL : float32_t := literal 981 100.
Definition GUIDANCE_MIN_RANGE_CM : float32_t := literal 5 1.

Record target_info_t := {
  range_cm : float32_t;
  azimuth_rad : float32_t;
  elevation_rad : float32_t;
  confidence : float32_t;
  valid : bool
}.

Record vehicle_state_t := {
  pos_x : float32_t; pos_y : float32_t; pos_z : float32_t;
  vel_x : float32_t; vel_y : float32_t; vel_z : float32_t
}.

Record guidance_cmd_t := {
  accel_x : float32_t; accel_y : float32_t; accel_z : float32_t;
  intercept : bool
}.

(** [guidance_compute]: return code and [*cmd] after the call.  The
    CMSIS routines [arm_cos_f32] and [arm_sin_f32] are parameters. *)
Definition guidance_compute (arm_cos_f32 arm_sin_f32 : float32_t -> float32_t)
    (vehicle : option vehicle_state_t) (target : option target_info_t)
    (cmd : option guidance_cmd_t) : Z * option guidance_cmd_t :=
  match vehicle, target, cmd with
  | Some vehicle, Some target, Some _ =>
      if negb (valid target) then ((-2)%Z, cmd)
      else
        let target_range_m := (range_cm target / of_Z 100)%f32 in
        let target_x := (target_range_m * arm_cos_f32 (elevation_rad target) *
                         arm_cos_f32 (azimuth_rad target))%f32 in
        let target_y := (target_range_m * arm_cos_f32 (elevation_rad target) *
                         arm_sin_f32 (azimuth_rad target))%f32 in
        let target_z :=
          (target_range_m * arm_sin_f32 (elevation_rad target))%f32 in
        let rel_x := (target_x - pos_x vehicle)%f32 in
        let rel_y := (target_y - pos_y vehicle)%f32 in
        let rel_z := (target_z - pos_z vehicle)%f32 in
        let range :=
          sqrtf (rel_x * rel_x + rel_y * rel_y + rel_z * rel_z)%f32 in
        if fltb range (GUIDANCE_MIN_RANGE_CM / of_Z 100)%f32 then
          (0%Z, Some {| accel_x := of_Z 0; accel_y := of_Z 0;
                        accel_z := of_Z 0; intercept := true |})
        else
          let los_x := (rel_x / range)%f32 in
          let los_y := (rel_y / range)%f32 in
          let los_z := (rel_z / range)%f32 in
          let rel_vel_x := (- vel_x vehicle)%f32 in
          let rel_vel_y := (- vel_y vehicle)%f32 in
          let rel_vel_z := (- vel_z vehicle)%f32 in
          let closing_vel :=
            (los_x * rel_vel_x + los_y * rel_vel_y + los_z * rel_vel_z)%f32 in
          let los_rate_x := ((rel_vel_x - los_x * closing_vel) / range)%f32 in
          let los_rate_y := ((rel_vel_y - los_y * closing_vel) / range)%f32 in
          let los_rate_z := ((rel_vel_z - los_z * closing_vel) / range)%f32 in
          let accel_x := (GUIDANCE_N * closing_vel * los_rate_x)%f32 in
          let accel_y := (GUIDANCE_N * closing_vel * los_rate_y)%f32 in
          let accel_z := (GUIDANCE_N * closing_vel * los_rate_z)%f32 in
          let accel_mag :=
            sqrtf (accel_x * accel_x + accel_y * accel_y +
                   accel_z * accel_z)%f32 in
          if fgtb accel_mag GUIDANCE_MAX_ACCEL then
            let scale := (GUIDANCE_MAX_ACCEL / accel_mag)%f32 in
            (0%Z, Some {| accel_x := accel_x * scale;
                          accel_y := accel_y * scale;
                          accel_z := accel_z * scale;
                          intercept := false |})
          else
            (0%Z, Some {| accel_x := accel_x; accel_y := accel_y;
                          accel_z := accel_z; intercept := false |})
  | _, _, _ => ((-1)%Z, cmd)
  end.


(** *** The guidance law on vectors, in single precision *)

Definition vec : Type := float32_t * float32_t * float32_t.

Definition dot (a b : vec) : float32_t :=
  (a.1.1 * b.1.1 + a.1.2 * b.1.2 + a.2 * b.2)%f32.
Definition norm (a : vec) : float32_t := sqrtf (dot a a).

(** [a] with every component multiplied by [k]. *)
Definition scaled (a : vec) (k : float32_t) : vec :=
  ((a.1.1 * k)%f32, (a.1.2 * k)%f32, (a.2 * k)%f32).

(** Target position from its spherical coordinates, range in meters,
    minus the position of the vehicle. *)
Definition rel_pos (arm_cos_f32 arm_sin_f32 : float32_t -> float32_t)
    (v : vehicle_state_t) (t : target_info_t) : vec :=
  let r := (range_cm t / of_Z 100)%f32 in
  ((r * arm_cos_f32 (elevation_rad t) * arm_cos_f32 (azimuth_rad t) -
    pos_x v)%f32,
   (r * arm_cos_f32 (elevation_rad t) * arm_sin_f32 (azimuth_rad t) -
    pos_y v)%f32,
   (r * arm_sin_f32 (elevation_rad t) - pos_z v)%f32).

(** Proportional-navigation acceleration [N * closingVel * losRate]. *)
Definition pn_accel (arm_cos_f32 arm_sin_f32 : float32_t -> float32_t)
    (v : vehicle_state_t) (t : target_info_t) : vec :=
  let rel := rel_pos arm_cos_f32 arm_sin_f32 v t in
  let range := norm rel in
  let los : vec :=
    ((rel.1.1 / range)%f32, (rel.1.2 / range)%f32, (rel.2 / range)%f32) in
  let relVel : vec := ((- vel_x v)%f32, (- vel_y v)%f32, (- vel_z v)%f32) in
  let closingVel := dot los relVel in
  let losRate : vec :=
    (((relVel.1.1 - los.1.1 * closingVel) / range)%f32,
     ((relVel.1.2 - los.1.2 * closingVel) / range)%f32,
     ((relVel.2 - los.2 * closingVel) / range)%f32) in
  ((GUIDANCE_N * closingVel * losRate.1.1)%f32,
   (GUIDANCE_N * closingVel * losRate.1.2)%f32,
   (GUIDANCE_N * closingVel * losRate.2)%f32).

Definition accel_of (cmd : guidance_cmd_t) : vec :=
  (accel_x cmd, accel_y cmd, accel_z cmd).

(** A zero of either sign, or NaN. *)
Definition zero_or_nan (x : float32_t) : Prop :=
  match x with
  | S754_zero _ | S754_nan => True
  | _ => False
  end.

(** Stand-ins for [arm_cos_f32] and [arm_sin_f32] that give the values
    at angle 0, namely 1 and 0, and NaN everywhere else. *)
Definition cos_at_zero (x : float32_t) : float32_t :=
  match x with S754_zero _ => of_Z 1 | _ => S754_nan end.
Definition sin_at_zero (x : float32_t) : float32_t :=
  match x with S754_zero s => S754_zero s | _ => S754_nan end.

(** A vehicle at the origin flying at (-6, -6, 1) m/s and a target 1 m
    straight ahead. *)
Definition crossing_vehicle : vehicle_state_t :=
  {| pos_x := of_Z 0; pos_y := of_Z 0; pos_z := of_Z 0;
     vel_x := of_Z (-6); vel_y := of_Z (-6); vel_z := of_Z 1 |}.
Definition target_ahead : target_info_t :=
  {| range_cm := of_Z 100; azimuth_rad := of_Z 0; elevation_rad := of_Z 0;
     confidence := of_Z 1; valid := true |}.
Definition zero_cmd : guidance_cmd_t :=
  {| accel_x := of_Z 0; accel_y := of_Z 0; accel_z := of_Z 0;
     intercept := false |}.

(** *** guidance_to_motors in single precision *)

(** [a[i]] for an array of floats. *)
Definition rd (a : list float32_t) (i : Z) : float32_t :=
  nth (Z.to_nat i) a (of_Z 0).

(** One pass of the clamp loop of [guidance_to_motors]. *)
Definition clamp_motor (i : Z) (motor_thrust : list float32_t)
    : list float32_t :=
  let m1 :=
    if fltb (rd motor_thrust i) (of_Z 0)
    then <[Z.to_nat i := of_Z 0]> motor_thrust
    else motor_thrust in
  if fgtb (rd m1 i) (of_Z 1) then <[Z.to_nat i := of_Z 1]> m1 else m1.

(** [guidance_to_motors]: the contents of [motor_thrust] after the
    call. *)
Definition guidance_to_motors (cmd : option guidance_cmd_t)
    (motor_thrust : option (list float32_t)) : option (list float32_t) :=
  match cmd, motor_thrust with
  | Some cmd, Some motor_thrust =>
      let base_thrust := literal 1 2 in
      let m0 :=
        <[0%nat := (base_thrust + accel_x cmd * literal 1 4 +
                    accel_y cmd * literal 1 4 +
                    accel_z cmd * literal 1 4)%f32]> motor_thrust in
      let m1 :=
        <[1%nat := (base_thrust - accel_x cmd * literal 1 4 +
                    accel_y cmd * literal 1 4 +
                    accel_z cmd * literal 1 4)%f32]> m0 in
      let m2 :=
        <[2%nat := (base_thrust + accel_x cmd * literal 1 4 -
                    accel_y cmd * literal 1 4 +
                    accel_z cmd * literal 1 4)%f32]> m1 in
      let m3 :=
        <[3%nat := (base_thrust - accel_x cmd * literal 1 4 -
                    accel_y cmd * literal 1 4 +
                    accel_z cmd * literal 1 4)%f32]> m2 in
      Some (for_loop 4 0%Z clamp_motor m3)
  | _, _ => motor_thrust
  end.

(** The four mixed thrusts before clamping: front-left, front-right,
    rear-left, rear-right. *)
Definition motor_mix (cmd : guidance_cmd_t) : list float32_t :=
  [ (literal 1 2 + accel_x cmd * literal 1 4 + accel_y cmd * literal 1 4 +
     accel_z cmd * literal 1 4)%f32;
    (literal 1 2 - accel_x cmd * literal 1 4 + accel_y cmd * literal 1 4 +
     accel_z cmd * literal 1 4)%f32;
    (literal 1 2 + accel_x cmd * literal 1 4 - accel_y cmd * literal 1 4 +
     accel_z cmd * literal 1 4)%f32;
    (literal 1 2 - accel_x cmd * literal 1 4 - accel_y cmd * literal 1 4 +
     accel_z cmd * literal 1 4)%f32 ].

(** What the two tests of the clamp make of [x]: 0 below 0, 1 above 1,
    and [x] itself otherwise, NaN included. *)
Definition saturate (x : float32_t) : float32_t :=
  if fltb x (of_Z 0) then of_Z 0
  else if fgtb x (of_Z 1) then of_Z 1 else x.

End Binary32.

(** ** Greedy clustering as the design describes it

    Peaks are named by their position in the peak list.  [range] and
    [power] give the range and the power of the peak at a position. *)

(** A group of peaks: the positions of its members in the order they
    joined, the running mean of their ranges and the largest of their
    powers. *)
Record peak_group := {
  pg_members : list Z;
  pg_range : R;
  pg_power : R
}.

(** The group opened by the peak at position [i]. *)
Definition group_of (range power : Z -> R) (i : Z) : peak_group :=
  {| pg_members := [i]; pg_range := range i; pg_power := power i |}.

(** The group after the peak at position [j] joined: running weighted
    mean of the ranges, maximum of the powers. *)
Definition group_add (range power : Z -> R) (g : peak_group) (j : Z)
    : peak_group :=
  {| pg_members := pg_members g ++ [j];
     pg_range :=
       ((pg_range g * IZR (Z.of_nat (List.length (pg_members g))) + range j) /
        IZR (Z.of_nat (List.length (pg_members g)) + 1))%R;
     pg_power := Rmax (pg_power g) (power j) |}.

(** One pass over the later peaks that are still free, in order: a peak
    joins the group when its range is within 20 cm of the running mean
    the group has at that moment; the others stay free. *)
Fixpoint absorb (range power : Z -> R) (g : peak_group) (later : list Z)
    : peak_group * list Z :=
  match later with
  | [] => (g, [])
  | j :: rest =>
      if Rltb (Rabs (range j - pg_range g)) 20
      then absorb range power (group_add range power g j) rest
      else
        let '(g', free) := absorb range power g rest in
        (g', j :: free)
  end.

(** The groups formed from the free peaks, at most [cap] of them: the
    first free peak opens a group, the group absorbs from the later
    ones, and the rest is grouped in the same way. *)
Fixpoint greedy_groups (range power : Z -> R) (cap : nat) (free : list Z)
    : list peak_group :=
  match cap, free with
  | S cap', i :: later =>
      let '(g, free') := absorb range power (group_of range power i) later in
      g :: greedy_groups range power cap' free'
  | _, _ => []
  end.

(** A cluster of the array that holds the group [g]. *)
Definition holds_group (c : target_cluster_t) (g : peak_group) : Prop :=
  cl_range_cm c = pg_range g /\ cl_power c = pg_power g /\
  cl_sample_count c = Z.of_nat (List.length (pg_members g)).

(** The positions from [i] on whose [processed] flag is clear. *)
Definition free_from (processed : list bool) (i : Z) (n : nat) : list Z :=
  List.filter (fun j => negb (nth (Z.to_nat j) processed false)) (zrange i n).

(** Invariant of the outer loop of [signal_cluster_detections] against
    [greedy_groups]: the groups [formed] so far sit in the first cells of
    the array, every peak before [i] is taken, and grouping the peaks
    that are still free gives the groups that are still to come. *)
Definition greedy_inv (peaks : list Z) (num_peaks : Z)
    (signal : list float32_t) (sample_rate max_clusters : Z)
    (clusters0 : list target_cluster_t) (s : cluster_state)
    (formed : list peak_group) : Prop :=
  let range := fun j => round_trip_range (rdz peaks j) sample_rate in
  let power := fun j => fabsf (rd signal (rdz peaks j)) in
  (0 <= cs_i s <= num_peaks)%Z /\
  List.length (cs_processed s) = Z.to_nat num_peaks /\
  (forall k, (k < Z.to_nat (cs_i s))%nat ->
     nth k (cs_processed s) false = true) /\
  cs_num s = Z.of_nat (List.length formed) /\
  (cs_num s <= max_clusters)%Z /\
  List.length (cs_clusters s) = List.length clusters0 /\
  (forall c, (c < List.length formed)%nat ->
     holds_group (nth c (cs_clusters s) zero_cluster)
       (nth c formed (group_of range power 0))) /\
  (forall c, cl_azimuth_rad (nth c (cs_clusters s) zero_cluster) =
             cl_azimuth_rad (nth c clusters0 zero_cluster) /\
             cl_elevation_rad (nth c (cs_clusters s) zero_cluster) =
             cl_elevation_rad (nth c clusters0 zero_cluster)) /\
  greedy_groups range power (Z.to_nat max_clusters)
    (zrange 0 (Z.to_nat num_peaks)) =
  formed ++
  greedy_groups range power (Z.to_nat max_clusters - List.length formed)
    (free_from (cs_processed s) (cs_i s) (Z.to_nat (num_peaks - cs_i s))).

(** * Properties *)

(** ** Numeric model *)

Lemma Rltb_true a b : Rltb a b = true <-> (a < b)%R.
Proof. unfold Rltb. destruct (Rlt_dec a b); split; intros; try done. Qed.

Lemma Rltb_false a b : Rltb a b = false <-> (b <= a)%R.
Proof.
  unfold Rltb. destruct (Rlt_dec a b); split; intros; try done; lra.
Qed.

Lemma u32_id z : is_u32 z -> u32 z = z.
Proof. intros H. apply Z.mod_small. exact H. Qed.

(** Deciding comparisons between concrete reals, and evaluating
    closed machine-integer terms. *)
Ltac rsolve :=
  unfold fabsf, Rabs, SPEED_OF_SOUND, MIN_TARGET_SEPARATION_CM;
  repeat destruct (Rcase_abs _); lra.

Ltac rcmp :=
  repeat match goal with
  | |- context [Rltb ?a ?b] =>
      first
        [ replace (Rltb a b) with true
            by (symmetry; apply Rltb_true; rsolve)
        | replace (Rltb a b) with false
            by (symmetry; apply Rltb_false; rsolve) ]
  end.

Ltac zeval :=
  repeat match goal with
  | |- context [u32 ?z] =>
      let v := eval vm_compute in (u32 z) in change (u32 z) with v
  | |- context [rdz ?l ?i] =>
      let v := eval vm_compute in (rdz l i) in change (rdz l i) with v
  end.

(** ** signal_find_peaks *)

Section FindPeaks.
Variables (signal : list float32_t) (length : Z) (threshold : float32_t)
          (max_peaks : Z).
Hypothesis Hlen : (1 <= length < 2 ^ 32)%Z.
Hypothesis Hmax : is_u32 max_peaks.

Lemma reported_push peaks num_peaks i :
  (0 <= num_peaks)%Z -> (num_peaks < Z.of_nat (List.length peaks))%Z ->
  reported (<[Z.to_nat num_peaks := i]> peaks) (num_peaks + 1) =
  reported peaks num_peaks ++ [i].
Proof.
  intros H0 Hcap. unfold reported.
  replace (Z.to_nat (num_peaks + 1)) with (S (Z.to_nat num_peaks)) by lia.
  erewrite take_S_r.
  - rewrite take_insert_ge by lia. reflexivity.
  - apply list_lookup_insert_eq. lia.
Qed.

Lemma sorted_snoc (l : list Z) (i : Z) :
  StronglySorted Z.lt l -> Forall (fun p => (p < i)%Z) l ->
  StronglySorted Z.lt (l ++ [i]).
Proof.
  induction 1 as [|x l Hs IHs Hx]; intros Hall; simpl.
  - repeat constructor.
  - inversion Hall; subst. constructor.
    + apply IHs. assumption.
    + apply Forall_app. split; [exact Hx|]. repeat constructor. lia.
Qed.

(** The loop keeps the invariant, never changes the size of [peaks],
    and stops because its condition fails. *)
Lemma find_peaks_loop_inv n : forall i peaks num_peaks,
  (max_peaks <= Z.of_nat (List.length peaks))%Z ->
  peaks_inv signal length threshold max_peaks i peaks num_peaks ->
  (length - 1 - i <= Z.of_nat n)%Z ->
  let '(i', peaks', num') :=
    find_peaks_loop n signal length threshold max_peaks i peaks num_peaks in
  peaks_inv signal length threshold max_peaks i' peaks' num' /\
  List.length peaks' = List.length peaks /\
  ((i' <? u32 (length - 1))%Z && (num' <? max_peaks)%Z = false).
Proof using Hlen Hmax.
  assert (Hl1 : u32 (length - 1) = (length - 1)%Z) by (apply u32_id; red; lia).
  induction n as [|n IH]; intros i peaks num_peaks Hcap Hinv Hfuel; simpl.
  - split; [exact Hinv|split; [done|]].
    destruct Hinv as (Hi & Hn & _).
    rewrite Hl1. apply andb_false_iff. left. apply Z.ltb_ge. lia.
  - destruct ((i <? u32 (length - 1))%Z && (num_peaks <? max_peaks)%Z) eqn:Hc.
    2:{ split; [exact Hinv|split; [done|exact Hc]]. }
    apply andb_true_iff in Hc as [Hc1 Hc2].
    rewrite Hl1 in Hc1. apply Z.ltb_lt in Hc1. apply Z.ltb_lt in Hc2.
    destruct Hinv as (Hi & Hn & Hall & Hsort).
    red in Hmax.
    assert (Hi1 : u32 (i + 1) = (i + 1)%Z) by (apply u32_id; red; lia).
    assert (Hn1 : u32 (num_peaks + 1) = (num_peaks + 1)%Z)
      by (apply u32_id; red; lia).
    rewrite Hi1, Hn1.
    destruct (Rgtb (fabsf (rd signal i)) threshold &&
              Rgtb (fabsf (rd signal i)) (fabsf (rd signal (i - 1))) &&
              Rgtb (fabsf (rd signal i)) (fabsf (rd signal (i + 1)))) eqn:Hp.
    + apply andb_true_iff in Hp as [Hp Hp3].
      apply andb_true_iff in Hp as [Hp1 Hp2].
      apply Rltb_true in Hp1, Hp2, Hp3.
      specialize (IH (i + 1)%Z (<[Z.to_nat num_peaks := i]> peaks)
                    (num_peaks + 1)%Z).
      rewrite length_insert in IH.
      destruct (find_peaks_loop n signal length threshold max_peaks (i + 1)
                  (<[Z.to_nat num_peaks:=i]> peaks) (num_peaks + 1))
        as [[i' peaks'] num'].
      apply IH; [exact Hcap| |lia].
      unfold peaks_inv. rewrite reported_push; [|lia|lia].
      split; [lia|]. split; [lia|]. split.
      * apply Forall_app. split.
        -- eapply Forall_impl; [exact Hall|]. simpl. intros p [? ?].
           split; [lia|done].
        -- constructor; [|constructor]. split; [lia|]. red. lra.
      * apply sorted_snoc; [exact Hsort|].
        eapply Forall_impl; [exact Hall|]. simpl. intros p [? ?]. lia.
    + specialize (IH (i + 1)%Z peaks num_peaks).
      destruct (find_peaks_loop n signal length threshold max_peaks (i + 1)
                  peaks num_peaks) as [[i' peaks'] num'].
      apply IH; [exact Hcap| |lia].
      split; [lia|]. split; [lia|]. split; [|exact Hsort].
      eapply Forall_impl; [exact Hall|]. simpl. intros p [? ?].
      split; [lia|done].
Qed.

(** Once the loop condition fails, further iterations change nothing:
    the iteration bound is not what stops the loop. *)
Lemma find_peaks_loop_stable n m : forall i peaks num_peaks,
  (let '(i', _, num') :=
     find_peaks_loop n signal length threshold max_peaks i peaks num_peaks in
   (i' <? u32 (length - 1))%Z && (num' <? max_peaks)%Z = false) ->
  find_peaks_loop (n + m) signal length threshold max_peaks i peaks num_peaks =
  find_peaks_loop n signal length threshold max_peaks i peaks num_peaks.
Proof.
  induction n as [|n IH]; intros i peaks num_peaks; simpl.
  - intros Hc. destruct m; simpl; [done|]. rewrite Hc. done.
  - destruct ((i <? u32 (length - 1))%Z && (num_peaks <? max_peaks)%Z); [|done].
    destruct (Rgtb (fabsf (rd signal i)) threshold &&
              Rgtb (fabsf (rd signal i)) (fabsf (rd signal (i - 1))) &&
              Rgtb (fabsf (rd signal i)) (fabsf (rd signal (i + 1))));
      apply IH.
Qed.
End FindPeaks.

(** C10.  For a non-null signal of length at least 1 (and non-null output
    pointers, with [peaks] able to hold [max_peaks] entries)
    [signal_find_peaks] returns 0; the reported peak indices are strictly
    increasing, lie in the interior [1, length-2], are strict local
    maxima of the rectified signal above the threshold, and number at
    most [max_peaks].  The loop ends through its own condition: a larger
    iteration bound gives the same result. *)
Theorem signal_find_peaks_interior_sorted_capped
    (signal : list float32_t) (length : Z) (threshold : float32_t)
    (peaks : list Z) (max_peaks np0 : Z) :
  (1 <= length < 2 ^ 32)%Z ->
  is_u32 max_peaks ->
  (max_peaks <= Z.of_nat (List.length peaks))%Z ->
  exists peaks' num,
    signal_find_peaks (Some signal) length threshold (Some peaks) max_peaks
      (Some np0) = (0%Z, Some peaks', Some num) /\
    (0 <= num <= max_peaks)%Z /\
    List.length (reported peaks' num) = Z.to_nat num /\
    StronglySorted Z.lt (reported peaks' num) /\
    Forall (fun p => (1 <= p <= length - 2)%Z /\
                     strict_local_peak signal threshold p)
           (reported peaks' num) /\
    (forall m,
       find_peaks_loop (Z.to_nat length + m) signal length threshold max_peaks
         1 peaks 0 =
       find_peaks_loop (Z.to_nat length) signal length threshold max_peaks
         1 peaks 0).
Proof.
  intros Hlen Hmax Hcap. unfold signal_find_peaks.
  destruct (length =? 0)%Z eqn:E; [apply Z.eqb_eq in E; lia|].
  pose proof (find_peaks_loop_inv signal length threshold max_peaks Hlen Hmax
                (Z.to_nat length) 1%Z peaks 0%Z Hcap) as H.
  pose proof (find_peaks_loop_stable signal length threshold max_peaks
                (Z.to_nat length)) as Hst.
  destruct (find_peaks_loop (Z.to_nat length) signal length threshold
              max_peaks 1 peaks 0) as [[i' peaks'] num'] eqn:Hloop.
  destruct H as ((Hi & Hn & Hall & Hsort) & Hlen' & Hexit).
  { red in Hmax. repeat split; try lia; unfold reported; simpl; constructor. }
  { lia. }
  exists peaks', num'. split; [reflexivity|]. split; [exact Hn|].
  split; [|split; [exact Hsort|split]].
  - unfold reported. rewrite length_take. lia.
  - eapply Forall_impl; [exact Hall|]. simpl. intros p [? ?]. split; [lia|done].
  - intros m. rewrite <- Hloop. apply Hst. rewrite Hloop. exact Hexit.
Qed.

Lemma signal_find_peaks_interior_sorted_capped_witness :
  exists peaks' num,
    signal_find_peaks (Some [0; 5; 0]%R) 3 1 (Some [0; 0]%Z) 2 (Some 7%Z) =
      (0%Z, Some peaks', Some num) /\
    (0 <= num <= 2)%Z /\
    List.length (reported peaks' num) = Z.to_nat num /\
    StronglySorted Z.lt (reported peaks' num) /\
    Forall (fun p => (1 <= p <= 3 - 2)%Z /\
                     strict_local_peak [0; 5; 0]%R 1 p)
           (reported peaks' num) /\
    (forall m,
       find_peaks_loop (Z.to_nat 3 + m) [0; 5; 0]%R 3 1 2 1 [0; 0]%Z 0 =
       find_peaks_loop (Z.to_nat 3) [0; 5; 0]%R 3 1 2 1 [0; 0]%Z 0).
Proof.
  apply (signal_find_peaks_interior_sorted_capped [0; 5; 0]%R 3 1 [0; 0]%Z 2 7).
  - lia.
  - unfold is_u32. lia.
  - simpl. lia.
Defined.

(** On the signal 0, 5, 0 with threshold 1 the single interior sample is
    reported. *)
Example signal_find_peaks_example :
  signal_find_peaks (Some [0; 5; 0]%R) 3 1 (Some [0; 0]%Z) 2 (Some 7%Z) =
  (0%Z, Some [1; 0]%Z, Some 1%Z).
Proof.
  unfold signal_find_peaks. change (3 =? 0)%Z with false. cbv iota.
  change (Z.to_nat 3) with 3%nat. unfold find_peaks_loop. zeval.
  simpl Z.ltb. simpl andb. cbv iota zeta.
  unfold Rgtb, rd. simpl nth. rcmp. simpl. reflexivity.
Qed.

(** ** signal_cluster_detections *)

Section Clustering.
Variables (peaks : list Z) (num_peaks : Z) (signal : list float32_t)
          (sample_rate max_clusters : Z).

Local Abbreviation loop n := (cluster_loop n peaks num_peaks signal sample_rate max_clusters).
Local Abbreviation body := (cluster_outer_body peaks num_peaks signal sample_rate).

Lemma cluster_loop_exit n s :
  (cs_i s <? num_peaks)%Z && (cs_num s <? max_clusters)%Z = false ->
  loop n s = s.
Proof. intros H. destruct n; simpl; [done|]. rewrite H. done. Qed.

Lemma cluster_loop_step n s :
  (cs_i s <? num_peaks)%Z && (cs_num s <? max_clusters)%Z = true ->
  loop (S n) s = loop n (body s).
Proof. intros H. simpl. rewrite H. done. Qed.

Lemma cluster_loop_add n m : forall s, loop (n + m) s = loop m (loop n s).
Proof.
  induction n as [|n IH]; intros s; simpl; [done|].
  destruct ((cs_i s <? num_peaks)%Z && (cs_num s <? max_clusters)%Z) eqn:E.
  - apply IH.
  - symmetry. apply cluster_loop_exit. exact E.
Qed.

Lemma cluster_outer_body_num s :
  (0 <= cs_num s < max_clusters)%Z -> is_u32 max_clusters ->
  (cs_num s <= cs_num (body s) <= cs_num s + 1)%Z.
Proof.
  intros Hn Hmax. unfold cluster_outer_body.
  destruct (nth (Z.to_nat (cs_i s)) (cs_processed s) false); simpl; [lia|].
  destruct (for_loop _ _ _ _) as [c p]. simpl.
  rewrite u32_id; [lia|]. red in Hmax |- *. lia.
Qed.

Lemma cluster_loop_cap n : forall s,
  is_u32 max_clusters ->
  (0 <= cs_num s <= max_clusters)%Z ->
  (0 <= cs_num (loop n s) <= max_clusters)%Z.
Proof.
  induction n as [|n IH]; intros s Hmax Hn; simpl; [done|].
  destruct ((cs_i s <? num_peaks)%Z && (cs_num s <? max_clusters)%Z) eqn:E;
    [|done].
  apply andb_true_iff in E as [_ E]. apply Z.ltb_lt in E.
  apply IH; [done|].
  pose proof (cluster_outer_body_num s ltac:(lia) Hmax). lia.
Qed.

Lemma cluster_outer_body_i s :
  cs_i (body s) = u32 (cs_i s + 1).
Proof.
  unfold cluster_outer_body.
  destruct (nth (Z.to_nat (cs_i s)) (cs_processed s) false); [done|].
  destruct (for_loop _ _ _ _). done.
Qed.

(** The outer loop stops because its condition fails, not because the
    iteration bound is reached. *)
Lemma cluster_loop_exits n : forall s,
  is_u32 num_peaks ->
  (0 <= cs_i s)%Z -> (num_peaks - cs_i s <= Z.of_nat n)%Z ->
  (cs_i (loop n s) <? num_peaks)%Z &&
  (cs_num (loop n s) <? max_clusters)%Z = false.
Proof.
  induction n as [|n IH]; intros s Hnp Hi Hn; simpl.
  - apply andb_false_iff. left. apply Z.ltb_ge. lia.
  - destruct ((cs_i s <? num_peaks)%Z && (cs_num s <? max_clusters)%Z) eqn:E;
      [|exact E].
    apply andb_true_iff in E as [E _]. apply Z.ltb_lt in E.
    assert (Hi' : cs_i (body s) = (cs_i s + 1)%Z).
    { rewrite cluster_outer_body_i. apply u32_id. red in Hnp |- *. lia. }
    apply IH; [exact Hnp|lia|lia].
Qed.

Lemma nth_insert_true (l : list bool) (i j : nat) :
  nth j l false = true -> nth j (<[i := true]> l) false = true.
Proof.
  intros H. destruct (decide (i = j)) as [->|Hne].
  - rewrite nth_lookup. rewrite list_lookup_insert_eq; [done|].
    destruct (le_lt_dec (List.length l) j) as [Hge|Hlt]; [|exact Hlt].
    rewrite nth_overflow in H; [discriminate|exact Hge].
  - rewrite nth_lookup, list_lookup_insert_ne by exact Hne.
    rewrite <- nth_lookup. exact H.
Qed.

Lemma merge_loop_mono n : forall j0 c p k,
  nth k p false = true ->
  nth k (for_loop n j0 (cluster_merge_body peaks signal sample_rate)
           (c, p)).2 false = true.
Proof.
  induction n as [|n IH]; intros j0 c p k H; simpl; [exact H|].
  destruct (nth (Z.to_nat j0) p false); [apply IH; exact H|].
  destruct (Rltb _ _); apply IH; [apply nth_insert_true|]; exact H.
Qed.

Lemma cluster_outer_body_mono s k :
  nth k (cs_processed s) false = true ->
  nth k (cs_processed (body s)) false = true.
Proof.
  intros H. unfold cluster_outer_body.
  destruct (nth (Z.to_nat (cs_i s)) (cs_processed s) false); [exact H|].
  match goal with
  | |- context [for_loop ?n ?j ?b (?c, ?p)] =>
      pose proof (merge_loop_mono n j c p k (nth_insert_true _ _ _ H)) as Hm;
      destruct (for_loop n j b (c, p)) as [c' p']
  end.
  exact Hm.
Qed.

(** A [processed] flag, once set, stays set. *)
Lemma cluster_loop_mono n : forall s k,
  nth k (cs_processed s) false = true ->
  nth k (cs_processed (loop n s)) false = true.
Proof.
  induction n as [|n IH]; intros s k H; simpl; [exact H|].
  destruct (_ && _); [|exact H].
  apply IH, cluster_outer_body_mono, H.
Qed.
End Clustering.

Section TwoPeaks.
Variables (p0 p1 : Z) (signal : list float32_t) (sample_rate : Z)
          (clusters : list target_cluster_t) (max_clusters : Z).

Let r0 := round_trip_range p0 sample_rate.
Let r1 := round_trip_range p1 sample_rate.
Let run k := cluster_run k [p0; p1] 2 signal sample_rate clusters max_clusters.

Lemma two_peaks_run1 :
  (1 <= max_clusters)%Z ->
  run 1%nat =
  if Rltb (Rabs (r1 - r0)) 20 then
    {| cs_i := 1; cs_num := 1; cs_processed := [true; true];
       cs_clusters :=
         <[0%nat := merged (opened clusters 0 r0 (fabsf (rd signal p0)))
                      r1 (fabsf (rd signal p1))]> clusters |}
  else
    {| cs_i := 1; cs_num := 1; cs_processed := [true; false];
       cs_clusters :=
         <[0%nat := opened clusters 0 r0 (fabsf (rd signal p0))]> clusters |}.
Proof.
  intros Hmax. unfold run, cluster_run.
  rewrite cluster_loop_step.
  2:{ simpl. apply Z.ltb_lt. lia. }
  simpl cluster_loop. unfold cluster_outer_body, cluster_init. simpl.
  change (Rltb _ (IZR MIN_TARGET_SEPARATION_CM))
    with (Rltb (Rabs (r1 - r0)) 20).
  destruct (Rltb (Rabs (r1 - r0)) 20); reflexivity.
Qed.

Lemma two_peaks_merge :
  (Rabs (r1 - r0) < 20)%R -> (1 <= max_clusters)%Z ->
  same_cluster run 0 1 /\
  cs_num (run 2%nat) = 1%Z /\
  cs_clusters (run 2%nat) =
    <[0%nat := merged (opened clusters 0 r0 (fabsf (rd signal p0)))
                 r1 (fabsf (rd signal p1))]> clusters.
Proof.
  intros Hlt Hmax. pose proof (two_peaks_run1 Hmax) as H1.
  apply Rltb_true in Hlt. rewrite Hlt in H1.
  split.
  - exists 0%nat. unfold claimed_at. rewrite H1. repeat split.
  - change (run 2%nat) with
      (cluster_loop (1 + 1) [p0; p1] 2 signal sample_rate max_clusters
         (cluster_init 2 clusters)).
    rewrite cluster_loop_add.
    change (cluster_loop 1 [p0; p1] 2 signal sample_rate max_clusters
              (cluster_init 2 clusters)) with (run 1%nat).
    rewrite H1. simpl.
    destruct (1 <? max_clusters)%Z; simpl; split; reflexivity.
Qed.

Lemma two_peaks_distinct :
  (20 <= Rabs (r1 - r0))%R -> (2 <= max_clusters)%Z ->
  ~ same_cluster run 0 1 /\
  cs_num (run 2%nat) = 2%Z /\
  cs_clusters (run 2%nat) =
    <[1%nat := opened (<[0%nat := opened clusters 0 r0 (fabsf (rd signal p0))]>
                         clusters) 1 r1 (fabsf (rd signal p1))]>
      (<[0%nat := opened clusters 0 r0 (fabsf (rd signal p0))]> clusters).
Proof.
  intros Hge Hmax. pose proof (two_peaks_run1 ltac:(lia)) as H1.
  apply Rltb_false in Hge. rewrite Hge in H1.
  split.
  - intros [k [[Hk0 _] [_ Hk1]]].
    destruct k as [|k].
    + rewrite H1 in Hk1. simpl in Hk1. discriminate.
    + assert (Ht : nth (Z.to_nat 0) (cs_processed (run (S k))) false = true).
      { change (run (S k)) with
          (cluster_loop (1 + k) [p0; p1] 2 signal sample_rate max_clusters
             (cluster_init 2 clusters)).
        rewrite cluster_loop_add. apply cluster_loop_mono.
        change (cluster_loop 1 [p0; p1] 2 signal sample_rate max_clusters
                  (cluster_init 2 clusters)) with (run 1%nat).
        rewrite H1. reflexivity. }
      congruence.
  - change (run 2%nat) with
      (cluster_loop (1 + 1) [p0; p1] 2 signal sample_rate max_clusters
         (cluster_init 2 clusters)).
    rewrite cluster_loop_add.
    change (cluster_loop 1 [p0; p1] 2 signal sample_rate max_clusters
              (cluster_init 2 clusters)) with (run 1%nat).
    rewrite H1. simpl.
    replace (1 <? max_clusters)%Z with true by (symmetry; apply Z.ltb_lt; lia).
    unfold cluster_outer_body. simpl. split; reflexivity.
Qed.
End TwoPeaks.

Lemma three_peaks_run1 (signal : list R) :
  cs_processed (cluster_run 1 [100; 300; 500]%Z 3 signal 200000
                  (replicate 5 zero_cluster) 5) = [true; true; false].
Proof.
  unfold cluster_run. rewrite cluster_loop_step by reflexivity.
  simpl cluster_loop. unfold cluster_outer_body, cluster_init. simpl.
  zeval. rcmp. simpl. zeval. rcmp. reflexivity.
Qed.

Lemma clustering_pairwise_counterexample :
  (Rabs (round_trip_range 500 200000 - round_trip_range 300 200000) < 20)%R /\
  ~ same_cluster
      (fun k => cluster_run k [100; 300; 500]%Z 3 echo_signal 200000
                  (replicate 5 zero_cluster) 5) 1 2.
Proof.
  split.
  - unfold round_trip_range, SPEED_OF_SOUND, Rabs.
    destruct (Rcase_abs _); lra.
  - intros [k [[Hk1 _] [_ Hk2]]].
    destruct k as [|k].
    + rewrite three_peaks_run1 in Hk2. discriminate.
    + assert (Ht : nth (Z.to_nat 1)
                     (cs_processed
                        (cluster_run (1 + k) [100; 300; 500]%Z 3 echo_signal
                           200000 (replicate 5 zero_cluster) 5)) false = true).
      { unfold cluster_run. rewrite cluster_loop_add. apply cluster_loop_mono.
        fold (cluster_run 1 [100; 300; 500]%Z 3 echo_signal 200000
                (replicate 5 zero_cluster) 5).
        rewrite three_peaks_run1. reflexivity. }
      simpl plus in Ht. congruence.
Qed.

(** The other half fails as well: samples 100 and 420 are 27.44 cm apart
    and still end in one cluster, through the running mean of the
    cluster that sample 300 joined first. *)
Lemma clustering_far_peaks_merge :
  (Rabs (round_trip_range 420 200000 - round_trip_range 100 200000) > 20)%R /\
  same_cluster
    (fun k => cluster_run k [100; 300; 420]%Z 3 echo_signal 200000
                (replicate 5 zero_cluster) 5) 0 2.
Proof.
  split.
  - unfold round_trip_range. rsolve.
  - assert (H : forall signal,
              cs_processed (cluster_run 1 [100; 300; 420]%Z 3 signal 200000
                              (replicate 5 zero_cluster) 5) =
              [true; true; true]).
    { intros signal. unfold cluster_run.
      rewrite cluster_loop_step by reflexivity.
      simpl cluster_loop. unfold cluster_outer_body, cluster_init. simpl.
      zeval. rcmp. simpl. zeval. rcmp. reflexivity. }
    exists 0%nat. unfold claimed_at. rewrite H. repeat split.
Qed.

Lemma signal_cluster_detections_ok peaks num_peaks signal length sample_rate
    clusters max_clusters n0 :
  num_peaks <> 0%Z ->
  signal_cluster_detections true (Some peaks) num_peaks (Some signal) length
    sample_rate (Some clusters) max_clusters (Some n0) =
  (0%Z,
   Some (cs_clusters (cluster_run (Z.to_nat num_peaks) peaks num_peaks signal
                        sample_rate clusters max_clusters)),
   Some (cs_num (cluster_run (Z.to_nat num_peaks) peaks num_peaks signal
                   sample_rate clusters max_clusters))).
Proof.
  intros H. unfold signal_cluster_detections.
  destruct (num_peaks =? 0)%Z eqn:E; [apply Z.eqb_eq in E; done|].
  reflexivity.
Qed.

(** ** signal_cluster_detections against the greedy grouping *)

Section Greedy.
Variables (peaks : list Z) (num_peaks : Z) (signal : list float32_t)
          (sample_rate max_clusters : Z) (clusters0 : list target_cluster_t).
Hypothesis Hnp : is_u32 num_peaks.
Hypothesis Hmax : is_u32 max_clusters.
Hypothesis Hcap : (max_clusters <= Z.of_nat (List.length clusters0))%Z.

Local Abbreviation range := (fun j => round_trip_range (rdz peaks j) sample_rate).
Local Abbreviation power := (fun j => fabsf (rd signal (rdz peaks j))).

Lemma free_from_insert (processed : list bool) (k : Z) (i : Z) n :
  (0 <= k < i)%Z ->
  free_from (<[Z.to_nat k := true]> processed) i n = free_from processed i n.
Proof using Type.
  clear Hnp Hmax Hcap.
  intros Hk. unfold free_from. revert i Hk.
  induction n as [|n IH]; intros i Hk; [reflexivity|].
  cbn [zrange List.filter].
  rewrite (IH (i + 1)%Z) by lia.
  replace (nth (Z.to_nat i) (<[Z.to_nat k := true]> processed) false)
    with (nth (Z.to_nat i) processed false); [reflexivity|].
  rewrite !nth_lookup, list_lookup_insert_ne by lia. reflexivity.
Qed.

Lemma cluster_merge_body_eq (j : Z) (cluster : target_cluster_t)
    (processed : list bool) :
  cluster_merge_body peaks signal sample_rate j (cluster, processed) =
  if nth (Z.to_nat j) processed false then (cluster, processed)
  else if Rltb (Rabs (range j - cl_range_cm cluster)) 20
       then (merged cluster (range j) (power j),
             <[Z.to_nat j := true]> processed)
       else (cluster, processed).
Proof using Type. reflexivity. Qed.

(** The inner loop is one pass of [absorb] over the free later peaks. *)
Lemma merge_loop_absorb n : forall j0 cluster processed g,
  (0 <= j0)%Z ->
  (j0 + Z.of_nat n <= Z.of_nat (List.length processed))%Z ->
  holds_group cluster g ->
  (Z.of_nat (List.length (pg_members g)) + Z.of_nat n < 2 ^ 32)%Z ->
  let r := for_loop n j0 (cluster_merge_body peaks signal sample_rate)
             (cluster, processed) in
  let a := absorb range power g (free_from processed j0 n) in
  holds_group r.1 a.1 /\
  free_from r.2 j0 n = a.2 /\
  List.length r.2 = List.length processed /\
  (forall k, (k < Z.to_nat j0)%nat ->
     nth k r.2 false = nth k processed false) /\
  (Z.of_nat (List.length (pg_members a.1)) <=
   Z.of_nat (List.length (pg_members g)) + Z.of_nat n)%Z /\
  cl_azimuth_rad r.1 = cl_azimuth_rad cluster /\
  cl_elevation_rad r.1 = cl_elevation_rad cluster.
Proof using Type.
  clear Hnp Hmax Hcap.
  induction n as [|n IH]; intros j0 cluster processed g Hj0 Hlen Hg Hcnt;
    cbv zeta.
  - cbn [for_loop free_from zrange List.filter absorb fst snd].
    repeat split; try apply Hg; try reflexivity. lia.
  - cbn [for_loop]. unfold free_from. cbn [zrange List.filter].
    fold (free_from processed (j0 + 1) n).
    rewrite cluster_merge_body_eq.
    destruct (nth (Z.to_nat j0) processed false) eqn:Ep.
    + cbn [negb].
      destruct (IH (j0 + 1)%Z cluster processed g ltac:(lia) ltac:(lia) Hg
                  ltac:(lia)) as (I1 & I2 & I3 & I4 & I5 & I6 & I7).
      cbv zeta in I1, I2, I3, I4, I5, I6, I7.
      set (r := for_loop n (j0 + 1)%Z
                  (cluster_merge_body peaks signal sample_rate)
                  (cluster, processed)) in *.
      split; [exact I1|]. split; [|split; [exact I3|split; [|split; [lia|split; assumption]]]].
      * unfold free_from. cbn [zrange List.filter].
        rewrite (I4 (Z.to_nat j0)) by lia. rewrite Ep. cbn [negb].
        exact I2.
      * intros k Hk. apply I4. lia.
    + cbn [negb].
      destruct Hg as (Hg1 & Hg2 & Hg3).
      rewrite Hg1. cbn [absorb].
      destruct (Rltb (Rabs (range j0 - pg_range g)) 20) eqn:Et.
      * assert (Hg' : holds_group (merged cluster (range j0) (power j0))
                        (group_add range power g j0)).
        { unfold holds_group, group_add, merged.
          cbn [cl_range_cm cl_power cl_sample_count pg_range pg_power
               pg_members].
          rewrite Hg1, Hg2, Hg3, u32_id by (red; lia).
          rewrite length_app. cbn [List.length].
          split; [reflexivity|split; [reflexivity|lia]]. }
        assert (Hcnt' :
          (Z.of_nat (List.length (pg_members (group_add range power g j0))) +
           Z.of_nat n < 2 ^ 32)%Z).
        { unfold group_add. cbn [pg_members]. rewrite length_app.
          cbn [List.length]. lia. }
        match goal with
        | |- context [for_loop n (j0 + 1)%Z _ (?c, ?p)] =>
            destruct (IH (j0 + 1)%Z c p (group_add range power g j0)
                        ltac:(lia)
                        ltac:(rewrite length_insert; lia) Hg' Hcnt')
              as (I1 & I2 & I3 & I4 & I5 & I6 & I7);
            cbv zeta in I1, I2, I3, I4, I5, I6, I7;
            set (r := for_loop n (j0 + 1)%Z
                        (cluster_merge_body peaks signal sample_rate) (c, p))
              in *
        end.
        rewrite free_from_insert in I1, I2, I5 by lia.
        rewrite length_insert in I3.
        split; [exact I1|]. split; [|split; [exact I3|split; [|split; [|split; assumption]]]].
        -- unfold free_from. cbn [zrange List.filter].
           rewrite (I4 (Z.to_nat j0)) by lia.
           rewrite nth_lookup, list_lookup_insert_eq by lia.
           cbn [negb default from_option]. exact I2.
        -- intros k Hk. rewrite I4 by lia.
           rewrite !nth_lookup, list_lookup_insert_ne by lia. reflexivity.
        -- assert (Hl : List.length (pg_members (group_add range power g j0)) =
                        S (List.length (pg_members g))).
           { unfold group_add. cbn [pg_members]. rewrite length_app.
             cbn [List.length]. lia. }
           rewrite Hl in I5. lia.
      * destruct (IH (j0 + 1)%Z cluster processed g ltac:(lia) ltac:(lia)
                    (conj Hg1 (conj Hg2 Hg3)) ltac:(lia))
          as (I1 & I2 & I3 & I4 & I5 & I6 & I7).
        cbv zeta in I1, I2, I3, I4, I5, I6, I7.
        set (r := for_loop n (j0 + 1)%Z
                    (cluster_merge_body peaks signal sample_rate)
                    (cluster, processed)) in *.
        destruct (absorb range power g (free_from processed (j0 + 1) n))
          as [g' free] eqn:Ea.
        cbn [fst snd] in *.
        split; [exact I1|]. split; [|split; [exact I3|split; [|split; [lia|split; assumption]]]].
        -- unfold free_from. cbn [zrange List.filter].
           rewrite (I4 (Z.to_nat j0)) by lia. rewrite Ep. cbn [negb].
           f_equal. exact I2.
        -- intros k Hk. apply I4. lia.
Qed.

Lemma cluster_outer_body_eq (s : cluster_state) :
  nth (Z.to_nat (cs_i s)) (cs_processed s) false = false ->
  cluster_outer_body peaks num_peaks signal sample_rate s =
  let r :=
    for_loop (Z.to_nat (num_peaks - u32 (cs_i s + 1))) (u32 (cs_i s + 1))
      (cluster_merge_body peaks signal sample_rate)
      (opened (cs_clusters s) (cs_num s) (range (cs_i s)) (power (cs_i s)),
       <[Z.to_nat (cs_i s) := true]> (cs_processed s)) in
  {| cs_i := u32 (cs_i s + 1);
     cs_clusters := <[Z.to_nat (cs_num s) := r.1]> (cs_clusters s);
     cs_num := u32 (cs_num s + 1);
     cs_processed := r.2 |}.
Proof using Type.
  intros H. unfold cluster_outer_body. rewrite H. cbv zeta.
  change {| cl_range_cm := _; cl_azimuth_rad := _; cl_elevation_rad := _;
            cl_power := _; cl_sample_count := 1 |}
    with (opened (cs_clusters s) (cs_num s) (range (cs_i s))
            (power (cs_i s))).
  destruct (for_loop _ _ _ _) as [c p]. reflexivity.
Qed.

Lemma free_from_step (processed : list bool) (i : Z) :
  (0 <= i < num_peaks)%Z ->
  free_from processed i (Z.to_nat (num_peaks - i)) =
  (if nth (Z.to_nat i) processed false then [] else [i]) ++
  free_from processed (i + 1) (Z.to_nat (num_peaks - (i + 1))).
Proof using Type.
  clear Hnp Hmax Hcap. intros Hi.
  replace (Z.to_nat (num_peaks - i))
    with (S (Z.to_nat (num_peaks - (i + 1)))) by lia.
  unfold free_from. cbn [zrange List.filter].
  destruct (nth (Z.to_nat i) processed false); reflexivity.
Qed.

Lemma greedy_inv_step (s : cluster_state) (formed : list peak_group) :
  greedy_inv peaks num_peaks signal sample_rate max_clusters clusters0 s
    formed ->
  (cs_i s <? num_peaks)%Z && (cs_num s <? max_clusters)%Z = true ->
  exists formed',
    greedy_inv peaks num_peaks signal sample_rate max_clusters clusters0
      (cluster_outer_body peaks num_peaks signal sample_rate s) formed'.
Proof using Hnp Hmax Hcap.
  intros (Hi & Hlen & Hpre & Hnum & Hle & Hcl & Hhold & Hang & Hgr) Hcond.
  cbv zeta in Hhold, Hgr.
  apply andb_true_iff in Hcond as [Hc1 Hc2].
  apply Z.ltb_lt in Hc1. apply Z.ltb_lt in Hc2.
  assert (Hu : u32 (cs_i s + 1) = (cs_i s + 1)%Z).
  { apply u32_id. red in Hnp |- *. lia. }
  rewrite (free_from_step (cs_processed s) (cs_i s)) in Hgr by lia.
  destruct (nth (Z.to_nat (cs_i s)) (cs_processed s) false) eqn:Ep.
  - exists formed. unfold cluster_outer_body. rewrite Ep.
    unfold greedy_inv.
    cbn [cs_i cs_clusters cs_num cs_processed]. rewrite Hu.
    split; [lia|]. split; [exact Hlen|]. split.
    { intros k Hk. destruct (decide (k = Z.to_nat (cs_i s))) as [->|Hne];
        [exact Ep|apply Hpre; lia]. }
    split; [exact Hnum|]. split; [exact Hle|]. split; [exact Hcl|].
    split; [exact Hhold|]. split; [exact Hang|]. exact Hgr.
  - rewrite (cluster_outer_body_eq s Ep). cbv zeta. rewrite Hu.
    set (c0 := opened (cs_clusters s) (cs_num s) (range (cs_i s))
                 (power (cs_i s))).
    set (p0 := <[Z.to_nat (cs_i s) := true]> (cs_processed s)).
    set (n := Z.to_nat (num_peaks - (cs_i s + 1))).
    assert (Hg0 : holds_group c0 (group_of range power (cs_i s))).
    { split; [reflexivity|split; reflexivity]. }
    destruct (merge_loop_absorb n (cs_i s + 1)%Z c0 p0
                (group_of range power (cs_i s)) ltac:(lia)
                ltac:(unfold p0, n; rewrite length_insert, Hlen; lia)
                Hg0
                ltac:(unfold n, group_of; cbn [pg_members List.length];
                      red in Hnp; lia))
      as (I1 & I2 & I3 & I4 & I5 & I6 & I7).
    cbv zeta in I1, I2, I3, I4, I5, I6, I7.
    set (r := for_loop n (cs_i s + 1)%Z
                (cluster_merge_body peaks signal sample_rate) (c0, p0)) in *.
    unfold p0 in I1, I2, I5. rewrite free_from_insert in I1, I2, I5 by lia.
    fold n in Hgr.
    set (a := absorb range power (group_of range power (cs_i s))
                (free_from (cs_processed s) (cs_i s + 1) n)) in *.
    assert (Hcapn : (Z.to_nat max_clusters - List.length formed =
                     S (Z.to_nat max_clusters - List.length (formed ++ [a.1])))%nat).
    { rewrite length_app. cbn [List.length]. lia. }
    assert (Hslot : (Z.to_nat (cs_num s) < List.length (cs_clusters s))%nat)
      by (rewrite Hcl; lia).
    exists (formed ++ [a.1]). unfold greedy_inv.
    cbn [cs_i cs_clusters cs_num cs_processed].
    split; [lia|]. split; [rewrite I3; unfold p0; rewrite length_insert; exact Hlen|].
    split.
    { intros k Hk. rewrite I4 by lia. unfold p0.
      destruct (decide (k = Z.to_nat (cs_i s))) as [->|Hne].
      - rewrite nth_lookup, list_lookup_insert_eq by lia. reflexivity.
      - apply nth_insert_true. apply Hpre. lia. }
    split.
    { rewrite length_app. cbn [List.length]. rewrite u32_id; [lia|].
      red in Hmax |- *. lia. }
    split; [rewrite u32_id; [lia|red in Hmax |- *; lia]|].
    split; [rewrite length_insert; exact Hcl|].
    split.
    { intros c Hc. rewrite length_app in Hc. cbn [List.length] in Hc.
      destruct (decide (c = List.length formed)) as [->|Hne].
      - rewrite Hnum, Nat2Z.id.
        rewrite nth_lookup, list_lookup_insert_eq by lia.
        cbn [default from_option].
        rewrite app_nth2 by lia. rewrite Nat.sub_diag. exact I1.
      - rewrite nth_lookup, list_lookup_insert_ne by lia.
        rewrite <- nth_lookup. rewrite app_nth1 by lia.
        apply Hhold. lia. }
    split.
    { intros c. destruct (decide (c = Z.to_nat (cs_num s))) as [->|Hne].
      - rewrite nth_lookup, list_lookup_insert_eq by exact Hslot.
        split; [exact (eq_trans I6 (proj1 (Hang _)))
               |exact (eq_trans I7 (proj2 (Hang _)))].
      - rewrite nth_lookup, list_lookup_insert_ne by lia.
        rewrite <- nth_lookup. apply Hang. }
    rewrite Hgr. cbn [app]. rewrite Hcapn. cbn [greedy_groups].
    fold a. fold n. rewrite I2.
    destruct a as [g free]. cbn [fst snd].
    rewrite <- app_assoc. reflexivity.
Qed.
End Greedy.

Lemma free_from_replicate (N : nat) n : forall i,
  free_from (replicate N false) i n = zrange i n.
Proof.
  unfold free_from. induction n as [|n IH]; intros i; [reflexivity|].
  cbn [zrange List.filter].
  replace (nth (Z.to_nat i) (replicate N false) false) with false.
  - cbn [negb]. f_equal. apply IH.
  - destruct (le_lt_dec N (Z.to_nat i)) as [H|H].
    + rewrite nth_overflow; [reflexivity|]. rewrite length_replicate. exact H.
    + rewrite nth_lookup, lookup_replicate_2 by exact H. reflexivity.
Qed.

Lemma greedy_inv_init peaks num_peaks signal sample_rate max_clusters clusters0 :
  is_u32 num_peaks -> is_u32 max_clusters ->
  greedy_inv peaks num_peaks signal sample_rate max_clusters clusters0
    (cluster_init num_peaks clusters0) [].
Proof.
  intros Hnp Hmax. unfold greedy_inv, cluster_init.
  cbn [cs_i cs_clusters cs_num cs_processed List.length app].
  red in Hnp, Hmax.
  split; [lia|]. split; [apply length_replicate|].
  split; [intros k Hk; change (Z.to_nat 0) with O in Hk; lia|].
  split; [reflexivity|]. split; [lia|]. split; [reflexivity|].
  split; [intros c Hc; lia|]. split; [intros c; split; reflexivity|].
  rewrite Z.sub_0_r, Nat.sub_0_r, free_from_replicate. reflexivity.
Qed.

Lemma greedy_inv_loop peaks num_peaks signal sample_rate max_clusters
    clusters0 n :
  is_u32 num_peaks -> is_u32 max_clusters ->
  (max_clusters <= Z.of_nat (List.length clusters0))%Z ->
  forall s formed,
    greedy_inv peaks num_peaks signal sample_rate max_clusters clusters0 s
      formed ->
    exists formed',
      greedy_inv peaks num_peaks signal sample_rate max_clusters clusters0
        (cluster_loop n peaks num_peaks signal sample_rate max_clusters s)
        formed'.
Proof.
  intros Hnp Hmax Hcap. induction n as [|n IH]; intros s formed Hinv.
  - exists formed. exact Hinv.
  - cbn [cluster_loop].
    destruct ((cs_i s <? num_peaks)%Z && (cs_num s <? max_clusters)%Z) eqn:E.
    + destruct (greedy_inv_step peaks num_peaks signal sample_rate
                  max_clusters clusters0 Hnp Hmax Hcap s formed Hinv E)
        as [formed' Hinv'].
      exact (IH _ _ Hinv').
    + exists formed. exact Hinv.
Qed.

(** [signal_cluster_detections] computes [greedy_groups] of the whole
    peak list. *)
Lemma signal_cluster_detections_greedy
    (peaks : list Z) (num_peaks : Z) (signal : list float32_t)
    (length sample_rate : Z) (clusters : list target_cluster_t)
    (max_clusters n0 : Z) :
  is_u32 num_peaks -> num_peaks <> 0%Z -> is_u32 max_clusters ->
  (max_clusters <= Z.of_nat (List.length clusters))%Z ->
  let range := fun j => round_trip_range (rdz peaks j) sample_rate in
  let power := fun j => fabsf (rd signal (rdz peaks j)) in
  let groups :=
    greedy_groups range power (Z.to_nat max_clusters)
      (zrange 0 (Z.to_nat num_peaks)) in
  exists clusters',
    signal_cluster_detections true (Some peaks) num_peaks (Some signal)
      length sample_rate (Some clusters) max_clusters (Some n0) =
      (0%Z, Some clusters', Some (Z.of_nat (List.length groups))) /\
    List.length clusters' = List.length clusters /\
    (forall c, (c < List.length groups)%nat ->
       holds_group (nth c clusters' zero_cluster)
         (nth c groups (group_of range power 0))) /\
    (forall c, cl_azimuth_rad (nth c clusters' zero_cluster) =
               cl_azimuth_rad (nth c clusters zero_cluster) /\
               cl_elevation_rad (nth c clusters' zero_cluster) =
               cl_elevation_rad (nth c clusters zero_cluster)).
Proof.
  intros Hnp Hne Hmax Hcap range power groups.
  rewrite signal_cluster_detections_ok by exact Hne.
  destruct (greedy_inv_loop peaks num_peaks signal sample_rate max_clusters
              clusters (Z.to_nat num_peaks) Hnp Hmax Hcap _ _
              (greedy_inv_init peaks num_peaks signal sample_rate
                 max_clusters clusters Hnp Hmax))
    as [formed Hinv].
  fold (cluster_run (Z.to_nat num_peaks) peaks num_peaks signal sample_rate
          clusters max_clusters) in Hinv.
  pose proof (cluster_loop_exits peaks num_peaks signal sample_rate
                max_clusters (Z.to_nat num_peaks)
                (cluster_init num_peaks clusters) Hnp
                ltac:(cbn [cs_i cluster_init]; lia)
                ltac:(cbn [cs_i cluster_init]; red in Hnp; lia)) as Hexit.
  fold (cluster_run (Z.to_nat num_peaks) peaks num_peaks signal sample_rate
          clusters max_clusters) in Hexit.
  set (s := cluster_run (Z.to_nat num_peaks) peaks num_peaks signal
              sample_rate clusters max_clusters) in *.
  destruct Hinv as (Hi & Hlen & Hpre & Hnum & Hle & Hcl & Hhold & Hang & Hgr).
  cbv zeta in Hhold, Hgr. fold range power in Hhold, Hgr. fold groups in Hgr.
  assert (Hrest :
    greedy_groups range power (Z.to_nat max_clusters - List.length formed)
      (free_from (cs_processed s) (cs_i s)
         (Z.to_nat (num_peaks - cs_i s))) = []).
  { apply andb_false_iff in Hexit as [H|H]; apply Z.ltb_ge in H.
    - replace (Z.to_nat (num_peaks - cs_i s)) with O by lia.
      destruct (Z.to_nat max_clusters - List.length formed)%nat; reflexivity.
    - replace (Z.to_nat max_clusters - List.length formed)%nat with O by lia.
      reflexivity. }
  rewrite Hrest, app_nil_r in Hgr.
  exists (cs_clusters s). rewrite Hgr, Hnum.
  split; [reflexivity|]. split; [exact Hcl|]. split; [exact Hhold|exact Hang].
Qed.

(** A peak within 20 cm of the running mean joins. *)
Lemma absorb_join (range power : Z -> R) g j rest :
  (Rabs (range j - pg_range g) < 20)%R ->
  absorb range power g (j :: rest) =
  absorb range power (group_add range power g j) rest.
Proof. intros H. cbn [absorb]. apply Rltb_true in H. rewrite H. reflexivity. Qed.

(** Samples 100, 300 and 420 form one group through the running mean,
    although 100 and 420 are more than 20 cm apart. *)
Example greedy_groups_three_peaks :
  map pg_members
    (greedy_groups
       (fun j => round_trip_range (rdz [100; 300; 420]%Z j) 200000)
       (fun j => fabsf (rd echo_signal (rdz [100; 300; 420]%Z j))) 5
       (zrange 0 3)) = [[0; 1; 2]%Z].
Proof.
  cbn [zrange greedy_groups]. change (0 + 1)%Z with 1%Z.
  change (1 + 1)%Z with 2%Z.
  rewrite absorb_join.
  2:{ cbn [group_of pg_range]. unfold round_trip_range. zeval. rsolve. }
  rewrite absorb_join.
  2:{ cbn [group_of group_add pg_range pg_members List.length].
      change (Z.of_nat 1) with 1%Z. change (1 + 1)%Z with 2%Z.
      unfold round_trip_range. zeval. rsolve. }
  reflexivity.
Qed.

(** C7 (amended).  Each peak index is turned into a range by the
    round-trip formula.  In the inner loop an unprocessed later peak is
    merged exactly when its range is within 20 cm of the running mean
    range of the current cluster; the cluster range then becomes the
    running weighted mean and the cluster power the maximum seen.  The
    number of clusters never exceeds [max_clusters], and the outer loop
    ends through its own condition.  For an input of two
    peaks, ranges closer than 20 cm give one cluster holding both peaks,
    and ranges at least 20 cm apart give two clusters (when the cap
    allows two).  For every peak list the clusters reported are the
    groups of [greedy_groups] in order: the first free peak opens a
    cluster, the cluster takes, in one pass over all later free peaks,
    each one within 20 cm of the running mean it has at that moment,
    and the peaks left free are clustered in the same way, up to
    [max_clusters] clusters; range, power and sample count of each
    cluster are those of its group. *)
Theorem clustering_greedy_running_mean :
  (forall peaks signal sample_rate j cluster processed,
     nth (Z.to_nat j) processed false = false ->
     let range_j := round_trip_range (rdz peaks j) sample_rate in
     ((Rabs (range_j - cl_range_cm cluster) < 20)%R ->
      cluster_merge_body peaks signal sample_rate j (cluster, processed) =
        (merged cluster range_j (fabsf (rd signal (rdz peaks j))),
         <[Z.to_nat j := true]> processed)) /\
     (~ (Rabs (range_j - cl_range_cm cluster) < 20)%R ->
      cluster_merge_body peaks signal sample_rate j (cluster, processed) =
        (cluster, processed))) /\
  (forall peaks num_peaks signal length sample_rate clusters max_clusters n0,
     num_peaks <> 0%Z -> is_u32 num_peaks -> is_u32 max_clusters ->
     exists clusters' n,
       signal_cluster_detections true (Some peaks) num_peaks (Some signal)
         length sample_rate (Some clusters) max_clusters (Some n0) =
         (0%Z, Some clusters', Some n) /\
       (0 <= n <= max_clusters)%Z /\
       (forall m,
          cluster_run (Z.to_nat num_peaks + m) peaks num_peaks signal
            sample_rate clusters max_clusters =
          cluster_run (Z.to_nat num_peaks) peaks num_peaks signal
            sample_rate clusters max_clusters)) /\
  (forall p0 p1 signal length sample_rate clusters max_clusters n0,
     let r0 := round_trip_range p0 sample_rate in
     let r1 := round_trip_range p1 sample_rate in
     let run k :=
       cluster_run k [p0; p1] 2 signal sample_rate clusters max_clusters in
     let c0 := opened clusters 0 r0 (fabsf (rd signal p0)) in
     ((Rabs (r1 - r0) < 20)%R -> (1 <= max_clusters)%Z ->
      same_cluster run 0 1 /\
      signal_cluster_detections true (Some [p0; p1]) 2 (Some signal) length
        sample_rate (Some clusters) max_clusters (Some n0) =
        (0%Z,
         Some (<[0%nat := merged c0 r1 (fabsf (rd signal p1))]> clusters),
         Some 1%Z)) /\
     ((20 <= Rabs (r1 - r0))%R -> (2 <= max_clusters)%Z ->
      ~ same_cluster run 0 1 /\
      signal_cluster_detections true (Some [p0; p1]) 2 (Some signal) length
        sample_rate (Some clusters) max_clusters (Some n0) =
        (0%Z,
         Some (<[1%nat := opened (<[0%nat := c0]> clusters) 1 r1
                            (fabsf (rd signal p1))]>
                 (<[0%nat := c0]> clusters)),
         Some 2%Z))) /\
  (forall peaks num_peaks signal length sample_rate clusters max_clusters n0,
     is_u32 num_peaks -> num_peaks <> 0%Z -> is_u32 max_clusters ->
     (max_clusters <= Z.of_nat (List.length clusters))%Z ->
     let range := fun j => round_trip_range (rdz peaks j) sample_rate in
     let power := fun j => fabsf (rd signal (rdz peaks j)) in
     let groups :=
       greedy_groups range power (Z.to_nat max_clusters)
         (zrange 0 (Z.to_nat num_peaks)) in
     exists clusters',
       signal_cluster_detections true (Some peaks) num_peaks (Some signal)
         length sample_rate (Some clusters) max_clusters (Some n0) =
         (0%Z, Some clusters', Some (Z.of_nat (List.length groups))) /\
       List.length clusters' = List.length clusters /\
       (forall c, (c < List.length groups)%nat ->
          holds_group (nth c clusters' zero_cluster)
            (nth c groups (group_of range power 0))) /\
       (forall c, cl_azimuth_rad (nth c clusters' zero_cluster) =
                  cl_azimuth_rad (nth c clusters zero_cluster) /\
                  cl_elevation_rad (nth c clusters' zero_cluster) =
                  cl_elevation_rad (nth c clusters zero_cluster))).
Proof.
  split; [|split; [|split]]; [| | |exact signal_cluster_detections_greedy].
  - intros peaks signal sample_rate j cluster processed Hj range_j.
    unfold cluster_merge_body. rewrite Hj.
    change (Rltb _ (IZR MIN_TARGET_SEPARATION_CM))
      with (Rltb (Rabs (range_j - cl_range_cm cluster)) 20).
    split; intros H.
    + apply Rltb_true in H. rewrite H. reflexivity.
    + apply Rnot_lt_le, Rltb_false in H. rewrite H. reflexivity.
  - intros peaks num_peaks signal length sample_rate clusters max_clusters n0
           Hnp Hu Hmax.
    rewrite signal_cluster_detections_ok by exact Hnp.
    eexists _, _. split; [reflexivity|]. split.
    + apply cluster_loop_cap; [exact Hmax|]. simpl. red in Hmax. lia.
    + intros m. unfold cluster_run. rewrite cluster_loop_add.
      apply cluster_loop_exit, cluster_loop_exits; [exact Hu|simpl; lia|].
      simpl. red in Hu. lia.
  - intros p0 p1 signal length sample_rate clusters max_clusters n0
           r0 r1 run c0.
    split; intros Hr Hmax.
    + destruct (two_peaks_merge p0 p1 signal sample_rate clusters max_clusters
                  Hr Hmax) as (Hs & Hn & Hc).
      split; [exact Hs|].
      rewrite signal_cluster_detections_ok by lia.
      change (Z.to_nat 2) with 2%nat. rewrite Hn, Hc. reflexivity.
    + destruct (two_peaks_distinct p0 p1 signal sample_rate clusters
                  max_clusters Hr Hmax) as (Hs & Hn & Hc).
      split; [exact Hs|].
      rewrite signal_cluster_detections_ok by lia.
      change (Z.to_nat 2) with 2%nat. rewrite Hn, Hc. reflexivity.
Qed.

Lemma clustering_greedy_running_mean_witness :
  cluster_merge_body [100; 200]%Z echo_signal 200000 1
    (opened [] 0 (round_trip_range 100 200000) 1, [true; false]) =
    (merged (opened [] 0 (round_trip_range 100 200000) 1)
       (round_trip_range 200 200000) (fabsf (rd echo_signal 200)),
     [true; true]) /\
  (exists clusters' n,
     signal_cluster_detections true (Some [100; 200]%Z) 2 (Some echo_signal)
       600 200000
       (Some (replicate 5 zero_cluster)) 5 (Some 0%Z) =
       (0%Z, Some clusters', Some n) /\
     (0 <= n <= 5)%Z /\
     (forall m,
        cluster_run (Z.to_nat 2 + m) [100; 200]%Z 2 echo_signal 200000
          (replicate 5 zero_cluster) 5 =
        cluster_run (Z.to_nat 2) [100; 200]%Z 2 echo_signal 200000
          (replicate 5 zero_cluster) 5)) /\
  same_cluster
    (fun k => cluster_run k [100; 200]%Z 2 echo_signal 200000
                (replicate 5 zero_cluster) 5) 0 1 /\
  ~ same_cluster
      (fun k => cluster_run k [100; 500]%Z 2 echo_signal 200000
                  (replicate 5 zero_cluster) 5) 0 1 /\
  (let range := fun j => round_trip_range (rdz [100; 300; 420]%Z j) 200000 in
   let power := fun j => fabsf (rd echo_signal (rdz [100; 300; 420]%Z j)) in
   let groups := greedy_groups range power (Z.to_nat 5) (zrange 0 (Z.to_nat 3)) in
   exists clusters',
     signal_cluster_detections true (Some [100; 300; 420]%Z) 3
       (Some echo_signal) 600 200000 (Some (replicate 5 zero_cluster)) 5
       (Some 0%Z) =
       (0%Z, Some clusters', Some (Z.of_nat (List.length groups))) /\
     List.length clusters' = List.length (replicate 5 zero_cluster) /\
     (forall c, (c < List.length groups)%nat ->
        holds_group (nth c clusters' zero_cluster)
          (nth c groups (group_of range power 0))) /\
     (forall c, cl_azimuth_rad (nth c clusters' zero_cluster) =
                cl_azimuth_rad (nth c (replicate 5 zero_cluster) zero_cluster) /\
                cl_elevation_rad (nth c clusters' zero_cluster) =
                cl_elevation_rad
                  (nth c (replicate 5 zero_cluster) zero_cluster))).
Proof.
  destruct clustering_greedy_running_mean as (Hm & Hc & H & Hg).
  split; [|split; [|split; [|split]]].
  - apply (Hm [100; 200]%Z echo_signal 200000%Z 1%Z
             (opened [] 0 (round_trip_range 100 200000) 1) [true; false]).
    + reflexivity.
    + unfold round_trip_range, opened. cbn [cl_range_cm]. zeval. rsolve.
  - apply (Hc [100; 200]%Z 2%Z echo_signal 600%Z 200000%Z
             (replicate 5 zero_cluster) 5%Z 0%Z); unfold is_u32; lia.
  - apply (H 100%Z 200%Z echo_signal 600%Z 200000%Z
             (replicate 5 zero_cluster) 5%Z 0%Z).
    + unfold round_trip_range. rsolve.
    + lia.
  - apply (H 100%Z 500%Z echo_signal 600%Z 200000%Z
             (replicate 5 zero_cluster) 5%Z 0%Z).
    + unfold round_trip_range. rsolve.
    + lia.
  - apply (Hg [100; 300; 420]%Z 3%Z echo_signal 600%Z 200000%Z
             (replicate 5 zero_cluster) 5%Z 0%Z).
    + unfold is_u32. lia.
    + lia.
    + unfold is_u32. lia.
    + simpl. lia.
Defined.

(** ** signal_detect_multi_target *)

(** C8.  [signal_detect_multi_target] returns -1 (invalid argument) for a
    null or zero-length input signal and leaves the result untouched;
    for a non-empty signal on which peak finding over the adaptive
    threshold reports zero peaks it returns 0 with [num_targets = 0] and
    the result marked not valid. *)
Theorem signal_detect_multi_target_invalid_and_empty
    (calloc_ok : bool) (sample_rate : Z) :
  (forall length result,
     signal_detect_multi_target calloc_ok None length sample_rate result =
     ((-1)%Z, result)) /\
  (forall beamformed result,
     signal_detect_multi_target calloc_ok beamformed 0 sample_rate result =
     ((-1)%Z, result)) /\
  (forall sig length res peaks',
     length <> 0%Z ->
     signal_find_peaks (Some sig) length
       (arm_mean_f32 sig length +
        ADAPTIVE_THRESHOLD_FACTOR * arm_std_f32 sig length)%R
       (Some (replicate (Z.to_nat (MAX_TARGETS * 2)) 0%Z))
       (MAX_TARGETS * 2) (Some 0%Z) = (0%Z, Some peaks', Some 0%Z) ->
     signal_detect_multi_target calloc_ok (Some sig) length sample_rate
       (Some res) =
     (0%Z, Some {| targets := targets res; num_targets := 0;
                   mt_valid := false |})).
Proof.
  split; [|split].
  - intros length result. reflexivity.
  - intros [sig|] [res|]; reflexivity.
  - intros sig length res peaks' Hlen Hpeaks.
    unfold signal_detect_multi_target, signal_adaptive_threshold.
    destruct (length =? 0)%Z eqn:E; [apply Z.eqb_eq in E; done|].
    rewrite Hpeaks. reflexivity.
Qed.

Lemma signal_detect_multi_target_invalid_and_empty_witness :
  signal_detect_multi_target true (Some [1; 1; 1]%R) 3 200000
    (Some {| targets := replicate 5 zero_cluster; num_targets := 3;
             mt_valid := true |}) =
  (0%Z, Some {| targets := replicate 5 zero_cluster; num_targets := 0;
                mt_valid := false |}).
Proof.
  destruct (signal_detect_multi_target_invalid_and_empty true 200000)
    as (_ & _ & H).
  apply (H [1; 1; 1]%R 3%Z
           {| targets := replicate 5 zero_cluster; num_targets := 3;
              mt_valid := true |} (replicate 10 0%Z)); [lia|].
  unfold signal_find_peaks. change (3 =? 0)%Z with false. cbv iota.
  change (Z.to_nat 3) with 3%nat. unfold find_peaks_loop.
  zeval. change (Z.to_nat (MAX_TARGETS * 2)) with 10%nat.
  change (MAX_TARGETS * 2)%Z with 10%Z.
  simpl Z.ltb. simpl andb. cbv iota zeta.
  unfold Rgtb, rd. simpl nth.
  assert (Hstd : arm_std_f32 [1; 1; 1]%R 3 = 0%R).
  { unfold arm_std_f32, block, sqrtf. simpl.
    replace ((1 * 1 + (1 * 1 + (1 * 1 + 0)) -
              (1 + (1 + (1 + 0))) * (1 + (1 + (1 + 0))) / 3) / (3 - 1))%R
      with 0%R by lra.
    apply sqrt_0. }
  assert (Hmean : arm_mean_f32 [1; 1; 1]%R 3 = 1%R).
  { unfold arm_mean_f32, block. simpl. lra. }
  rewrite Hstd, Hmean. unfold ADAPTIVE_THRESHOLD_FACTOR.
  rcmp. reflexivity.
Defined.

(** ** sonar_get_target *)

(** C9.  When the stored estimate is invalid [sonar_get_target] returns a
    nonzero code and leaves the caller's structure as it was; it returns
    0 only when the stored estimate is valid, and then the caller's
    structure holds a copy of the stored estimate. *)
Theorem sonar_get_target_only_when_valid
    (st : sonar_state_t) (target_out : option target_info_t) :
  (valid (target st) = false ->
   exists rc, sonar_get_target (Some st) target_out = (rc, target_out) /\
              rc <> 0%Z) /\
  (forall state rc out,
     sonar_get_target state target_out = (rc, out) ->
     rc = 0%Z ->
     exists st' t0,
       state = Some st' /\ target_out = Some t0 /\
       valid (target st') = true /\ out = Some (target st')) /\
  (forall t0,
     valid (target st) = true ->
     sonar_get_target (Some st) (Some t0) = (0%Z, Some (target st))).
Proof.
  split; [|split].
  - intros Hv. unfold sonar_get_target. rewrite Hv.
    destruct target_out; eexists; (split; [reflexivity|lia]).
  - intros state rc out H Hrc. unfold sonar_get_target in H.
    destruct state as [st'|]; [|inversion H; lia].
    destruct target_out as [t0|]; [|inversion H; lia].
    destruct (valid (target st')) eqn:Hv; simpl in H; inversion H; subst;
      [|lia].
    exists st', t0. done.
  - intros t0 Hv. unfold sonar_get_target. rewrite Hv. reflexivity.
Qed.

Lemma sonar_get_target_only_when_valid_witness :
  exists rc,
    sonar_get_target (Some impulse_state) (Some (target impulse_state)) =
      (rc, Some (target impulse_state)) /\
    rc <> 0%Z.
Proof.
  destruct (sonar_get_target_only_when_valid impulse_state
              (Some (target impulse_state))) as (H & _ & _).
  apply H. reflexivity.
Defined.

(** ** Counted loops that update one array cell per iteration *)

Lemma for_loop_ext {St : Type} (b1 b2 : Z -> St -> St) n : forall j s,
  (forall k s', (j <= k)%Z -> b1 k s' = b2 k s') ->
  for_loop n j b1 s = for_loop n j b2 s.
Proof.
  induction n as [|n IH]; intros j s H; simpl; [done|].
  rewrite H by lia. apply IH. intros k s' Hk. apply H. lia.
Qed.

Section Pointwise.
Variable f : Z -> R -> R.

Lemma length_cell_update j l :
  List.length (cell_update f j l) = List.length l.
Proof. apply length_insert. Qed.

Lemma for_loop_cells n : forall j0 l,
  (0 <= j0)%Z ->
  let res := for_loop n j0 (cell_update f) l in
  List.length res = List.length l /\
  (forall k, (Z.to_nat j0 <= k < Z.to_nat j0 + n)%nat ->
             (k < List.length l)%nat ->
             nth k res 0%R = f (Z.of_nat k) (nth k l 0%R)) /\
  (forall k, ~ (Z.to_nat j0 <= k < Z.to_nat j0 + n)%nat ->
             nth k res 0%R = nth k l 0%R).
Proof.
  induction n as [|n IH]; intros j0 l Hj0; simpl.
  - split; [done|]. split; [intros; lia|done].
  - destruct (IH (j0 + 1)%Z (cell_update f j0 l) ltac:(lia)) as (Hl & Hin & Hout).
    rewrite length_cell_update in Hl.
    split; [exact Hl|]. split.
    + intros k Hk Hlen.
      destruct (decide (k = Z.to_nat j0)) as [->|Hne].
      * rewrite Hout by lia. unfold cell_update.
        rewrite nth_lookup, list_lookup_insert_eq by lia. simpl.
        unfold rd. f_equal. lia.
      * rewrite Hin.
        -- f_equal. unfold cell_update.
           rewrite nth_lookup, list_lookup_insert_ne by lia.
           rewrite <- nth_lookup. reflexivity.
        -- lia.
        -- rewrite length_cell_update. exact Hlen.
    + intros k Hk. rewrite Hout by lia. unfold cell_update.
      rewrite nth_lookup, list_lookup_insert_ne by lia.
      rewrite <- nth_lookup. reflexivity.
Qed.
End Pointwise.

(** ** sonar_generate_chirp *)

Lemma insert_rd_same (l : list R) (i : nat) (c : R) (g : R -> R) :
  <[i := g (nth i (<[i := c]> l) 0%R)]> (<[i := c]> l) = <[i := g c]> l.
Proof.
  destruct (le_lt_dec (List.length l) i) as [Hge|Hlt].
  - rewrite !list_insert_ge; try done. rewrite length_insert. done.
  - rewrite nth_lookup, list_lookup_insert_eq by exact Hlt. simpl.
    apply list_insert_insert_eq.
Qed.

Lemma sonar_generate_chirp_cells (chirp : list R) (length : Z) :
  (1 <= length < 2 ^ 32)%Z ->
  sonar_generate_chirp chirp length =
  for_loop (Z.to_nat length) 0%Z
    (cell_update (fun i _ => chirp_sample length i)) chirp.
Proof.
  intros Hlen. unfold sonar_generate_chirp. apply for_loop_ext.
  intros k l Hk. unfold cell_update, rd.
  rewrite (insert_rd_same l (Z.to_nat k) _ (fun x => (x * _)%R)).
  f_equal. unfold chirp_sample, arm_cos_f32.
  rewrite u32_id by (red; lia).
  f_equal. f_equal. f_equal. lra.
Qed.

(** C6.  For a length of at least 2 (within the buffer) every sample
    [i < length] of the generated chirp is
    [cos(2 pi (f0 t + 0.5 k t^2))] times the Hann window value
    [0.5 (1 - cos(2 pi i / (length - 1)))], with [t = i / sampleRate],
    [k = (f1 - f0) / duration], [duration = length / sampleRate]; the
    waveform has [length] samples and the buffer beyond it is untouched.
    The frequencies are the constants of [sonar.h], with [f1 > f0]. *)
Theorem sonar_generate_chirp_samples (chirp : list R) (length : Z) :
  (2 <= length < 2 ^ 32)%Z ->
  (length <= Z.of_nat (List.length chirp))%Z ->
  (SONAR_CHIRP_F0 < SONAR_CHIRP_F1)%Z /\
  List.length (block (sonar_generate_chirp chirp length) length) =
    Z.to_nat length /\
  (forall i, (0 <= i < length)%Z ->
     rd (sonar_generate_chirp chirp length) i = chirp_sample length i) /\
  (forall i, (length <= i)%Z ->
     rd (sonar_generate_chirp chirp length) i = rd chirp i).
Proof.
  intros Hlen Hcap.
  rewrite sonar_generate_chirp_cells by lia.
  destruct (for_loop_cells (fun i _ => chirp_sample length i)
              (Z.to_nat length) 0%Z chirp ltac:(lia)) as (Hl & Hin & Hout).
  cbv zeta in Hl, Hin, Hout.
  split; [reflexivity|]. split; [|split].
  - unfold block. rewrite length_take, Hl. lia.
  - intros i Hi. unfold rd. rewrite Hin by lia. f_equal. lia.
  - intros i Hi. unfold rd. apply Hout. lia.
Qed.

Lemma sonar_generate_chirp_samples_witness :
  rd (sonar_generate_chirp [7; 7; 7]%R 2) 1 = chirp_sample 2 1 /\
  rd (sonar_generate_chirp [7; 7; 7]%R 2) 2 = 7%R.
Proof.
  destruct (sonar_generate_chirp_samples [7; 7; 7]%R 2) as (_ & _ & Hs & Ht).
  - lia.
  - simpl. lia.
  - split.
    + apply Hs. lia.
    + apply (Ht 2%Z). lia.
Defined.

Lemma sonar_generate_chirp_one (x : R) (rest : list R) :
  sonar_generate_chirp (x :: rest) 1 = chirp_sample 1 0 :: rest.
Proof. rewrite sonar_generate_chirp_cells by lia. reflexivity. Qed.

(** C5 (amended).  [sonar_generate_chirp] has no failure path and tests
    none of its arguments: the frequencies are compile-time constants
    with [f0 < f1]; with [length = 0] the buffer is left as it was, and
    with [length = 1] only sample 0 of the buffer is written. *)
Theorem sonar_generate_chirp_unchecked (x : R) (rest : list R) :
  (SONAR_CHIRP_F0 < SONAR_CHIRP_F1)%Z /\
  sonar_generate_chirp (x :: rest) 0 = x :: rest /\
  sonar_generate_chirp [] 0 = [] /\
  (exists y, sonar_generate_chirp (x :: rest) 1 = y :: rest).
Proof.
  split; [reflexivity|]. split; [reflexivity|]. split; [reflexivity|].
  eexists. apply sonar_generate_chirp_one.
Qed.

Lemma chirp_sample_1_0 : chirp_sample 1 0 = 0%R.
Proof.
  unfold chirp_sample. change (1 - 1)%Z with 0%Z.
  replace (2 * PI * 0 / 0)%R with 0%R by (unfold Rdiv; ring).
  rewrite cos_0. ring.
Qed.

(** C5 as stated fails: with [length = 1] nothing is reported and the
    buffer is written. *)
Lemma sonar_generate_chirp_length1_writes :
  sonar_generate_chirp [7%R] 1 <> [7%R].
Proof.
  rewrite sonar_generate_chirp_one, chirp_sample_1_0.
  intros E. inversion E. lra.
Qed.

(** ** Truncation *)

Lemma Rtrunc_nonneg (x : R) (z : Z) :
  (IZR z <= x < IZR z + 1)%R -> (0 <= x)%R -> Rtrunc x = z.
Proof.
  intros Hz H0. unfold Rtrunc. destruct (Rle_dec 0 x); [|done].
  symmetry. apply Int_part_spec. lra.
Qed.

Lemma Rtrunc_0 : Rtrunc 0 = 0%Z.
Proof. apply Rtrunc_nonneg; simpl; lra. Qed.

(** [Rtrunc] drops the fractional part toward zero. *)
Lemma Rtrunc_toward_zero (x : R) :
  ((0 <= x -> IZR (Rtrunc x) <= x < IZR (Rtrunc x) + 1) /\
   (x < 0 -> IZR (Rtrunc x) - 1 < x <= IZR (Rtrunc x)))%R.
Proof.
  unfold Rtrunc. destruct (Rle_dec 0 x) as [H|H]; split; intros H'; try lra.
  - destruct (base_Int_part x). lra.
  - destruct (base_Int_part (- x)). rewrite opp_IZR. lra.
Qed.

(** ** sonar_beamform *)

Lemma for_loop_ext_range {St : Type} (b1 b2 : Z -> St -> St) n : forall j s,
  (forall k s', (j <= k < j + Z.of_nat n)%Z -> b1 k s' = b2 k s') ->
  for_loop n j b1 s = for_loop n j b2 s.
Proof.
  induction n as [|n IH]; intros j s H; simpl; [done|].
  rewrite H by lia. apply IH. intros k s' Hk. apply H. lia.
Qed.

Lemma insert_rd_id (l : list R) (i : nat) : <[i := nth i l 0%R]> l = l.
Proof.
  destruct (le_lt_dec (List.length l) i) as [Hge|Hlt].
  - apply list_insert_ge. exact Hge.
  - apply list_insert_id. rewrite nth_lookup.
    destruct (lookup_lt_is_Some_2 l i Hlt) as [x ->]. reflexivity.
Qed.

Lemma cells_len f n l :
  List.length (for_loop n 0%Z (cell_update f) l) = List.length l.
Proof. apply (for_loop_cells f n 0%Z l). lia. Qed.

Lemma cells_in f n l k :
  (k < n)%nat -> (k < List.length l)%nat ->
  nth k (for_loop n 0%Z (cell_update f) l) 0%R = f (Z.of_nat k) (nth k l 0%R).
Proof.
  intros Hk Hl. destruct (for_loop_cells f n 0%Z l ltac:(lia)) as (_ & Hin & _).
  apply Hin; [lia|exact Hl].
Qed.

Lemma cells_out f n l k :
  (n <= k)%nat ->
  nth k (for_loop n 0%Z (cell_update f) l) 0%R = nth k l 0%R.
Proof.
  intros Hk. destruct (for_loop_cells f n 0%Z l ltac:(lia)) as (_ & _ & Hout).
  apply Hout. lia.
Qed.

Lemma beamform_delays_rel (azimuth elevation : R) (i : Z) :
  (0 <= i < 4)%Z ->
  rd (beamform_delays azimuth elevation) i = rel_delay azimuth elevation i.
Proof.
  intros Hi.
  assert (i = 0 \/ i = 1 \/ i = 2 \/ i = 3)%Z as [ -> | [ -> | [ -> | -> ] ] ] by lia;
    reflexivity.
Qed.

Section Beamform.
Variables (st : sonar_state_t) (azimuth elevation : R).
Hypothesis HL : (0 <= sample_count st < 2 ^ 30)%Z.

Let L := sample_count st.
Let shift (i : Z) : Z :=
  Rtrunc (rd (beamform_delays azimuth elevation) i * IZR SONAR_SAMPLE_RATE).

Lemma memset_zero_cells (buf : list R) :
  memset_zero buf (u32 (L * 4)) =
  for_loop (Z.to_nat L) 0%Z (cell_update (fun _ _ => 0%R)) buf.
Proof using HL.
  unfold memset_zero. rewrite u32_id by (red; unfold L; lia).
  rewrite Z.div_mul by lia. reflexivity.
Qed.

Lemma delay_sum_body_cells (i : Z) (out : list R) :
  delay_sum_body (filtered_buffer st) L
    (beamform_delays azimuth elevation) i out =
  for_loop (Z.to_nat L) 0%Z
    (cell_update (fun j x => (x + channel_sample st i (j - shift i))%R)) out.
Proof using HL.
  unfold delay_sum_body. apply for_loop_ext_range.
  intros k s' Hk. unfold cell_update, channel_sample, s32_of_u32.
  fold L. fold (shift i).
  assert (E1 : (k <? 2 ^ 31)%Z = true) by (apply Z.ltb_lt; unfold L in *; lia).
  assert (E2 : (L <? 2 ^ 31)%Z = true) by (apply Z.ltb_lt; unfold L in *; lia).
  rewrite E1, E2.
  destruct ((0 <=? k - shift i)%Z && (k - shift i <? L)%Z); [reflexivity|].
  unfold rd. rewrite Rplus_0_r. symmetry. apply insert_rd_id.
Qed.


(** Cell [j] of the output buffer after [sonar_beamform]. *)
Lemma beamform_cell (j : Z) :
  (0 <= j < L)%Z ->
  (L <= Z.of_nat (List.length (beamformed_output st)))%Z ->
  rd (beamformed_output (beamform st azimuth elevation)) j =
  ((0 + channel_sample st 0 (j - shift 0) + channel_sample st 1 (j - shift 1) +
    channel_sample st 2 (j - shift 2) + channel_sample st 3 (j - shift 3)) *
   (1 / IZR NUM_MICS))%R.
Proof using HL.
  intros Hj Hcap. unfold beamform. cbn [beamformed_output set_beamformed_output].
  fold L. rewrite memset_zero_cells.
  change (Z.to_nat NUM_MICS) with 4%nat. cbn [for_loop].
  change (0 + 1)%Z with 1%Z. change (1 + 1)%Z with 2%Z.
  change (2 + 1)%Z with 3%Z.
  rewrite !delay_sum_body_cells.
  unfold arm_scale_f32.
  change (fun (n : Z) (dst : list R) =>
            <[Z.to_nat n := (rd dst n * (1 / IZR NUM_MICS))%R]> dst)
    with (cell_update (fun _ x => (x * (1 / IZR NUM_MICS))%R)).
  unfold rd at 1.
  rewrite !cells_in by (rewrite ?cells_len; lia).
  rewrite Z2Nat.id by lia. reflexivity.
Qed.

(** Cells from [L] on, and every other field, are left alone. *)
Lemma beamform_tail (k : nat) :
  (Z.to_nat L <= k)%nat ->
  nth k (beamformed_output (beamform st azimuth elevation)) 0%R =
  nth k (beamformed_output st) 0%R.
Proof using HL.
  intros Hk. unfold beamform. cbn [beamformed_output set_beamformed_output].
  fold L. rewrite memset_zero_cells.
  change (Z.to_nat NUM_MICS) with 4%nat. cbn [for_loop].
  rewrite !delay_sum_body_cells.
  unfold arm_scale_f32.
  change (fun (n : Z) (dst : list R) =>
            <[Z.to_nat n := (rd dst n * (1 / IZR NUM_MICS))%R]> dst)
    with (cell_update (fun _ x => (x * (1 / IZR NUM_MICS))%R)).
  rewrite !cells_out by lia. reflexivity.
Qed.
End Beamform.

Lemma beamform_output_spec (st : sonar_state_t) (azimuth elevation : R)
    (j : Z) :
  (0 <= sample_count st < 2 ^ 30)%Z ->
  (sample_count st <= Z.of_nat (List.length (beamformed_output st)))%Z ->
  (0 <= j < sample_count st)%Z ->
  rd (beamformed_output (beamform st azimuth elevation)) j =
  delay_and_sum Rtrunc st azimuth elevation j.
Proof.
  intros HL Hcap Hj. rewrite beamform_cell by assumption.
  rewrite !beamform_delays_rel by lia.
  unfold delay_and_sum, NUM_MICS. lra.
Qed.

(** C4 (amended).  The beamformer takes the delay of each channel
    relative to channel 0, so channel 0 is unshifted; it turns each
    relative delay into a sample shift by truncating [tau * sampleRate]
    toward zero; for each output index below [L] it sums the shifted
    sample of each channel, a shifted index outside [0, L) counting as
    zero, and divides by the number of channels.  Cells from [L] on are
    left alone. *)
Theorem beamform_delay_and_sum_truncating
    (st : sonar_state_t) (azimuth elevation : R) :
  (0 <= sample_count st < 2 ^ 30)%Z ->
  (sample_count st <= Z.of_nat (List.length (beamformed_output st)))%Z ->
  (forall i, (0 <= i < 4)%Z ->
     rd (beamform_delays azimuth elevation) i =
     rel_delay azimuth elevation i) /\
  Rtrunc (rel_delay azimuth elevation 0 * IZR SONAR_SAMPLE_RATE) = 0%Z /\
  (forall j, (0 <= j < sample_count st)%Z ->
     rd (beamformed_output (beamform st azimuth elevation)) j =
     delay_and_sum Rtrunc st azimuth elevation j) /\
  (forall j, (sample_count st <= j)%Z ->
     rd (beamformed_output (beamform st azimuth elevation)) j =
     rd (beamformed_output st) j) /\
  (forall x,
     (0 <= x -> IZR (Rtrunc x) <= x < IZR (Rtrunc x) + 1)%R /\
     (x < 0 -> IZR (Rtrunc x) - 1 < x <= IZR (Rtrunc x))%R).
Proof.
  intros HL Hcap. split; [|split; [|split; [|split]]].
  - apply beamform_delays_rel.
  - unfold rel_delay. rewrite Rminus_diag, Rmult_0_l. apply Rtrunc_0.
  - intros j Hj. apply beamform_output_spec; assumption.
  - intros j Hj. unfold rd. apply beamform_tail; [exact HL|lia].
  - apply Rtrunc_toward_zero.
Qed.

Lemma rel_delay_ahead_0 :
  (rel_delay 0 0 0 * IZR SONAR_SAMPLE_RATE = 0 /\
   rel_delay 0 0 1 * IZR SONAR_SAMPLE_RATE = 2000 / 343 /\
   rel_delay 0 0 2 * IZR SONAR_SAMPLE_RATE = 0 /\
   rel_delay 0 0 3 * IZR SONAR_SAMPLE_RATE = 2000 / 343)%R.
Proof.
  unfold rel_delay, tdoa, steering_vector, mic_positions, SPEED_OF_SOUND,
    SONAR_SAMPLE_RATE.
  change (Z.to_nat 0) with 0%nat. change (Z.to_nat 1) with 1%nat.
  change (Z.to_nat 2) with 2%nat. change (Z.to_nat 3) with 3%nat.
  cbn [nth fst snd]. rewrite cos_0, sin_0. repeat split; lra.
Qed.

Lemma beamform_delay_and_sum_truncating_witness :
  rd (beamformed_output (beamform impulse_state 0 0)) 5 =
  delay_and_sum Rtrunc impulse_state 0 0 5.
Proof.
  destruct (beamform_delay_and_sum_truncating impulse_state 0 0)
    as (_ & _ & H & _).
  - simpl. lia.
  - simpl. lia.
  - apply H. simpl. lia.
Defined.

(** C4 as stated fails: straight ahead, channel 1 lags by 5.83 samples;
    the code shifts it by 5 samples where rounding would shift by 6, and
    the output at index 5 differs. *)
Lemma beamform_shift_is_not_rounded :
  Rtrunc (rel_delay 0 0 1 * IZR SONAR_SAMPLE_RATE) = 5%Z /\
  round_nearest (rel_delay 0 0 1 * IZR SONAR_SAMPLE_RATE) = 6%Z /\
  rd (beamformed_output (beamform impulse_state 0 0)) 5 <>
  delay_and_sum round_nearest impulse_state 0 0 5.
Proof.
  destruct rel_delay_ahead_0 as (E0 & E1 & E2 & E3).
  assert (T0 : Rtrunc 0 = 0%Z) by apply Rtrunc_0.
  assert (T1 : Rtrunc (2000 / 343) = 5%Z) by (apply Rtrunc_nonneg; lra).
  assert (N0 : round_nearest 0 = 0%Z).
  { unfold round_nearest. destruct (Rle_dec 0 0); [|lra].
    symmetry. apply Int_part_spec. lra. }
  assert (N1 : round_nearest (2000 / 343) = 6%Z).
  { unfold round_nearest. destruct (Rle_dec 0 (2000 / 343)); [|lra].
    symmetry. apply Int_part_spec. lra. }
  rewrite E1. split; [exact T1|]. split; [exact N1|].
  rewrite beamform_output_spec by (simpl; lia).
  unfold delay_and_sum. rewrite E0, E1, E2, E3, T0, T1, N0, N1.
  unfold channel_sample, impulse_state, rd, NUM_MICS. simpl. lra.
Qed.

(** ** arm_max_f32 *)

Lemma arm_max_loop_first_max rest : forall pre out oi,
  first_max pre out oi ->
  let '(v, idx) := arm_max_loop rest (Z.of_nat (List.length pre)) out
                     (Z.of_nat oi) in
  exists i, idx = Z.of_nat i /\ first_max (pre ++ rest) v i.
Proof.
  induction rest as [|x rest IH]; intros pre out oi H; simpl.
  - exists oi. rewrite app_nil_r. done.
  - destruct H as (Hoi & Hv & Hle & Hlt).
    assert (Hpre : first_max (pre ++ [x])
                     (if Rltb out x then x else out)
                     (if Rltb out x then List.length pre else oi)).
    { destruct (Rltb out x) eqn:E.
      - apply Rltb_true in E. repeat split.
        + rewrite length_app. simpl. lia.
        + rewrite app_nth2 by lia. rewrite Nat.sub_diag. reflexivity.
        + intros j Hj. rewrite length_app in Hj. simpl in Hj.
          destruct (decide (j = List.length pre)) as [->|Hne].
          * rewrite app_nth2 by lia. rewrite Nat.sub_diag. simpl. lra.
          * rewrite app_nth1 by lia. specialize (Hle j ltac:(lia)). lra.
        + intros j Hj. rewrite app_nth1 by lia.
          specialize (Hle j ltac:(lia)). lra.
      - apply Rltb_false in E. repeat split.
        + rewrite length_app. simpl. lia.
        + rewrite app_nth1 by lia. exact Hv.
        + intros j Hj. rewrite length_app in Hj. simpl in Hj.
          destruct (decide (j = List.length pre)) as [->|Hne].
          * rewrite app_nth2 by lia. rewrite Nat.sub_diag. simpl. lra.
          * rewrite app_nth1 by lia. apply Hle. lia.
        + intros j Hj. rewrite app_nth1 by lia. apply Hlt. exact Hj. }
    specialize (IH (pre ++ [x])).
    rewrite length_app in IH. simpl in IH.
    replace (Z.of_nat (List.length pre + 1)) with
      (Z.of_nat (List.length pre) + 1)%Z in IH by lia.
    rewrite <- app_assoc in IH. simpl in IH.
    destruct (Rltb out x); apply IH; exact Hpre.
Qed.

(** On a non-empty block [arm_max_f32] returns the largest sample and
    the first index that holds it. *)
Lemma arm_max_f32_first_max (pSrc : list R) (blockSize : Z) :
  block pSrc blockSize <> [] ->
  exists i, (arm_max_f32 pSrc blockSize).2 = Z.of_nat i /\
            first_max (block pSrc blockSize) (arm_max_f32 pSrc blockSize).1 i.
Proof.
  intros Hne. unfold arm_max_f32.
  destruct (block pSrc blockSize) as [|x rest]; [done|].
  pose proof (arm_max_loop_first_max rest [x] x 0%nat) as H.
  change (Z.of_nat (List.length [x])) with 1%Z in H.
  change (Z.of_nat 0) with 0%Z in H.
  destruct (arm_max_loop rest 1 x 0) as [v idx]. simpl.
  apply H. repeat split; simpl.
  - lia.
  - intros j Hj. replace j with 0%nat by lia. lra.
  - intros j Hj. lia.
Qed.

(** ** Angular search *)

Lemma for_loop_S {St : Type} (body : Z -> St -> St) n j s :
  for_loop (S n) j body s = for_loop n (j + 1) body (body j s).
Proof. reflexivity. Qed.

Lemma flat_map_zrange_S {A : Type} (f : Z -> list A) j n :
  flat_map f (zrange j (S n)) = f j ++ flat_map f (zrange (j + 1) n).
Proof. reflexivity. Qed.

Lemma for_loop_fold {St : Type} (body : Z -> St -> St) n : forall j s,
  for_loop n j body s = fold_left (fun s k => body k s) (zrange j n) s.
Proof. induction n as [|n IH]; intros j s; simpl; [done|apply IH]. Qed.

Lemma length_beamform st azimuth elevation :
  List.length (beamformed_output (beamform st azimuth elevation)) =
  List.length (beamformed_output st).
Proof.
  unfold beamform. cbn [beamformed_output set_beamformed_output].
  unfold arm_scale_f32, memset_zero, delay_sum_body.
  assert (Hloop : forall (b : Z -> list R -> list R),
            (forall k l, List.length (b k l) = List.length l) ->
            forall n j l, List.length (for_loop n j b l) = List.length l).
  { intros b Hb n. induction n as [|n IH]; intros j l; simpl; [done|].
    rewrite IH. apply Hb. }
  assert (Hins : forall (l : list R) i x, List.length (<[i := x]> l) = List.length l)
    by (intros; apply length_insert).
  rewrite Hloop by (intros; apply Hins).
  rewrite Hloop.
  - apply Hloop. intros; apply Hins.
  - intros k l. apply Hloop. intros k' l'. destruct (_ && _); [apply Hins|done].
Qed.

Lemma same_input_beamform st azimuth elevation :
  same_input (beamform st azimuth elevation) st.
Proof.
  split; [reflexivity|]. split; [reflexivity|]. apply length_beamform.
Qed.

Lemma same_input_trans st1 st2 st3 :
  same_input st1 st2 -> same_input st2 st3 -> same_input st1 st3.
Proof. intros (?&?&?) (?&?&?). repeat split; congruence. Qed.

Lemma delay_and_sum_same_input q st1 st2 azimuth elevation j :
  same_input st1 st2 ->
  delay_and_sum q st1 azimuth elevation j =
  delay_and_sum q st2 azimuth elevation j.
Proof.
  intros (Hf & Hs & _). unfold delay_and_sum, channel_sample.
  rewrite Hf, Hs. reflexivity.
Qed.

Section Search.
Variable st : sonar_state_t.
Hypothesis HL : (0 <= sample_count st < 2 ^ 30)%Z.
Hypothesis Hcap :
  (sample_count st <= Z.of_nat (List.length (beamformed_output st)))%Z.

Lemma block_beamform_same_input st1 azimuth elevation :
  same_input st1 st ->
  block (beamformed_output (beamform st1 azimuth elevation)) (sample_count st1) =
  block (beamformed_output (beamform st azimuth elevation)) (sample_count st).
Proof using HL Hcap.
  intros Hs. pose proof Hs as (Hf & Hc & Hl). rewrite Hc.
  unfold block. apply nth_ext with (d := 0%R) (d' := 0%R).
  - rewrite !length_take, !length_beamform. lia.
  - intros k Hk. rewrite length_take, length_beamform in Hk.
    rewrite !nth_firstn.
    replace (k <? Z.to_nat (sample_count st))%nat with true
      by (symmetry; apply Nat.ltb_lt; lia).
    pose proof (beamform_output_spec st1 azimuth elevation (Z.of_nat k)) as H1.
    pose proof (beamform_output_spec st azimuth elevation (Z.of_nat k)) as H2.
    unfold rd in H1, H2. rewrite Nat2Z.id in H1, H2.
    rewrite H1, H2 by lia.
    apply delay_and_sum_same_input. exact Hs.
Qed.

Lemma scan_el_body_track azimuth e s :
  same_input (sc_state s) st ->
  best_of (scan_el_body azimuth e s) =
    track st (best_of s) (azimuth, grid_elevation e) /\
  same_input (sc_state (scan_el_body azimuth e s)) st.
Proof using HL Hcap.
  intros Hs. unfold scan_el_body, track, point_peak, best_of.
  cbv zeta. cbn [fst snd]. fold (grid_elevation e).
  assert (E : arm_max_f32
                (beamformed_output (beamform (sc_state s) azimuth (grid_elevation e)))
                (sample_count (beamform (sc_state s) azimuth (grid_elevation e))) =
              arm_max_f32
                (beamformed_output (beamform st azimuth (grid_elevation e)))
                (sample_count st)).
  { unfold arm_max_f32.
    change (sample_count (beamform (sc_state s) azimuth (grid_elevation e)))
      with (sample_count (sc_state s)).
    rewrite (block_beamform_same_input _ _ _ Hs). reflexivity. }
  rewrite E. clear E.
  destruct (arm_max_f32
              (beamformed_output (beamform st azimuth (grid_elevation e)))
              (sample_count st)) as [max_val max_idx].
  cbn [fst snd].
  assert (Hs' : same_input (beamform (sc_state s) azimuth (grid_elevation e)) st)
    by (eapply same_input_trans; [apply same_input_beamform|exact Hs]).
  destruct (Rgtb (fabsf max_val) (max_power s));
    cbn [max_power best_azimuth best_elevation best_peak_idx sc_state fst snd];
    split; done.
Qed.

Lemma el_loop_track azimuth n : forall e0 s,
  same_input (sc_state s) st ->
  best_of (for_loop n e0 (scan_el_body azimuth) s) =
    fold_left (track st)
      (map (fun e => (azimuth, grid_elevation e)) (zrange e0 n)) (best_of s) /\
  same_input (sc_state (for_loop n e0 (scan_el_body azimuth) s)) st.
Proof using HL Hcap.
  induction n as [|n IH]; intros e0 s Hs; simpl; [done|].
  destruct (scan_el_body_track azimuth e0 s Hs) as [Hb Hs'].
  rewrite <- Hb. apply IH. exact Hs'.
Qed.

Lemma scan_az_body_track a s :
  same_input (sc_state s) st ->
  best_of (scan_az_body a s) =
    fold_left (track st)
      (map (fun e => (grid_azimuth a, grid_elevation e))
           (indices BEAMFORM_ELEVATION_STEPS)) (best_of s) /\
  same_input (sc_state (scan_az_body a s)) st.
Proof using HL Hcap.
  unfold scan_az_body, indices, grid_azimuth. apply el_loop_track.
Qed.

Lemma az_loop_track n : forall a0 s,
  same_input (sc_state s) st ->
  best_of (for_loop n a0 scan_az_body s) =
    fold_left (track st)
      (flat_map
         (fun a => map (fun e => (grid_azimuth a, grid_elevation e))
                       (indices BEAMFORM_ELEVATION_STEPS))
         (zrange a0 n)) (best_of s) /\
  same_input (sc_state (for_loop n a0 scan_az_body s)) st.
Proof using HL Hcap.
  induction n as [|n IH]; intros a0 s Hs.
  - split; [reflexivity|exact Hs].
  - rewrite for_loop_S, flat_map_zrange_S, fold_left_app.
    destruct (scan_az_body_track a0 s Hs) as [Hb Hs'].
    destruct (IH (a0 + 1)%Z (scan_az_body a0 s) Hs') as [Hb2 Hs2].
    split; [|exact Hs2]. rewrite Hb2, Hb. reflexivity.
Qed.

Lemma angular_search_fold :
  best_of (angular_search st) =
  fold_left (track st) grid (0, 0, 0, 0%Z)%R.
Proof using HL Hcap.
  unfold angular_search, grid, indices. fold (scan_init st).
  change (0, 0, 0, 0%Z)%R with (best_of (scan_init st)).
  apply az_loop_track.
  split; [reflexivity|]. split; reflexivity.
Qed.

(** A strict-improvement scan keeps the first grid point of largest
    peak, or its starting value when no peak exceeds it. *)
Lemma fold_track_first_largest gs : forall b,
  (fold_left (track st) gs b = b /\
   forall g, In g gs -> ((point_peak st g).1 <= b.1.1.1)%R) \/
  (exists pre g post,
     gs = pre ++ g :: post /\
     fold_left (track st) gs b =
       ((point_peak st g).1, g.1, g.2, (point_peak st g).2) /\
     (b.1.1.1 < (point_peak st g).1)%R /\
     (forall g', In g' pre ->
        ((point_peak st g').1 < (point_peak st g).1)%R) /\
     (forall g', In g' post ->
        ((point_peak st g').1 <= (point_peak st g).1)%R)).
Proof using Type.
  induction gs as [|x gs IH]; intros b.
  - left. split; [reflexivity|]. intros g [].
  - change (fold_left (track st) (x :: gs) b)
      with (fold_left (track st) gs (track st b x)).
    destruct (Rgtb (point_peak st x).1 b.1.1.1) eqn:E.
    + assert (Ht : track st b x =
                   ((point_peak st x).1, x.1, x.2, (point_peak st x).2))
        by (unfold track; rewrite E; reflexivity).
      rewrite Ht. apply Rltb_true in E.
      destruct (IH ((point_peak st x).1, x.1, x.2, (point_peak st x).2))
        as [[Hr Hall]|(pre & g & post & Hgs & Hr & Hlt & Hpre & Hpost)].
      * right. exists [], x, gs. split; [reflexivity|].
        split; [exact Hr|]. split; [exact E|]. split; [intros g' []|].
        exact Hall.
      * right. exists (x :: pre), g, post. subst gs.
        split; [reflexivity|]. split; [exact Hr|].
        cbn [fst snd] in Hlt. split; [lra|]. split; [|exact Hpost].
        intros g' [<-|Hin]; [exact Hlt|apply Hpre, Hin].
    + assert (Ht : track st b x = b) by (unfold track; rewrite E; reflexivity).
      rewrite Ht. apply Rltb_false in E.
      destruct (IH b)
        as [[Hr Hall]|(pre & g & post & Hgs & Hr & Hlt & Hpre & Hpost)].
      * left. split; [exact Hr|].
        intros g [<-|Hin]; [exact E|apply Hall, Hin].
      * right. exists (x :: pre), g, post. subst gs.
        split; [reflexivity|]. split; [exact Hr|]. split; [exact Hlt|].
        split; [|exact Hpost].
        intros g' [<-|Hin]; [lra|apply Hpre, Hin].
Qed.
End Search.

(** What the search computes.  At each grid point it takes as the
    point's peak the absolute value of the largest signed sample of the
    beamformed output, with the index of its first occurrence.  The
    tracked best is the first grid point in scan order whose peak is
    largest over the grid, provided some peak is positive; otherwise the
    locals keep their initial zeros. *)
Theorem angular_search_first_largest_signed_peak (st : sonar_state_t) :
  (1 <= sample_count st < 2 ^ 30)%Z ->
  (sample_count st <= Z.of_nat (List.length (beamformed_output st)))%Z ->
  (forall azimuth e s,
     same_input (sc_state s) st ->
     best_of (scan_el_body azimuth e s) =
     track st (best_of s) (azimuth, grid_elevation e)) /\
  (forall g, exists v i,
     point_peak st g = (Rabs v, Z.of_nat i) /\
     first_max (block (beamformed_output (beamform st g.1 g.2))
                      (sample_count st)) v i) /\
  ((best_of (angular_search st) = (0, 0, 0, 0%Z)%R /\
    forall g, In g grid -> ((point_peak st g).1 <= 0)%R) \/
   (exists pre g post,
      grid = pre ++ g :: post /\
      best_of (angular_search st) =
        ((point_peak st g).1, g.1, g.2, (point_peak st g).2) /\
      (0 < (point_peak st g).1)%R /\
      (forall g', In g' pre ->
         ((point_peak st g').1 < (point_peak st g).1)%R) /\
      (forall g', In g' post ->
         ((point_peak st g').1 <= (point_peak st g).1)%R))).
Proof.
  intros HL Hcap.
  assert (HL' : (0 <= sample_count st < 2 ^ 30)%Z) by lia.
  split; [|split].
  - intros azimuth e s Hs. apply scan_el_body_track; assumption.
  - intros g. unfold point_peak.
    destruct (arm_max_f32_first_max
                (beamformed_output (beamform st g.1 g.2)) (sample_count st))
      as (i & Hi & Hmax).
    { intros E. apply (f_equal (@List.length R)) in E.
      unfold block in E. rewrite length_take, length_beamform in E.
      simpl in E. lia. }
    destruct (arm_max_f32 _ _) as [v idx]. simpl in Hi, Hmax.
    exists v, i. rewrite Hi. split; [reflexivity|exact Hmax].
  - rewrite (angular_search_fold st HL' Hcap).
    apply (fold_track_first_largest st grid (0, 0, 0, 0%Z)%R).
Qed.

Lemma angular_search_first_largest_signed_peak_witness :
  exists v i,
    point_peak impulse_state (0, 0)%R = (Rabs v, Z.of_nat i) /\
    first_max (block (beamformed_output (beamform impulse_state 0 0))
                     (sample_count impulse_state)) v i.
Proof.
  destruct (angular_search_first_largest_signed_peak impulse_state)
    as (_ & H & _).
  - simpl. lia.
  - simpl. lia.
  - apply (H (0, 0)%R).
Defined.

Lemma rd_of_nat (l : list R) (k : nat) : rd l (Z.of_nat k) = nth k l 0%R.
Proof. unfold rd. rewrite Nat2Z.id. reflexivity. Qed.

(** ** guidance_compute in single precision *)

(** Comparison of floats, with its arguments exchanged. *)
Lemma SFcompare_antisym (x y : spec_float) :
  SFcompare y x = option_map CompOpp (SFcompare x y).
Proof.
  destruct x as [sx|sx| |sx mx ex], y as [sy|sy| |sy my ey]; cbn [SFcompare option_map];
    try reflexivity;
    try (destruct sx; reflexivity); try (destruct sy; reflexivity);
    try (destruct sx, sy; reflexivity).
  destruct sx, sy; cbn [CompOpp]; try reflexivity.
  - rewrite (Z.compare_antisym ey ex).
    destruct (ey ?= ex)%Z; cbn [CompOpp]; try reflexivity.
    rewrite (Pos.compare_cont_antisym mx my Eq). reflexivity.
  - rewrite (Z.compare_antisym ey ex).
    destruct (ey ?= ex)%Z; cbn [CompOpp]; try reflexivity.
    rewrite (Pos.compare_cont_antisym mx my Eq). reflexivity.
Qed.

Lemma fgtb_false_le (x y : spec_float) :
  Binary32.fgtb x y = false ->
  Binary32.is_nan x = true \/ Binary32.is_nan y = true \/
  Binary32.fleb x y = true.
Proof.
  unfold Binary32.fgtb, Binary32.fleb, SFltb, SFleb.
  rewrite (SFcompare_antisym x y).
  destruct (SFcompare x y) as [c|] eqn:E.
  - destruct c; cbn; intros H; try discriminate; right; right; reflexivity.
  - intros _. destruct x, y; cbn in E; try discriminate;
      try (left; reflexivity); try (right; left; reflexivity);
      repeat match goal with s : bool |- _ => destruct s end; discriminate.
Qed.

Lemma GUIDANCE_MAX_ACCEL_bits :
  Binary32.GUIDANCE_MAX_ACCEL = S754_finite false 10286531 (-20).
Proof. vm_compute. reflexivity. Qed.

Lemma fmul_zero_r (x : spec_float) (s : bool) :
  Binary32.zero_or_nan (Binary32.fmul x (S754_zero s)).
Proof. destruct x; exact I. Qed.

(** [guidance_compute] on a valid target, in vector form. *)
Lemma guidance_compute_vector
    (arm_cos_f32 arm_sin_f32 : Binary32.float32_t -> Binary32.float32_t)
    (v : Binary32.vehicle_state_t) (t : Binary32.target_info_t)
    (c0 : Binary32.guidance_cmd_t) :
  Binary32.valid t = true ->
  Binary32.guidance_compute arm_cos_f32 arm_sin_f32 (Some v) (Some t)
    (Some c0) =
  let range := Binary32.norm (Binary32.rel_pos arm_cos_f32 arm_sin_f32 v t) in
  let pn := Binary32.pn_accel arm_cos_f32 arm_sin_f32 v t in
  let mag := Binary32.norm pn in
  if Binary32.fltb range
       (Binary32.fdiv Binary32.GUIDANCE_MIN_RANGE_CM (Binary32.of_Z 100))
  then (0%Z, Some {| Binary32.accel_x := Binary32.of_Z 0;
                     Binary32.accel_y := Binary32.of_Z 0;
                     Binary32.accel_z := Binary32.of_Z 0;
                     Binary32.intercept := true |})
  else
    let a := if Binary32.fgtb mag Binary32.GUIDANCE_MAX_ACCEL
             then Binary32.scaled pn
                    (Binary32.fdiv Binary32.GUIDANCE_MAX_ACCEL mag)
             else pn in
    (0%Z, Some {| Binary32.accel_x := a.1.1; Binary32.accel_y := a.1.2;
                  Binary32.accel_z := a.2; Binary32.intercept := false |}).
Proof.
  intros Hv. unfold Binary32.guidance_compute. rewrite Hv.
  cbv beta iota zeta delta
    [negb Binary32.norm Binary32.dot Binary32.rel_pos Binary32.pn_accel
     Binary32.scaled fst snd].
  destruct (Binary32.fltb _ _); [reflexivity|].
  destruct (Binary32.fgtb _ _); reflexivity.
Qed.


(** The command for [crossing_vehicle] and [target_ahead]. *)
Lemma crossing_command :
  Binary32.guidance_compute Binary32.cos_at_zero Binary32.sin_at_zero
    (Some Binary32.crossing_vehicle) (Some Binary32.target_ahead)
    (Some Binary32.zero_cmd) =
  (0%Z, Some {| Binary32.accel_x := S754_zero false;
                Binary32.accel_y := S754_finite false 10146572 (-20);
                Binary32.accel_z := S754_finite true 13528763 (-23);
                Binary32.intercept := false |}).
Proof. vm_compute. reflexivity. Qed.


(** When the squares overflow the direction is lost: at 10^10 m/s
    across the line of sight the acceleration before the clamp is
    about 3 * 10^20 along y, and the command emitted is zero. *)
Lemma guidance_clamp_overflow :
  Binary32.pn_accel Binary32.cos_at_zero Binary32.sin_at_zero
    {| Binary32.pos_x := Binary32.of_Z 0; Binary32.pos_y := Binary32.of_Z 0;
       Binary32.pos_z := Binary32.of_Z 0;
       Binary32.vel_x := Binary32.of_Z (10 ^ 10);
       Binary32.vel_y := Binary32.of_Z (10 ^ 10);
       Binary32.vel_z := Binary32.of_Z 0 |} Binary32.target_ahead =
    (S754_zero true, S754_finite false 8526513 45, S754_zero true) /\
  Binary32.guidance_compute Binary32.cos_at_zero Binary32.sin_at_zero
    (Some {| Binary32.pos_x := Binary32.of_Z 0;
             Binary32.pos_y := Binary32.of_Z 0;
             Binary32.pos_z := Binary32.of_Z 0;
             Binary32.vel_x := Binary32.of_Z (10 ^ 10);
             Binary32.vel_y := Binary32.of_Z (10 ^ 10);
             Binary32.vel_z := Binary32.of_Z 0 |})
    (Some Binary32.target_ahead) (Some Binary32.zero_cmd) =
  (0%Z, Some {| Binary32.accel_x := S754_zero true;
                Binary32.accel_y := S754_zero false;
                Binary32.accel_z := S754_zero true;
                Binary32.intercept := false |}).
Proof. split; vm_compute; reflexivity. Qed.


(** ** sonar_detect_target *)

Section Detect.
Variable arm_correlate_f32 :
  list R -> Z -> list R -> Z -> list R -> list R.

Lemma detect_decide_cases (s : scan_state) :
  let range :=
    (IZR (best_peak_idx s) / IZR SONAR_SAMPLE_RATE * SPEED_OF_SOUND * 100 / 2)%R in
  let no_target :=
    (max_power s < DETECTION_THRESHOLD \/ range < IZR MIN_RANGE_CM \/
     range > IZR MAX_RANGE_CM)%R in
  (no_target ->
   ((detect_decide s).1 = (-2)%Z \/ (detect_decide s).1 = (-3)%Z) /\
   valid (target (detect_decide s).2) = false) /\
  (~ no_target ->
   (detect_decide s).1 = 0%Z /\
   target (detect_decide s).2 =
     {| range_cm := range;
        azimuth_rad := best_azimuth s;
        elevation_rad := best_elevation s;
        confidence := Rmin (max_power s / (DETECTION_THRESHOLD * 10)) 1;
        valid := true |}).
Proof using Type.
  cbv zeta. unfold detect_decide, Rgtb.
  destruct (Rltb (max_power s) DETECTION_THRESHOLD) eqn:E1.
  { apply Rltb_true in E1. split; [intros _; split; [left|]; reflexivity|].
    intros H. exfalso. apply H. left. exact E1. }
  apply Rltb_false in E1.
  destruct (Rltb _ (IZR MIN_RANGE_CM)) eqn:E2.
  { apply Rltb_true in E2. split; [intros _; split; [right|]; reflexivity|].
    intros H. exfalso. apply H. right. left. exact E2. }
  apply Rltb_false in E2.
  destruct (Rltb (IZR MAX_RANGE_CM) _) eqn:E3.
  { apply Rltb_true in E3. split; [intros _; split; [right|]; reflexivity|].
    intros H. exfalso. apply H. right. right. exact E3. }
  apply Rltb_false in E3. cbn [orb fst snd].
  split; [|intros _; split; reflexivity].
  intros [H|[H|H]]; lra.
Qed.

(** C2.  After the angular search [sonar_detect_target] reports no
    target (nonzero return code, target marked invalid, and the main
    loop issues no guidance) exactly when the best peak is below the
    detection threshold or the round-trip range
    [(peakIndex / sampleRate) * speedOfSound * 100 / 2] lies outside
    [minRange, maxRange]; otherwise it returns 0 and stores that
    range, the best azimuth and elevation, the confidence
    [min(peak / (threshold * 10), 1)] and the valid flag. *)
Theorem sonar_detect_target_no_target_iff
    (st : sonar_state_t) (vehicle : vehicle_state_t)
    (cmd : guidance_cmd_t) (target_local : target_info_t) :
  let s :=
    angular_search
      (for_loop (Z.to_nat NUM_MICS) 0%Z
         (fun i st => matched_filter_mic arm_correlate_f32 st i) st) in
  let range :=
    (IZR (best_peak_idx s) / IZR SONAR_SAMPLE_RATE * SPEED_OF_SOUND * 100 / 2)%R in
  let no_target :=
    (max_power s < DETECTION_THRESHOLD \/ range < IZR MIN_RANGE_CM \/
     range > IZR MAX_RANGE_CM)%R in
  exists rc st',
    sonar_detect_target arm_correlate_f32 (Some st) = (rc, Some st') /\
    (no_target <-> rc <> 0%Z) /\
    (no_target ->
     valid (target st') = false /\
     process_cycle arm_correlate_f32 st vehicle cmd target_local =
       (st', cmd, false)) /\
    (~ no_target ->
     target st' =
       {| range_cm := range;
          azimuth_rad := best_azimuth s;
          elevation_rad := best_elevation s;
          confidence := Rmin (max_power s / (DETECTION_THRESHOLD * 10)) 1;
          valid := true |}).
Proof using Type.
  intros s range no_target.
  destruct (detect_decide_cases s) as [Hno Hyes].
  fold range in Hno, Hyes. fold no_target in Hno, Hyes.
  unfold process_cycle, sonar_detect_target. fold s.
  destruct (detect_decide s) as [rc st'] eqn:Hd. cbn [fst snd] in Hno, Hyes.
  exists rc, st'. split; [reflexivity|].
  destruct (Rlt_dec (max_power s) DETECTION_THRESHOLD) as [H1|H1];
    [|destruct (Rlt_dec range (IZR MIN_RANGE_CM)) as [H2|H2];
      [|destruct (Rgt_dec range (IZR MAX_RANGE_CM)) as [H3|H3]]].
  1-3: assert (Hn : no_target) by (unfold no_target; tauto);
       destruct (Hno Hn) as [[-> | ->] Hv];
       (split; [split; [lia|intros _; exact Hn]|]);
       (split; [intros _; split; [exact Hv|reflexivity]|intros Hc; tauto]).
  assert (Hn : ~ no_target) by (unfold no_target; tauto).
  destruct (Hyes Hn) as [-> Ht].
  split; [split; [tauto|lia]|]. split; [tauto|intros _; exact Ht].
Qed.
End Detect.

(** A scan that ends with peak 2000 at sample 2332 gives a valid target
    near 200 cm with confidence 0.2. *)
Example detect_decide_example (st : sonar_state_t) :
  let s := {| sc_state := st; max_power := 2000; best_azimuth := 0;
              best_elevation := 0; best_peak_idx := 2332 |} in
  (detect_decide s).1 = 0%Z /\
  range_cm (target (detect_decide s).2) = (2332 / 200000 * 343 * 100 / 2)%R /\
  confidence (target (detect_decide s).2) = 0.2%R /\
  valid (target (detect_decide s).2) = true.
Proof.
  cbv zeta.
  destruct (detect_decide_cases
              {| sc_state := st; max_power := 2000; best_azimuth := 0;
                 best_elevation := 0; best_peak_idx := 2332 |}) as [_ H].
  cbn [max_power best_peak_idx best_azimuth best_elevation] in H.
  destruct H as [H1 H2].
  { unfold DETECTION_THRESHOLD, SONAR_SAMPLE_RATE, SPEED_OF_SOUND,
      MIN_RANGE_CM, MAX_RANGE_CM. lra. }
  rewrite H1, H2. cbn [range_cm confidence valid].
  split; [reflexivity|]. split; [reflexivity|]. split; [|reflexivity].
  unfold DETECTION_THRESHOLD. rewrite Rmin_left; lra.
Qed.

(** ** The search on a signal whose strongest echo is negative *)

Lemma first_max_unique (l : list R) v1 i1 v2 i2 :
  first_max l v1 i1 -> first_max l v2 i2 -> v1 = v2 /\ i1 = i2.
Proof.
  intros (Hi1 & Hv1 & Hle1 & Hlt1) (Hi2 & Hv2 & Hle2 & Hlt2).
  assert (Hv : v1 = v2).
  { pose proof (Hle1 i2 Hi2). pose proof (Hle2 i1 Hi1). lra. }
  split; [exact Hv|].
  destruct (lt_eq_lt_dec i1 i2) as [[H|H]|H]; [|exact H|].
  - pose proof (Hlt2 i1 H). lra.
  - pose proof (Hlt1 i2 H). lra.
Qed.

Lemma rd_replicate_0 (n : nat) (k : Z) : rd (replicate n 0%R) k = 0%R.
Proof.
  unfold rd. generalize (Z.to_nat k). clear k.
  induction n as [|n IH]; intros [|k]; simpl; auto.
Qed.

Lemma nth_spike_channel (k : nat) :
  (k < 400)%nat -> nth k spike_channel 0%R = spike_sample k.
Proof.
  intros Hk. unfold spike_channel.
  rewrite (nth_indep _ 0%R (spike_sample 0)) by (rewrite length_map, length_seq; exact Hk).
  rewrite map_nth. rewrite seq_nth by exact Hk. reflexivity.
Qed.

Lemma length_spike_channel : List.length spike_channel = 400%nat.
Proof. unfold spike_channel. rewrite length_map, length_seq. reflexivity. Qed.

Lemma spike_state_ok :
  (0 <= sample_count spike_state < 2 ^ 30)%Z /\
  (sample_count spike_state <=
   Z.of_nat (List.length (beamformed_output spike_state)))%Z.
Proof.
  change (sample_count spike_state) with 400%Z.
  change (beamformed_output spike_state) with (replicate 400 0%R).
  rewrite length_replicate. change (Z.of_nat 400) with 400%Z. lia.
Qed.

(** Whatever the steering direction, the output is channel 0 divided by
    four: channel 0 is the unshifted reference and the others are
    silent. *)
Lemma spike_output (azimuth elevation : R) (k : nat) :
  (k < 400)%nat ->
  nth k (beamformed_output (beamform spike_state azimuth elevation)) 0%R =
  (spike_sample k / 4)%R.
Proof.
  intros Hk. destruct spike_state_ok as [HL Hcap].
  rewrite <- rd_of_nat.
  rewrite beamform_output_spec;
    [|exact HL|exact Hcap|change (sample_count spike_state) with 400%Z; lia].
  unfold delay_and_sum.
  assert (H0 : Rtrunc (rel_delay azimuth elevation 0 * IZR SONAR_SAMPLE_RATE) = 0%Z).
  { unfold rel_delay. rewrite Rminus_diag, Rmult_0_l. apply Rtrunc_0. }
  rewrite H0, Z.sub_0_r.
  assert (Hz : forall i src, (1 <= i <= 3)%Z -> channel_sample spike_state i src = 0%R).
  { intros i src Hi. unfold channel_sample.
    destruct (_ && _); [|reflexivity].
    assert (i = 1 \/ i = 2 \/ i = 3)%Z as [ -> | [ -> | -> ] ] by lia;
      apply rd_replicate_0. }
  rewrite (Hz 1%Z), (Hz 2%Z), (Hz 3%Z) by lia.
  unfold channel_sample. change (sample_count spike_state) with 400%Z.
  replace ((0 <=? Z.of_nat k)%Z && (Z.of_nat k <? 400)%Z) with true
    by (symmetry; apply andb_true_iff; split;
        [apply Z.leb_le|apply Z.ltb_lt]; lia).
  change (nth (Z.to_nat 0) (filtered_buffer spike_state) [])
    with spike_channel.
  rewrite rd_of_nat, nth_spike_channel by exact Hk.
  unfold NUM_MICS. lra.
Qed.

Lemma spike_block_first_max (azimuth elevation : R) :
  first_max
    (block (beamformed_output (beamform spike_state azimuth elevation)) 400)
    2000 120.
Proof.
  assert (Hlen : List.length
                   (block (beamformed_output
                             (beamform spike_state azimuth elevation)) 400) =
                 400%nat).
  { unfold block. rewrite length_take, length_beamform.
    change (beamformed_output spike_state) with (replicate 400 0%R).
    rewrite length_replicate. reflexivity. }
  assert (Hnth : forall j, (j < 400)%nat ->
            nth j (block (beamformed_output
                            (beamform spike_state azimuth elevation)) 400) 0%R =
            (spike_sample j / 4)%R).
  { intros j Hj. unfold block. rewrite nth_firstn.
    replace (j <? Z.to_nat 400)%nat with true
      by (symmetry; apply Nat.ltb_lt; lia).
    apply spike_output. exact Hj. }
  unfold first_max. rewrite Hlen.
  split; [lia|]. split; [|split].
  - rewrite Hnth by lia. unfold spike_sample.
    change (120 =? 120)%nat with true. cbv iota. lra.
  - intros j Hj. rewrite Hnth by exact Hj. unfold spike_sample.
    destruct (j =? 120)%nat; [lra|]. destruct (j =? 300)%nat; lra.
  - intros j Hj. rewrite Hnth by lia. unfold spike_sample.
    replace (j =? 120)%nat with false by (symmetry; apply Nat.eqb_neq; lia).
    destruct (j =? 300)%nat; lra.
Qed.

Lemma spike_point_peak (g : R * R) :
  point_peak spike_state g = (2000%R, 120%Z).
Proof.
  unfold point_peak. change (sample_count spike_state) with 400%Z.
  destruct (arm_max_f32_first_max
              (beamformed_output (beamform spike_state g.1 g.2)) 400)
    as (i & Hi & Hmax).
  { intros E. pose proof (spike_block_first_max g.1 g.2) as (Hl & _).
    rewrite E in Hl. simpl in Hl. lia. }
  destruct (first_max_unique _ _ _ _ _ Hmax (spike_block_first_max g.1 g.2))
    as [Hv Hidx].
  destruct (arm_max_f32 _ _) as [v idx]. cbn [fst snd] in Hi, Hv.
  subst v idx i. f_equal. unfold fabsf. apply Rabs_pos_eq. lra.
Qed.

(** When every grid point has the same positive peak, the search keeps
    the first grid point. *)
Lemma fold_track_constant (st : sonar_state_t) (p : R) (i : Z) :
  (forall g, point_peak st g = (p, i)) -> (0 < p)%R ->
  forall g0 gs,
    fold_left (track st) (g0 :: gs) (0, 0, 0, 0%Z)%R = (p, g0.1, g0.2, i).
Proof.
  intros Hp Hpos g0 gs.
  change (fold_left (track st) (g0 :: gs) (0, 0, 0, 0%Z)%R)
    with (fold_left (track st) gs (track st (0, 0, 0, 0%Z)%R g0)).
  assert (H0 : track st (0, 0, 0, 0%Z)%R g0 = (p, g0.1, g0.2, i)).
  { unfold track. rewrite Hp. cbn [fst snd].
    replace (Rgtb p 0) with true by (symmetry; apply Rltb_true; exact Hpos).
    reflexivity. }
  rewrite H0. generalize (g0.1) (g0.2). clear H0 g0.
  induction gs as [|g gs IH]; intros a e; [reflexivity|].
  change (fold_left (track st) (g :: gs) (p, a, e, i))
    with (fold_left (track st) gs (track st (p, a, e, i) g)).
  assert (H1 : track st (p, a, e, i) g = (p, a, e, i)).
  { unfold track. rewrite Hp. cbn [fst snd].
    replace (Rgtb p p) with false by (symmetry; apply Rltb_false; lra).
    reflexivity. }
  rewrite H1. apply IH.
Qed.

Lemma best_of_eq (s : scan_state) p a e i :
  best_of s = (p, a, e, i) ->
  max_power s = p /\ best_azimuth s = a /\ best_elevation s = e /\
  best_peak_idx s = i.
Proof. unfold best_of. intros H. injection H as -> -> -> ->. done. Qed.

Lemma grid_head :
  exists rest, grid = (grid_azimuth 0, grid_elevation 0) :: rest.
Proof. eexists. reflexivity. Qed.

(** C3.  On [spike_state] every steering direction gives the output
    0, ..., 2000 (sample 120), ..., -10000 (sample 300), ...  The search
    reports peak 2000 at sample 120, and detection stores the range of
    that sample, 10.29 cm, although the sample of largest magnitude is
    sample 300 (25.725 cm). *)
Lemma search_peak_is_not_largest_magnitude :
  let s := angular_search spike_state in
  best_of s = (2000, grid_azimuth 0, grid_elevation 0, 120%Z)%R /\
  (detect_decide s).1 = 0%Z /\
  range_cm (target (detect_decide s).2) = (120 / 200000 * 343 * 100 / 2)%R /\
  (forall g,
     fabsf (rd (beamformed_output (beamform spike_state g.1 g.2)) 300) =
     10000%R /\
     (fabsf (rd (beamformed_output (beamform spike_state g.1 g.2)) 300) >
      (point_peak spike_state g).1)%R).
Proof.
  cbv zeta. destruct spike_state_ok as [HL Hcap].
  assert (Hb : best_of (angular_search spike_state) =
               (2000, grid_azimuth 0, grid_elevation 0, 120%Z)%R).
  { rewrite (angular_search_fold spike_state HL Hcap).
    destruct grid_head as [rest ->].
    apply (fold_track_constant spike_state 2000 120 spike_point_peak).
    lra. }
  split; [exact Hb|].
  destruct (best_of_eq _ _ _ _ _ Hb) as (Hp & Ha & He & Hi).
  destruct (detect_decide_cases (angular_search spike_state)) as [_ Hyes].
  rewrite Hp, Hi in Hyes. destruct Hyes as [Hrc Ht].
  { unfold DETECTION_THRESHOLD, SONAR_SAMPLE_RATE, SPEED_OF_SOUND,
      MIN_RANGE_CM, MAX_RANGE_CM. lra. }
  split; [exact Hrc|]. split; [rewrite Ht; reflexivity|].
  intros g. rewrite spike_point_peak. cbn [fst].
  change 300%Z with (Z.of_nat 300). rewrite rd_of_nat.
  rewrite spike_output by lia. unfold spike_sample.
  change (300 =? 120)%nat with false. change (300 =? 300)%nat with true.
  cbv iota. unfold fabsf, Rabs. destruct (Rcase_abs _); split; lra.
Qed.

(** ** Counted loops that fill an array from the index *)

Lemma for_loop_fill {A : Type} (g : Z -> A) (d : A) n : forall j0 l,
  (0 <= j0)%Z ->
  let res := for_loop n j0 (fun i l => <[Z.to_nat i := g i]> l) l in
  List.length res = List.length l /\
  (forall k, (Z.to_nat j0 <= k < Z.to_nat j0 + n)%nat ->
             (k < List.length l)%nat -> nth k res d = g (Z.of_nat k)) /\
  (forall k, ~ (Z.to_nat j0 <= k < Z.to_nat j0 + n)%nat ->
             nth k res d = nth k l d).
Proof.
  induction n as [|n IH]; intros j0 l Hj0; simpl.
  - split; [done|]. split; [intros; lia|done].
  - destruct (IH (j0 + 1)%Z (<[Z.to_nat j0 := g j0]> l) ltac:(lia))
      as (Hl & Hin & Hout).
    rewrite length_insert in Hl, Hin.
    split; [exact Hl|]. split.
    + intros k Hk Hlen.
      destruct (decide (k = Z.to_nat j0)) as [->|Hne].
      * rewrite Hout by lia.
        rewrite nth_lookup, list_lookup_insert_eq by lia. simpl.
        f_equal. lia.
      * apply Hin; [lia|exact Hlen].
    + intros k Hk. rewrite Hout by lia.
      rewrite nth_lookup, list_lookup_insert_ne by lia.
      rewrite <- nth_lookup. reflexivity.
Qed.

(** ** guidance_to_motors in single precision *)

Lemma fltb_false_ge (x y : spec_float) :
  Binary32.fltb x y = false ->
  Binary32.is_nan x = true \/ Binary32.is_nan y = true \/
  Binary32.fleb y x = true.
Proof.
  intros H. destruct (fgtb_false_le y x H) as [H1|[H1|H1]]; tauto.
Qed.

Lemma saturate_range (x : spec_float) :
  (Binary32.is_nan x = true -> Binary32.saturate x = S754_nan) /\
  (Binary32.is_nan x = false ->
   Binary32.is_nan (Binary32.saturate x) = false /\
   Binary32.fleb (Binary32.of_Z 0) (Binary32.saturate x) = true /\
   Binary32.fleb (Binary32.saturate x) (Binary32.of_Z 1) = true).
Proof.
  split.
  - destruct x; try discriminate. reflexivity.
  - intros Hx. unfold Binary32.saturate.
    destruct (Binary32.fltb x (Binary32.of_Z 0)) eqn:E0.
    { repeat split; vm_compute; reflexivity. }
    destruct (Binary32.fgtb x (Binary32.of_Z 1)) eqn:E1.
    { repeat split; vm_compute; reflexivity. }
    split; [exact Hx|]. split.
    + destruct (fltb_false_ge _ _ E0) as [H|[H|H]];
        [congruence|discriminate|exact H].
    + destruct (fgtb_false_le _ _ E1) as [H|[H|H]];
        [congruence|discriminate|exact H].
Qed.

Lemma clamp_motor_saturate (i : Z) (l : list Binary32.float32_t) :
  (Z.to_nat i < List.length l)%nat ->
  Binary32.clamp_motor i l =
  <[Z.to_nat i := Binary32.saturate (Binary32.rd l i)]> l.
Proof.
  intros Hi. unfold Binary32.clamp_motor, Binary32.saturate.
  destruct (Binary32.fltb (Binary32.rd l i) (Binary32.of_Z 0)) eqn:E0.
  - unfold Binary32.rd at 1.
    rewrite nth_lookup, list_lookup_insert_eq by exact Hi. cbn [default from_option].
    replace (Binary32.fgtb (Binary32.of_Z 0) (Binary32.of_Z 1)) with false
      by (vm_compute; reflexivity).
    reflexivity.
  - destruct (Binary32.fgtb (Binary32.rd l i) (Binary32.of_Z 1)) eqn:E1.
    + reflexivity.
    + symmetry. apply list_insert_id. unfold Binary32.rd.
      destruct (lookup_lt_is_Some_2 l (Z.to_nat i) Hi) as [x Hx].
      rewrite nth_lookup, Hx. reflexivity.
Qed.

Lemma length_clamp_motor (i : Z) (l : list Binary32.float32_t) :
  List.length (Binary32.clamp_motor i l) = List.length l.
Proof.
  unfold Binary32.clamp_motor.
  destruct (Binary32.fltb _ _), (Binary32.fgtb _ _);
    rewrite ?length_insert; reflexivity.
Qed.

Lemma guidance_to_motors_cells (cmd : Binary32.guidance_cmd_t)
    (a b c d : Binary32.float32_t) (rest : list Binary32.float32_t) :
  Binary32.guidance_to_motors (Some cmd) (Some (a :: b :: c :: d :: rest)) =
  Some (map Binary32.saturate (Binary32.motor_mix cmd) ++ rest).
Proof.
  unfold Binary32.guidance_to_motors. cbv zeta. f_equal.
  change 4%nat with (S (S (S (S O)))). cbn [for_loop].
  cbn [insert list_insert].
  change (0 + 1)%Z with 1%Z. change (1 + 1)%Z with 2%Z.
  change (2 + 1)%Z with 3%Z.
  rewrite !clamp_motor_saturate
    by (rewrite ?length_clamp_motor, ?length_insert; cbn [List.length]; lia).
  reflexivity.
Qed.

(** X1.  In single precision [guidance_to_motors] writes to each of the
    four motors the mixed thrust after the two tests of the clamp.  A
    mixed thrust that is NaN fails both tests and reaches the motor as
    NaN; every other mixed thrust ends between 0 and 1.  The array keeps
    its length and the cells after the fourth are not touched. *)
Theorem guidance_to_motors_saturated
    (cmd : Binary32.guidance_cmd_t) (motor_thrust : list Binary32.float32_t) :
  (4 <= List.length motor_thrust)%nat ->
  exists out,
    Binary32.guidance_to_motors (Some cmd) (Some motor_thrust) = Some out /\
    List.length out = List.length motor_thrust /\
    (forall i, (0 <= i < 4)%Z ->
       let m := Binary32.rd (Binary32.motor_mix cmd) i in
       Binary32.rd out i = Binary32.saturate m /\
       (Binary32.is_nan m = true -> Binary32.rd out i = S754_nan) /\
       (Binary32.is_nan m = false ->
        Binary32.is_nan (Binary32.rd out i) = false /\
        Binary32.fleb (Binary32.of_Z 0) (Binary32.rd out i) = true /\
        Binary32.fleb (Binary32.rd out i) (Binary32.of_Z 1) = true)) /\
    (forall i, (4 <= i)%Z ->
       Binary32.rd out i = Binary32.rd motor_thrust i).
Proof.
  intros Hlen.
  destruct motor_thrust as [|a [|b [|c [|d rest]]]]; simpl in Hlen; try lia.
  rewrite guidance_to_motors_cells. eexists. split; [reflexivity|].
  split; [reflexivity|]. split.
  - intros i Hi m.
    assert (Hout : Binary32.rd
                     (map Binary32.saturate (Binary32.motor_mix cmd) ++ rest) i =
                   Binary32.saturate m).
    { unfold m.
      assert (i = 0 \/ i = 1 \/ i = 2 \/ i = 3)%Z
        as [ -> | [ -> | [ -> | -> ] ] ] by lia; reflexivity. }
    rewrite Hout. split; [reflexivity|]. apply saturate_range.
  - intros i Hi. unfold Binary32.rd.
    replace (Z.to_nat i) with (4 + (Z.to_nat i - 4))%nat by lia.
    reflexivity.
Qed.

Lemma guidance_to_motors_saturated_witness :
  exists out,
    Binary32.guidance_to_motors
      (Some {| Binary32.accel_x := Binary32.of_Z 4;
               Binary32.accel_y := Binary32.of_Z 0;
               Binary32.accel_z := Binary32.of_Z 0;
               Binary32.intercept := false |})
      (Some (replicate 5 (Binary32.of_Z 9))) = Some out /\
    List.length out = List.length (replicate 5 (Binary32.of_Z 9)) /\
    (forall i, (0 <= i < 4)%Z ->
       let m :=
         Binary32.rd
           (Binary32.motor_mix
              {| Binary32.accel_x := Binary32.of_Z 4;
                 Binary32.accel_y := Binary32.of_Z 0;
                 Binary32.accel_z := Binary32.of_Z 0;
                 Binary32.intercept := false |}) i in
       Binary32.rd out i = Binary32.saturate m /\
       (Binary32.is_nan m = true -> Binary32.rd out i = S754_nan) /\
       (Binary32.is_nan m = false ->
        Binary32.is_nan (Binary32.rd out i) = false /\
        Binary32.fleb (Binary32.of_Z 0) (Binary32.rd out i) = true /\
        Binary32.fleb (Binary32.rd out i) (Binary32.of_Z 1) = true)) /\
    (forall i, (4 <= i)%Z ->
       Binary32.rd out i =
       Binary32.rd (replicate 5 (Binary32.of_Z 9)) i).
Proof.
  apply (guidance_to_motors_saturated
           {| Binary32.accel_x := Binary32.of_Z 4;
              Binary32.accel_y := Binary32.of_Z 0;
              Binary32.accel_z := Binary32.of_Z 0;
              Binary32.intercept := false |}
           (replicate 5 (Binary32.of_Z 9))).
  simpl. lia.
Defined.

(** A command that holds a NaN reaches all four motors as NaN. *)
Example guidance_to_motors_nan :
  Binary32.guidance_to_motors
    (Some {| Binary32.accel_x := Binary32.of_Z 4;
             Binary32.accel_y := Binary32.of_Z 0;
             Binary32.accel_z := S754_nan;
             Binary32.intercept := false |})
    (Some (replicate 4 (Binary32.of_Z 9))) =
  Some [S754_nan; S754_nan; S754_nan; S754_nan].
Proof. vm_compute. reflexivity. Qed.

(** ** guidance_compute: return codes *)

(** X3.  [guidance_compute] returns -1 exactly when one of its three pointers
    is null, -2 exactly when all are set and the target is not valid, and
    0 otherwise; when it does not return 0 the command is left as it was,
    and when it returns 0 a command has been written. *)
Theorem guidance_compute_return_codes
    (vehicle : option vehicle_state_t) (target : option target_info_t)
    (cmd : option guidance_cmd_t) :
  let r := guidance_compute vehicle target cmd in
  (r.1 = 0 \/ r.1 = -1 \/ r.1 = -2)%Z /\
  (r.1 = (-1)%Z <-> vehicle = None \/ target = None \/ cmd = None) /\
  (r.1 = (-2)%Z <->
   exists v t c, vehicle = Some v /\ target = Some t /\ cmd = Some c /\
                 valid t = false) /\
  (r.1 <> 0%Z -> r.2 = cmd) /\
  (r.1 = 0%Z -> exists c', r.2 = Some c').
Proof.
  cbv zeta.
  destruct vehicle as [v|].
  2:{ simpl. repeat split; try tauto; try lia; try (intros H; lia).
      - intros (v & t & c & H & _). discriminate.
  }
  destruct target as [t|].
  2:{ simpl. repeat split; try tauto; try lia.
      - intros (v' & t & c & _ & H & _). discriminate. }
  destruct cmd as [c|].
  2:{ simpl. repeat split; try tauto; try lia.
      - intros (v' & t' & c & _ & _ & H & _). discriminate. }
  destruct (valid t) eqn:Hv.
  - unfold guidance_compute. rewrite Hv. cbn [negb]. cbv zeta.
    assert (Hn : ~ (exists v0 t0 c1, Some v = Some v0 /\ Some t = Some t0 /\
                      Some c = Some c1 /\ valid t0 = false)).
    { intros (v0 & t0 & c1 & _ & Ht & _ & Hf). injection Ht as <-. congruence. }
    destruct (Rltb _ _); [|destruct (Rgtb _ _)]; cbn [fst snd];
      (split; [left; reflexivity|]);
      (split; [split; [lia|intros [H|[H|H]]; discriminate]|]);
      (split; [split; [lia|intros H; exfalso; exact (Hn H)]|]);
      (split; [intros H; lia|intros _; eexists; reflexivity]).
  - unfold guidance_compute. rewrite Hv. cbn [negb fst snd].
    split; [right; right; reflexivity|].
    split; [split; [lia|intros [H|[H|H]]; discriminate]|].
    split; [split; [intros _; exists v, t, c; done|reflexivity]|].
    split; [reflexivity|lia].
Qed.

(** ** Hann window: sonar_generate_chirp, signal_apply_window;
       dfsdm_convert_pdm_to_pcm *)

Lemma hann_range (length i : Z) : (0 <= hann length i <= 1)%R.
Proof.
  unfold hann. pose proof (COS_bound (2 * PI * IZR i / IZR (length - 1))).
  lra.
Qed.

Lemma hann_first (length : Z) : hann length 0 = 0%R.
Proof.
  unfold hann. replace (2 * PI * 0 / IZR (length - 1))%R with 0%R
    by (unfold Rdiv; ring).
  rewrite cos_0. ring.
Qed.

Lemma hann_last (length : Z) : (2 <= length)%Z -> hann length (length - 1) = 0%R.
Proof.
  intros H. unfold hann.
  replace (2 * PI * IZR (length - 1) / IZR (length - 1))%R with (2 * PI)%R.
  - rewrite cos_2PI. ring.
  - field. apply not_0_IZR. lia.
Qed.

Lemma hann_symmetric (length i : Z) :
  (2 <= length)%Z -> hann length (length - 1 - i) = hann length i.
Proof.
  intros H. unfold hann. f_equal. f_equal.
  replace (2 * PI * IZR (length - 1 - i) / IZR (length - 1))%R
    with (- (2 * PI * IZR i / IZR (length - 1)) + 2 * PI)%R.
  - rewrite cos_plus, cos_2PI, sin_2PI, cos_neg. ring.
  - replace (length - 1 - i)%Z with ((length - 1) - i)%Z by lia.
    rewrite (minus_IZR (length - 1) i). field. apply not_0_IZR. lia.
Qed.

Lemma chirp_sample_hann (length i : Z) :
  exists c, (-1 <= c <= 1)%R /\ chirp_sample length i = (c * hann length i)%R.
Proof.
  unfold chirp_sample, hann. cbv zeta. eexists. split; [|reflexivity].
  apply COS_bound.
Qed.

Lemma Rabs_le_hann (c x : R) (length i : Z) :
  (-1 <= c <= 1)%R ->
  (Rabs (c * (x * hann length i)) <= Rabs x * hann length i)%R.
Proof.
  intros Hc. pose proof (hann_range length i) as Hh.
  rewrite !Rabs_mult. rewrite (Rabs_pos_eq (hann length i)) by lra.
  assert (Rabs c <= 1)%R by (apply Rabs_le; lra).
  pose proof (Rabs_pos x).
  assert (0 <= Rabs x * hann length i)%R by (apply Rmult_le_pos; lra).
  nra.
Qed.

(** X6.  A chirp of at least two samples written by [sonar_generate_chirp]
    starts and ends at zero, and the magnitude of every sample is at most
    the value of the Hann window there, hence at most 1. *)
Theorem sonar_generate_chirp_tapered (chirp : list R) (length : Z) :
  (2 <= length < 2 ^ 32)%Z ->
  (length <= Z.of_nat (List.length chirp))%Z ->
  rd (sonar_generate_chirp chirp length) 0 = 0%R /\
  rd (sonar_generate_chirp chirp length) (length - 1) = 0%R /\
  (forall i, (0 <= i < length)%Z ->
     (Rabs (rd (sonar_generate_chirp chirp length) i) <= hann length i <= 1)%R).
Proof.
  intros Hlen Hcap.
  rewrite sonar_generate_chirp_cells by lia.
  assert (Hcell : forall i, (0 <= i < length)%Z ->
            rd (for_loop (Z.to_nat length) 0%Z
                  (cell_update (fun i _ => chirp_sample length i)) chirp) i =
            chirp_sample length i).
  { intros i Hi. unfold rd. rewrite cells_in by lia. f_equal. lia. }
  split; [|split].
  - rewrite Hcell by lia. destruct (chirp_sample_hann length 0) as (c & _ & ->).
    rewrite hann_first. ring.
  - rewrite Hcell by lia.
    destruct (chirp_sample_hann length (length - 1)) as (c & _ & ->).
    rewrite hann_last by lia. ring.
  - intros i Hi. rewrite Hcell by lia.
    destruct (chirp_sample_hann length i) as (c & Hc & ->).
    pose proof (hann_range length i) as Hh. split; [|lra].
    pose proof (Rabs_le_hann c 1 length i Hc) as H.
    rewrite Rmult_1_l in H. rewrite Rabs_R1, Rmult_1_l in H. exact H.
Qed.

Lemma sonar_generate_chirp_tapered_witness :
  rd (sonar_generate_chirp [7; 7; 7; 7]%R 3) 0 = 0%R /\
  rd (sonar_generate_chirp [7; 7; 7; 7]%R 3) (3 - 1) = 0%R /\
  (forall i, (0 <= i < 3)%Z ->
     (Rabs (rd (sonar_generate_chirp [7; 7; 7; 7]%R 3) i) <= hann 3 i <= 1)%R).
Proof.
  apply (sonar_generate_chirp_tapered [7; 7; 7; 7]%R 3).
  - lia.
  - simpl. lia.
Defined.

Lemma signal_apply_window_cells (sig : list R) (length : Z) :
  (1 <= length < 2 ^ 32)%Z ->
  signal_apply_window (Some sig) length =
  Some (for_loop (Z.to_nat length) 0%Z
          (cell_update (fun i x => (x * hann length i)%R)) sig).
Proof.
  intros Hlen. unfold signal_apply_window.
  destruct (length =? 0)%Z eqn:E; [apply Z.eqb_eq in E; lia|].
  f_equal. apply for_loop_ext. intros k l Hk.
  unfold cell_update, hann, arm_cos_f32. rewrite u32_id by (red; lia).
  reflexivity.
Qed.

(** X7.  [signal_apply_window] on at least two samples multiplies sample [i] by
    the Hann window value, which is symmetric about the middle; no sample
    grows in magnitude, the first and last become zero, and the cells from
    [length] on are not touched. *)
Theorem signal_apply_window_tapers (sig : list R) (length : Z) :
  (2 <= length < 2 ^ 32)%Z ->
  (length <= Z.of_nat (List.length sig))%Z ->
  exists out,
    signal_apply_window (Some sig) length = Some out /\
    List.length out = List.length sig /\
    (forall i, (0 <= i < length)%Z ->
       rd out i = (rd sig i * hann length i)%R /\
       (Rabs (rd out i) <= Rabs (rd sig i))%R /\
       hann length (length - 1 - i) = hann length i) /\
    rd out 0 = 0%R /\ rd out (length - 1) = 0%R /\
    (forall i, (length <= i)%Z -> rd out i = rd sig i).
Proof.
  intros Hlen Hcap. rewrite signal_apply_window_cells by lia.
  eexists. split; [reflexivity|].
  assert (Hcell : forall i, (0 <= i < length)%Z ->
            rd (for_loop (Z.to_nat length) 0%Z
                  (cell_update (fun i x => (x * hann length i)%R)) sig) i =
            (rd sig i * hann length i)%R).
  { intros i Hi. unfold rd. rewrite cells_in by lia.
    rewrite Z2Nat.id by lia. reflexivity. }
  split; [apply cells_len|]. split; [|split; [|split]].
  - intros i Hi. rewrite Hcell by lia. split; [reflexivity|].
    split; [|apply hann_symmetric; lia].
    pose proof (hann_range length i) as Hh.
    rewrite Rabs_mult, (Rabs_pos_eq (hann length i)) by lra.
    pose proof (Rabs_pos (rd sig i)). nra.
  - rewrite Hcell by lia. rewrite hann_first. ring.
  - rewrite Hcell by lia. rewrite hann_last by lia. ring.
  - intros i Hi. unfold rd. apply cells_out. lia.
Qed.

Lemma signal_apply_window_tapers_witness :
  exists out,
    signal_apply_window (Some [4; 5; 6; 7]%R) 3 = Some out /\
    List.length out = 4%nat /\
    (forall i, (0 <= i < 3)%Z ->
       rd out i = (rd [4; 5; 6; 7]%R i * hann 3 i)%R /\
       (Rabs (rd out i) <= Rabs (rd [4; 5; 6; 7]%R i))%R /\
       hann 3 (3 - 1 - i) = hann 3 i) /\
    rd out 0 = 0%R /\ rd out (3 - 1) = 0%R /\
    (forall i, (3 <= i)%Z -> rd out i = rd [4; 5; 6; 7]%R i).
Proof.
  apply (signal_apply_window_tapers [4; 5; 6; 7]%R 3).
  - lia.
  - simpl. lia.
Defined.

Lemma dfsdm_convert_cells (pdm_data : list Z) (pcm_data : list R) (length : Z) :
  dfsdm_convert_pdm_to_pcm pdm_data pcm_data length =
  for_loop (Z.to_nat length) 0%Z
    (cell_update (fun i _ => (IZR (rdz pdm_data i) / 32768)%R)) pcm_data.
Proof. reflexivity. Qed.

(** X8.  [dfsdm_convert_pdm_to_pcm] maps each 16-bit sample to that sample
    divided by 32768, a value from -1 up to but excluding 1; the cells of
    [pcm_data] from [length] on are not touched. *)
Theorem dfsdm_convert_pdm_to_pcm_unit_range
    (pdm_data : list Z) (pcm_data : list R) (length : Z) :
  (0 <= length)%Z ->
  (length <= Z.of_nat (List.length pcm_data))%Z ->
  (forall i, (0 <= i < length)%Z -> is_s16 (rdz pdm_data i)) ->
  let out := dfsdm_convert_pdm_to_pcm pdm_data pcm_data length in
  List.length out = List.length pcm_data /\
  (forall i, (0 <= i < length)%Z ->
     (rd out i * 32768 = IZR (rdz pdm_data i) /\ -1 <= rd out i < 1)%R) /\
  (forall i, (length <= i)%Z -> rd out i = rd pcm_data i).
Proof.
  intros Hlen Hcap Hs16 out. unfold out. rewrite dfsdm_convert_cells.
  split; [apply cells_len|]. split.
  - intros i Hi. unfold rd. rewrite cells_in by lia.
    rewrite Z2Nat.id by lia.
    destruct (Hs16 i Hi) as [Hlo Hhi].
    apply IZR_le in Hlo. apply IZR_lt in Hhi.
    split; [field|]. lra.
  - intros i Hi. unfold rd. apply cells_out. lia.
Qed.

Lemma dfsdm_convert_pdm_to_pcm_unit_range_witness :
  let out := dfsdm_convert_pdm_to_pcm [-32768; 16384]%Z [9; 9; 9]%R 2 in
  List.length out = List.length [9; 9; 9]%R /\
  (forall i, (0 <= i < 2)%Z ->
     (rd out i * 32768 = IZR (rdz [-32768; 16384]%Z i) /\ -1 <= rd out i < 1)%R) /\
  (forall i, (2 <= i)%Z -> rd out i = rd [9; 9; 9]%R i).
Proof.
  apply (dfsdm_convert_pdm_to_pcm_unit_range [-32768; 16384]%Z [9; 9; 9]%R 2).
  - lia.
  - simpl. lia.
  - intros i Hi.
    assert (i = 0 \/ i = 1)%Z as [ -> | -> ] by lia; unfold is_s16, rdz; simpl; lia.
Defined.

(** ** signal_find_peaks: completeness of the scan *)

Lemma strict_local_peak_dec (signal : list R) (threshold : R) (i : Z) :
  Rgtb (fabsf (rd signal i)) threshold &&
  Rgtb (fabsf (rd signal i)) (fabsf (rd signal (i - 1))) &&
  Rgtb (fabsf (rd signal i)) (fabsf (rd signal (i + 1))) = true <->
  strict_local_peak signal threshold i.
Proof.
  unfold strict_local_peak, Rgtb. rewrite !andb_true_iff, !Rltb_true.
  unfold Rgt. tauto.
Qed.

Section FindPeaksComplete.
Variables (signal : list float32_t) (length : Z) (threshold : float32_t)
          (max_peaks : Z) (peaks0 : list Z).
Hypothesis Hlen : (1 <= length < 2 ^ 32)%Z.
Hypothesis Hmax : is_u32 max_peaks.
Hypothesis Hcap : (max_peaks <= Z.of_nat (List.length peaks0))%Z.

Lemma find_peaks_loop_scanned n : forall i peaks num_peaks,
  scanned signal length threshold max_peaks peaks0 i peaks num_peaks ->
  (length - 1 - i <= Z.of_nat n)%Z ->
  let '(i', peaks', num') :=
    find_peaks_loop n signal length threshold max_peaks i peaks num_peaks in
  scanned signal length threshold max_peaks peaks0 i' peaks' num' /\
  ((i' <? length - 1)%Z && (num' <? max_peaks)%Z = false).
Proof using Hlen Hmax Hcap.
  assert (Hl1 : u32 (length - 1) = (length - 1)%Z) by (apply u32_id; red; lia).
  induction n as [|n IH]; intros i peaks num_peaks Hinv Hfuel; simpl.
  - split; [exact Hinv|]. destruct Hinv as (Hi & _).
    apply andb_false_iff. left. apply Z.ltb_ge. lia.
  - rewrite Hl1.
    destruct ((i <? length - 1)%Z && (num_peaks <? max_peaks)%Z) eqn:Hc.
    2:{ split; [exact Hinv|exact Hc]. }
    apply andb_true_iff in Hc as [Hc1 Hc2].
    apply Z.ltb_lt in Hc1. apply Z.ltb_lt in Hc2.
    destruct Hinv as (Hi & Hn & Hl & Hall & Hbelow & Hrest).
    red in Hmax.
    assert (Hi1 : u32 (i + 1) = (i + 1)%Z) by (apply u32_id; red; lia).
    assert (Hn1 : u32 (num_peaks + 1) = (num_peaks + 1)%Z)
      by (apply u32_id; red; lia).
    rewrite Hi1, Hn1.
    destruct (Rgtb (fabsf (rd signal i)) threshold &&
              Rgtb (fabsf (rd signal i)) (fabsf (rd signal (i - 1))) &&
              Rgtb (fabsf (rd signal i)) (fabsf (rd signal (i + 1)))) eqn:Hp.
    + specialize (IH (i + 1)%Z (<[Z.to_nat num_peaks := i]> peaks)
                    (num_peaks + 1)%Z).
      destruct (find_peaks_loop n signal length threshold max_peaks (i + 1)
                  (<[Z.to_nat num_peaks:=i]> peaks) (num_peaks + 1))
        as [[i' peaks'] num'].
      apply IH; [|lia].
      unfold scanned. rewrite reported_push; [|lia|lia].
      split; [lia|]. split; [lia|]. split; [rewrite length_insert; exact Hl|].
      split; [|split].
      * intros p Hp' Hpk. apply in_or_app.
        destruct (Z.eq_dec p i) as [->|Hne]; [right; left; reflexivity|].
        left. apply Hall; [lia|exact Hpk].
      * intros p Hin. apply in_app_or in Hin as [Hin|[<-|[]]]; [|lia].
        specialize (Hbelow p Hin). lia.
      * intros k Hk. unfold rdz.
        rewrite nth_lookup, list_lookup_insert_ne by lia.
        rewrite <- nth_lookup. apply Hrest. lia.
    + specialize (IH (i + 1)%Z peaks num_peaks).
      destruct (find_peaks_loop n signal length threshold max_peaks (i + 1)
                  peaks num_peaks) as [[i' peaks'] num'].
      apply IH; [|lia].
      split; [lia|]. split; [lia|]. split; [exact Hl|]. split; [|split].
      * intros p Hp' Hpk.
        destruct (Z.eq_dec p i) as [->|Hne].
        -- apply strict_local_peak_dec in Hpk. congruence.
        -- apply Hall; [lia|exact Hpk].
      * intros p Hin. specialize (Hbelow p Hin). lia.
      * exact Hrest.
Qed.
End FindPeaksComplete.

(** X13.  [signal_find_peaks] misses no peak: every interior index that is a
    strict local maximum above the threshold is reported, unless the
    array of peaks was filled up ([max_peaks] reported) with indices that
    all lie before it.  The array keeps its length and its cells from the
    reported count on are not touched. *)
Theorem signal_find_peaks_complete
    (signal : list float32_t) (length : Z) (threshold : float32_t)
    (peaks : list Z) (max_peaks np0 : Z) :
  (1 <= length < 2 ^ 32)%Z ->
  is_u32 max_peaks ->
  (max_peaks <= Z.of_nat (List.length peaks))%Z ->
  exists peaks' num,
    signal_find_peaks (Some signal) length threshold (Some peaks) max_peaks
      (Some np0) = (0%Z, Some peaks', Some num) /\
    (forall p, (1 <= p <= length - 2)%Z ->
       strict_local_peak signal threshold p ->
       In p (reported peaks' num) \/
       (num = max_peaks /\ forall q, In q (reported peaks' num) -> (q < p)%Z)) /\
    List.length peaks' = List.length peaks /\
    (forall k, (num <= k)%Z -> rdz peaks' k = rdz peaks k).
Proof.
  intros Hlen Hmax Hcap. unfold signal_find_peaks.
  destruct (length =? 0)%Z eqn:E; [apply Z.eqb_eq in E; lia|].
  pose proof (find_peaks_loop_scanned signal length threshold max_peaks peaks
                Hlen Hmax Hcap (Z.to_nat length) 1%Z peaks 0%Z) as H.
  destruct (find_peaks_loop (Z.to_nat length) signal length threshold
              max_peaks 1 peaks 0) as [[i' peaks'] num'].
  destruct H as ((Hi & Hn & Hl & Hall & Hbelow & Hrest) & Hexit).
  { red in Hmax. unfold scanned. split; [lia|]. split; [lia|].
    split; [reflexivity|]. split; [intros; lia|].
    split; [intros p []|reflexivity]. }
  { lia. }
  exists peaks', num'. split; [reflexivity|]. split; [|split; assumption].
  intros p Hp Hpk.
  destruct (Z_lt_dec p i') as [Hlt|Hge].
  - left. apply Hall; [lia|exact Hpk].
  - right. apply andb_false_iff in Hexit as [Hexit|Hexit];
      [apply Z.ltb_ge in Hexit; lia|apply Z.ltb_ge in Hexit].
    split; [lia|]. intros q Hq. specialize (Hbelow q Hq). lia.
Qed.

Lemma signal_find_peaks_complete_witness :
  exists peaks' num,
    signal_find_peaks (Some [0; 5; 0]%R) 3 1 (Some [8; 9]%Z) 2 (Some 7%Z) =
      (0%Z, Some peaks', Some num) /\
    (forall p, (1 <= p <= 3 - 2)%Z ->
       strict_local_peak [0; 5; 0]%R 1 p ->
       In p (reported peaks' num) \/
       (num = 2%Z /\ forall q, In q (reported peaks' num) -> (q < p)%Z)) /\
    List.length peaks' = List.length [8; 9]%Z /\
    (forall k, (num <= k)%Z -> rdz peaks' k = rdz [8; 9]%Z k).
Proof.
  apply (signal_find_peaks_complete [0; 5; 0]%R 3 1 [8; 9]%Z 2 7).
  - lia.
  - unfold is_u32. lia.
  - simpl. lia.
Defined.

(** ** signal_cluster_detections: invariants of the clustering loop *)

Lemma count_true_bounds (l : list bool) :
  (0 <= count_true l <= Z.of_nat (List.length l))%Z.
Proof.
  induction l as [|b l IH]; simpl count_true; simpl List.length; [lia|].
  destruct b; lia.
Qed.

Lemma count_true_insert (l : list bool) : forall j,
  nth j l false = false -> (j < List.length l)%nat ->
  count_true (<[j := true]> l) = (count_true l + 1)%Z.
Proof.
  induction l as [|b l IH]; intros j Hj Hlt; simpl in Hlt; [lia|].
  destruct j as [|j]; simpl in Hj |- *.
  - subst b. lia.
  - rewrite IH by (exact Hj || lia). lia.
Qed.

Lemma count_true_all (l : list bool) :
  (forall k, (k < List.length l)%nat -> nth k l false = true) ->
  count_true l = Z.of_nat (List.length l).
Proof.
  induction l as [|b l IH]; intros H; [reflexivity|].
  pose proof (H 0%nat ltac:(simpl; lia)) as H0. simpl in H0. subst b.
  simpl count_true. simpl List.length.
  rewrite IH; [lia|]. intros k Hk. apply (H (S k)). simpl. lia.
Qed.

Lemma count_true_replicate (n : nat) : count_true (replicate n false) = 0%Z.
Proof. induction n as [|n IH]; simpl; [reflexivity|exact IH]. Qed.

Lemma count_true_pos (l : list bool) (k : nat) :
  nth k l false = true -> (1 <= count_true l)%Z.
Proof.
  revert k. induction l as [|b l IH]; intros k H.
  - destruct k; discriminate.
  - simpl count_true. pose proof (count_true_bounds l).
    destruct k as [|k]; simpl in H.
    + subst b. lia.
    + specialize (IH k H). destruct b; lia.
Qed.

Lemma total_samples_0 (clusters : list target_cluster_t) :
  total_samples clusters 0 = 0%Z.
Proof. reflexivity. Qed.

Lemma total_samples_push (clusters : list target_cluster_t) (n : Z)
    (c : target_cluster_t) :
  (0 <= n < Z.of_nat (List.length clusters))%Z ->
  total_samples (<[Z.to_nat n := c]> clusters) (n + 1) =
  (total_samples clusters n + cl_sample_count c)%Z.
Proof.
  intros Hn. unfold total_samples.
  replace (Z.to_nat (n + 1)) with (S (Z.to_nat n)) by lia.
  erewrite take_S_r by (apply list_lookup_insert_eq; lia).
  rewrite take_insert_ge by lia.
  rewrite map_app, fold_right_app. simpl.
  generalize (map cl_sample_count (take (Z.to_nat n) clusters)).
  intros l. induction l as [|x l IH]; simpl; lia.
Qed.

Lemma total_samples_S (clusters : list target_cluster_t) (n : Z) :
  (0 <= n < Z.of_nat (List.length clusters))%Z ->
  total_samples clusters (n + 1) =
  (total_samples clusters n + cl_sample_count (rdc clusters n))%Z.
Proof.
  intros Hn. unfold total_samples, rdc.
  replace (Z.to_nat (n + 1)) with (S (Z.to_nat n)) by lia.
  destruct (lookup_lt_is_Some_2 clusters (Z.to_nat n) ltac:(lia)) as [x Hx].
  rewrite (take_S_r _ _ _ Hx), nth_lookup, Hx.
  rewrite map_app, fold_right_app. simpl.
  generalize (map cl_sample_count (take (Z.to_nat n) clusters)).
  intros l. induction l as [|y l IH]; simpl; lia.
Qed.

Lemma rdc_insert_eq (clusters : list target_cluster_t) (n : Z)
    (c : target_cluster_t) :
  (0 <= n < Z.of_nat (List.length clusters))%Z ->
  rdc (<[Z.to_nat n := c]> clusters) n = c.
Proof.
  intros Hn. unfold rdc. rewrite nth_lookup, list_lookup_insert_eq by lia.
  reflexivity.
Qed.

Lemma rdc_insert_ne (clusters : list target_cluster_t) (n k : Z)
    (c : target_cluster_t) :
  (0 <= n)%Z -> (0 <= k)%Z -> n <> k ->
  rdc (<[Z.to_nat n := c]> clusters) k = rdc clusters k.
Proof.
  intros Hn Hk Hne. unfold rdc.
  rewrite nth_lookup, list_lookup_insert_ne by lia.
  rewrite <- nth_lookup. reflexivity.
Qed.

Lemma rdc_neg (clusters : list target_cluster_t) (k : Z) :
  (k < 0)%Z -> rdc clusters k = rdc clusters 0.
Proof. intros H. unfold rdc. f_equal. lia. Qed.

Section ClusterInvariant.
Variables (peaks : list Z) (num_peaks : Z) (signal : list float32_t)
          (sample_rate max_clusters : Z) (lo hi : R)
          (clusters0 : list target_cluster_t).
Hypothesis Hnp : is_u32 num_peaks.
Hypothesis Hmax : is_u32 max_clusters.
Hypothesis Hcap : (max_clusters <= Z.of_nat (List.length clusters0))%Z.
Hypothesis Hhull : forall j, (0 <= j < num_peaks)%Z ->
  (lo <= round_trip_range (rdz peaks j) sample_rate <= hi)%R.

Local Abbreviation loop n := (cluster_loop n peaks num_peaks signal sample_rate max_clusters).
Local Abbreviation body := (cluster_outer_body peaks num_peaks signal sample_rate).
Local Abbreviation inv := (clusters_inv num_peaks max_clusters lo hi clusters0).

Lemma running_mean_hull (r rj : R) (sc : Z) :
  (1 <= sc)%Z -> (lo <= r <= hi)%R -> (lo <= rj <= hi)%R ->
  (lo <= (r * IZR sc + rj) / IZR (sc + 1) <= hi)%R.
Proof using Type.
  intros Hsc Hr Hrj. rewrite plus_IZR.
  assert (Hs : (1 <= IZR sc)%R) by (apply IZR_le; exact Hsc).
  assert (Hpos : (0 < IZR sc + 1)%R) by lra.
  split.
  - apply Rmult_le_reg_r with (r := (IZR sc + 1)%R); [exact Hpos|].
    replace ((r * IZR sc + rj) / (IZR sc + 1) * (IZR sc + 1))%R
      with (r * IZR sc + rj)%R by (field; lra).
    nra.
  - apply Rmult_le_reg_r with (r := (IZR sc + 1)%R); [exact Hpos|].
    replace ((r * IZR sc + rj) / (IZR sc + 1) * (IZR sc + 1))%R
      with (r * IZR sc + rj)%R by (field; lra).
    nra.
Qed.

Lemma merge_loop_inv (C0 : Z) n : forall j0 c p,
  (0 <= j0)%Z -> (j0 + Z.of_nat n <= num_peaks)%Z ->
  List.length p = Z.to_nat num_peaks ->
  cluster_sound lo hi c -> (0 <= C0)%Z ->
  (cl_sample_count c + C0 = count_true p)%Z ->
  let r := for_loop n j0 (cluster_merge_body peaks signal sample_rate) (c, p) in
  List.length r.2 = Z.to_nat num_peaks /\
  cluster_sound lo hi r.1 /\
  (cl_sample_count r.1 + C0 = count_true r.2)%Z /\
  cl_azimuth_rad r.1 = cl_azimuth_rad c /\
  cl_elevation_rad r.1 = cl_elevation_rad c.
Proof using Hnp Hhull.
  clear Hcap Hmax.
  induction n as [|n IH]; intros j0 c p Hj0 Hn Hl Hc HC0 Hsum.
  - simpl. repeat split; try assumption; apply Hc.
  - rewrite for_loop_S. unfold cluster_merge_body at 2.
    destruct (nth (Z.to_nat j0) p false) eqn:Hpj.
    + apply IH; try assumption; lia.
    + fold (round_trip_range (rdz peaks j0) sample_rate).
      destruct (Rltb _ _).
      2:{ apply IH; try assumption; lia. }
      destruct Hc as (Hsc & Hr & Hpw).
      assert (Hins : count_true (<[Z.to_nat j0 := true]> p) =
                     (count_true p + 1)%Z)
        by (apply count_true_insert; [exact Hpj|lia]).
      pose proof (count_true_bounds (<[Z.to_nat j0 := true]> p)) as Hb.
      rewrite length_insert, Hl in Hb.
      assert (Hu : u32 (cl_sample_count c + 1) = (cl_sample_count c + 1)%Z).
      { apply u32_id. red in Hnp |- *. lia. }
      rewrite Hu.
      match goal with
      | |- context [for_loop n (j0 + 1)%Z _ (?c1, ?p1)] =>
          destruct (IH (j0 + 1)%Z c1 p1) as (H1 & H2 & H3 & H4 & H5)
      end.
      * lia.
      * lia.
      * rewrite length_insert. exact Hl.
      * split; [simpl; lia|]. split; simpl.
        -- apply running_mean_hull; [exact Hsc|exact Hr|].
           apply Hhull. lia.
        -- unfold fmaxf. pose proof (Rmax_l (cl_power c) (fabsf (rd signal (rdz peaks j0)))). lra.
      * exact HC0.
      * simpl. lia.
      * repeat split; try assumption; apply H2.
Qed.

Lemma cluster_outer_body_inv s :
  (cs_i s <? num_peaks)%Z && (cs_num s <? max_clusters)%Z = true ->
  inv s -> inv (body s).
Proof using Hnp Hmax Hcap Hhull.
  intros Hc (Hni & Hi & Hnm & Hlp & Hlc & Hproc & Htot & Hsound & Hang &
             Hrest & Hone).
  apply andb_true_iff in Hc as [Hc1 Hc2].
  apply Z.ltb_lt in Hc1. apply Z.ltb_lt in Hc2.
  red in Hnp, Hmax.
  assert (Hi1 : u32 (cs_i s + 1) = (cs_i s + 1)%Z) by (apply u32_id; red; lia).
  assert (Hn1 : u32 (cs_num s + 1) = (cs_num s + 1)%Z)
    by (apply u32_id; red; lia).
  unfold cluster_outer_body. rewrite Hi1, Hn1.
  destruct (nth (Z.to_nat (cs_i s)) (cs_processed s) false) eqn:Hpi.
  - unfold clusters_inv. cbn [cs_i cs_num cs_clusters cs_processed].
    split; [lia|]. split; [lia|]. split; [lia|]. split; [exact Hlp|].
    split; [exact Hlc|]. split; [|split; [exact Htot|]].
    + intros k Hk. destruct (decide (k = Z.to_nat (cs_i s))) as [->|Hne];
        [exact Hpi|apply Hproc; lia].
    + split; [exact Hsound|]. split; [exact Hang|]. split; [exact Hrest|].
      intros _. pose proof (count_true_pos _ _ Hpi) as Hp.
      rewrite <- Htot in Hp.
      destruct (Z.eq_dec (cs_num s) 0%Z) as [E|E]; [|lia].
      rewrite E, total_samples_0 in Hp. lia.
  - fold (round_trip_range (rdz peaks (cs_i s)) sample_rate).
    set (c0 := {| cl_range_cm := round_trip_range (rdz peaks (cs_i s)) sample_rate;
                  cl_azimuth_rad := cl_azimuth_rad (rdc (cs_clusters s) (cs_num s));
                  cl_elevation_rad := cl_elevation_rad (rdc (cs_clusters s) (cs_num s));
                  cl_power := fabsf (rd signal (rdz peaks (cs_i s)));
                  cl_sample_count := 1 |}).
    set (p1 := <[Z.to_nat (cs_i s) := true]> (cs_processed s)).
    assert (Hp1 : count_true p1 = (count_true (cs_processed s) + 1)%Z)
      by (apply count_true_insert; [exact Hpi|lia]).
    pose proof (count_true_bounds (cs_processed s)) as Hcb.
    pose proof (merge_loop_inv (total_samples (cs_clusters s) (cs_num s))
                  (Z.to_nat (num_peaks - (cs_i s + 1))) (cs_i s + 1)%Z c0 p1)
      as Hm.
    pose proof (merge_loop_mono peaks signal sample_rate
                  (Z.to_nat (num_peaks - (cs_i s + 1))) (cs_i s + 1)%Z c0 p1)
      as Hmono.
    cbv zeta in Hm.
    destruct (for_loop (Z.to_nat (num_peaks - (cs_i s + 1))) (cs_i s + 1)
                (cluster_merge_body peaks signal sample_rate) (c0, p1))
      as [c' p'].
    cbn [fst snd] in Hm, Hmono.
    destruct Hm as (H1 & H2 & H3 & H4 & H5).
    { lia. } { lia. }
    { unfold p1. rewrite length_insert. exact Hlp. }
    { split; [simpl; lia|]. split; simpl.
      - apply Hhull. lia.
      - apply Rabs_pos. }
    { lia. }
    { simpl. lia. }
    unfold clusters_inv. cbn [cs_i cs_num cs_clusters cs_processed].
    split; [lia|]. split; [lia|]. split; [lia|]. split; [exact H1|].
    split; [rewrite length_insert; exact Hlc|].
    split; [|split; [|split; [|split; [|split]]]].
    + intros k Hk. apply Hmono. unfold p1.
      destruct (decide (k = Z.to_nat (cs_i s))) as [->|Hne].
      * rewrite nth_lookup, list_lookup_insert_eq by lia. reflexivity.
      * apply nth_insert_true. apply Hproc. lia.
    + rewrite total_samples_push by lia. lia.
    + intros c Hcn. destruct (Z.eq_dec c (cs_num s)) as [->|Hne].
      * rewrite rdc_insert_eq by lia. exact H2.
      * rewrite rdc_insert_ne by lia. apply Hsound. lia.
    + intros c. destruct (Z_lt_dec c 0%Z) as [Hneg|Hnn].
      * rewrite (rdc_neg _ c), (rdc_neg clusters0 c) by lia.
        destruct (Z.eq_dec 0%Z (cs_num s)) as [E|E].
        -- rewrite E, rdc_insert_eq by lia. rewrite H4, H5. simpl.
           apply Hang.
        -- rewrite rdc_insert_ne by lia. apply Hang.
      * destruct (Z.eq_dec c (cs_num s)) as [->|Hne].
        -- rewrite rdc_insert_eq by lia. rewrite H4, H5. simpl. apply Hang.
        -- rewrite rdc_insert_ne by lia. apply Hang.
    + intros c Hcn. rewrite rdc_insert_ne by lia. apply Hrest. lia.
    + lia.
Qed.

Lemma cluster_loop_inv n : forall s, inv s -> inv (loop n s).
Proof using Hnp Hmax Hcap Hhull.
  induction n as [|n IH]; intros s Hs; simpl; [exact Hs|].
  destruct ((cs_i s <? num_peaks)%Z && (cs_num s <? max_clusters)%Z) eqn:E;
    [|exact Hs].
  apply IH, cluster_outer_body_inv; assumption.
Qed.

Lemma cluster_init_inv : inv (cluster_init num_peaks clusters0).
Proof using Hnp Hmax.
  clear Hcap Hhull.
  red in Hnp, Hmax. unfold clusters_inv, cluster_init.
  cbn [cs_i cs_num cs_clusters cs_processed].
  split; [lia|]. split; [lia|]. split; [lia|].
  split; [apply length_replicate|]. split; [reflexivity|].
  split; [intros k Hk; simpl in Hk; lia|].
  split; [rewrite count_true_replicate; reflexivity|].
  split; [intros c Hc; lia|]. split; [done|]. split; [done|lia].
Qed.

(** The state on return satisfies the invariant and the loop condition
    is false. *)
Lemma cluster_run_final :
  let s := cluster_run (Z.to_nat num_peaks) peaks num_peaks signal sample_rate
             clusters0 max_clusters in
  inv s /\ (cs_i s <? num_peaks)%Z && (cs_num s <? max_clusters)%Z = false.
Proof using Hnp Hmax Hcap Hhull.
  cbv zeta. unfold cluster_run. split.
  - apply cluster_loop_inv, cluster_init_inv.
  - apply cluster_loop_exits; [exact Hnp|simpl; lia|]. simpl. red in Hnp. lia.
Qed.
End ClusterInvariant.

Lemma finite_bounds (f : Z -> R) (n : nat) :
  exists lo hi, forall j, (0 <= j < Z.of_nat n)%Z -> (lo <= f j <= hi)%R.
Proof.
  induction n as [|n (lo & hi & IH)].
  - exists 0%R, 0%R. intros j Hj. lia.
  - exists (Rmin lo (f (Z.of_nat n))), (Rmax hi (f (Z.of_nat n))).
    intros j Hj.
    pose proof (Rmin_l lo (f (Z.of_nat n))).
    pose proof (Rmin_r lo (f (Z.of_nat n))).
    pose proof (Rmax_l hi (f (Z.of_nat n))).
    pose proof (Rmax_r hi (f (Z.of_nat n))).
    destruct (Z.eq_dec j (Z.of_nat n)) as [->|Hne]; [lra|].
    specialize (IH j ltac:(lia)). lra.
Qed.

(** The invariant at the return of [signal_cluster_detections], for some
    bounds on the peak ranges. *)
Lemma cluster_run_final_any peaks num_peaks signal sample_rate max_clusters
    clusters :
  is_u32 num_peaks -> is_u32 max_clusters ->
  (max_clusters <= Z.of_nat (List.length clusters))%Z ->
  let s := cluster_run (Z.to_nat num_peaks) peaks num_peaks signal sample_rate
             clusters max_clusters in
  (exists lo hi, clusters_inv num_peaks max_clusters lo hi clusters s) /\
  (cs_i s <? num_peaks)%Z && (cs_num s <? max_clusters)%Z = false.
Proof.
  intros Hnp Hmax Hcap.
  destruct (finite_bounds (fun j => round_trip_range (rdz peaks j) sample_rate)
              (Z.to_nat num_peaks)) as (lo & hi & Hhull).
  assert (Hhull' : forall j, (0 <= j < num_peaks)%Z ->
            (lo <= round_trip_range (rdz peaks j) sample_rate <= hi)%R)
    by (intros j Hj; apply Hhull; lia).
  destruct (cluster_run_final peaks num_peaks signal sample_rate max_clusters
              lo hi clusters Hnp Hmax Hcap Hhull') as [Hinv Hexit].
  split; [exists lo, hi; exact Hinv|exact Hexit].
Qed.

(** X14.  On at least one peak [signal_cluster_detections] returns 0 with a
    number of clusters that is at most the number of peaks and at most
    [max_clusters], and at least 1 when [max_clusters] is; every cluster
    it reports holds at least one peak and has a power that is not
    negative. *)
Theorem signal_cluster_detections_counts
    (peaks : list Z) (num_peaks : Z) (signal : list float32_t)
    (length sample_rate : Z) (clusters : list target_cluster_t)
    (max_clusters n0 : Z) :
  is_u32 num_peaks -> num_peaks <> 0%Z -> is_u32 max_clusters ->
  (max_clusters <= Z.of_nat (List.length clusters))%Z ->
  exists clusters' n,
    signal_cluster_detections true (Some peaks) num_peaks (Some signal)
      length sample_rate (Some clusters) max_clusters (Some n0) =
      (0%Z, Some clusters', Some n) /\
    (0 <= n <= Z.min num_peaks max_clusters)%Z /\
    ((1 <= max_clusters)%Z -> (1 <= n)%Z) /\
    (forall c, (0 <= c < n)%Z ->
       (1 <= cl_sample_count (rdc clusters' c))%Z /\
       (0 <= cl_power (rdc clusters' c))%R).
Proof.
  intros Hnp Hne Hmax Hcap.
  rewrite signal_cluster_detections_ok by exact Hne.
  destruct (cluster_run_final_any peaks num_peaks signal sample_rate
              max_clusters clusters Hnp Hmax Hcap)
    as [(lo & hi & Hinv) Hexit].
  destruct Hinv as (Hni & Hi & Hnm & _ & _ & _ & _ & Hsound & _ & _ & Hone).
  eexists _, _. split; [reflexivity|].
  red in Hnp. split; [lia|]. split.
  - intros H1. apply andb_false_iff in Hexit as [E|E]; apply Z.ltb_ge in E; lia.
  - intros c Hc. destruct (Hsound c Hc) as (H1 & _ & H3). split; assumption.
Qed.

Lemma signal_cluster_detections_counts_witness :
  exists clusters' n,
    signal_cluster_detections true (Some [100; 200]%Z) 2 (Some echo_signal)
      600 200000 (Some (replicate 5 zero_cluster)) 5 (Some 0%Z) =
      (0%Z, Some clusters', Some n) /\
    (0 <= n <= Z.min 2 5)%Z /\
    ((1 <= 5)%Z -> (1 <= n)%Z) /\
    (forall c, (0 <= c < n)%Z ->
       (1 <= cl_sample_count (rdc clusters' c))%Z /\
       (0 <= cl_power (rdc clusters' c))%R).
Proof.
  apply (signal_cluster_detections_counts [100; 200]%Z 2 echo_signal 600
           200000 (replicate 5 zero_cluster) 5 0).
  - unfold is_u32. lia.
  - lia.
  - unfold is_u32. lia.
  - simpl. lia.
Defined.

(** X15.  The sample counts of the reported clusters add up to at least the
    number of clusters and at most the number of peaks: no peak is counted
    in two clusters.  When the cluster array has room for one cluster per
    peak, they add up to exactly the number of peaks: no peak is lost. *)
Theorem signal_cluster_detections_conserves_peaks
    (peaks : list Z) (num_peaks : Z) (signal : list float32_t)
    (length sample_rate : Z) (clusters : list target_cluster_t)
    (max_clusters n0 : Z) :
  is_u32 num_peaks -> num_peaks <> 0%Z -> is_u32 max_clusters ->
  (max_clusters <= Z.of_nat (List.length clusters))%Z ->
  exists clusters' n,
    signal_cluster_detections true (Some peaks) num_peaks (Some signal)
      length sample_rate (Some clusters) max_clusters (Some n0) =
      (0%Z, Some clusters', Some n) /\
    (n <= total_samples clusters' n <= num_peaks)%Z /\
    ((num_peaks <= max_clusters)%Z -> total_samples clusters' n = num_peaks).
Proof.
  intros Hnp Hne Hmax Hcap.
  rewrite signal_cluster_detections_ok by exact Hne.
  destruct (cluster_run_final_any peaks num_peaks signal sample_rate
              max_clusters clusters Hnp Hmax Hcap)
    as [(lo & hi & Hinv) Hexit].
  destruct Hinv as (Hni & Hi & Hnm & Hlp & Hlc & Hproc & Htot & Hsound & _).
  set (s := cluster_run (Z.to_nat num_peaks) peaks num_peaks signal
              sample_rate clusters max_clusters) in *.
  eexists _, _. split; [reflexivity|].
  pose proof (count_true_bounds (cs_processed s)) as Hb. rewrite Hlp in Hb.
  red in Hnp. split; [split|].
  - assert (Hge : forall m, (0 <= Z.of_nat m <= cs_num s)%Z ->
              (Z.of_nat m <= total_samples (cs_clusters s) (Z.of_nat m))%Z).
    { induction m as [|m IH]; intros Hm; [rewrite total_samples_0; lia|].
      specialize (IH ltac:(lia)).
      pose proof (Hsound (Z.of_nat m) ltac:(lia)) as (H1 & _).
      pose proof (total_samples_S (cs_clusters s) (Z.of_nat m) ltac:(lia))
        as Hp.
      replace (Z.of_nat (S m)) with (Z.of_nat m + 1)%Z by lia. lia. }
    specialize (Hge (Z.to_nat (cs_num s))). rewrite Z2Nat.id in Hge by lia.
    apply Hge. lia.
  - lia.
  - intros Hle. rewrite Htot.
    assert (Hend : cs_i s = num_peaks).
    { apply andb_false_iff in Hexit as [E|E]; apply Z.ltb_ge in E; lia. }
    rewrite count_true_all; [lia|].
    intros k Hk. apply Hproc. lia.
Qed.

Lemma signal_cluster_detections_conserves_peaks_witness :
  exists clusters' n,
    signal_cluster_detections true (Some [100; 200; 500]%Z) 3
      (Some echo_signal) 600 200000 (Some (replicate 5 zero_cluster)) 5
      (Some 0%Z) = (0%Z, Some clusters', Some n) /\
    (n <= total_samples clusters' n <= 3)%Z /\
    ((3 <= 5)%Z -> total_samples clusters' n = 3%Z).
Proof.
  apply (signal_cluster_detections_conserves_peaks [100; 200; 500]%Z 3
           echo_signal 600 200000 (replicate 5 zero_cluster) 5 0).
  - unfold is_u32. lia.
  - lia.
  - unfold is_u32. lia.
  - simpl. lia.
Defined.

(** X17.  [signal_cluster_detections] keeps the length of the cluster array,
    never writes the azimuth or elevation of any cluster, and leaves the
    cells from the reported count on as they were. *)
Theorem signal_cluster_detections_frame
    (peaks : list Z) (num_peaks : Z) (signal : list float32_t)
    (length sample_rate : Z) (clusters : list target_cluster_t)
    (max_clusters n0 : Z) :
  is_u32 num_peaks -> num_peaks <> 0%Z -> is_u32 max_clusters ->
  (max_clusters <= Z.of_nat (List.length clusters))%Z ->
  exists clusters' n,
    signal_cluster_detections true (Some peaks) num_peaks (Some signal)
      length sample_rate (Some clusters) max_clusters (Some n0) =
      (0%Z, Some clusters', Some n) /\
    List.length clusters' = List.length clusters /\
    (forall c, cl_azimuth_rad (rdc clusters' c) =
                 cl_azimuth_rad (rdc clusters c) /\
               cl_elevation_rad (rdc clusters' c) =
                 cl_elevation_rad (rdc clusters c)) /\
    (forall c, (n <= c)%Z -> rdc clusters' c = rdc clusters c).
Proof.
  intros Hnp Hne Hmax Hcap.
  rewrite signal_cluster_detections_ok by exact Hne.
  destruct (cluster_run_final_any peaks num_peaks signal sample_rate
              max_clusters clusters Hnp Hmax Hcap)
    as [(lo & hi & Hinv) _].
  destruct Hinv as (_ & _ & _ & _ & Hlc & _ & _ & _ & Hang & Hrest & _).
  eexists _, _. split; [reflexivity|]. split; [exact Hlc|].
  split; [exact Hang|exact Hrest].
Qed.

Lemma signal_cluster_detections_frame_witness :
  exists clusters' n,
    signal_cluster_detections true (Some [100; 200]%Z) 2 (Some echo_signal)
      600 200000 (Some (replicate 5 zero_cluster)) 5 (Some 0%Z) =
      (0%Z, Some clusters', Some n) /\
    List.length clusters' = List.length (replicate 5 zero_cluster) /\
    (forall c, cl_azimuth_rad (rdc clusters' c) =
                 cl_azimuth_rad (rdc (replicate 5 zero_cluster) c) /\
               cl_elevation_rad (rdc clusters' c) =
                 cl_elevation_rad (rdc (replicate 5 zero_cluster) c)) /\
    (forall c, (n <= c)%Z ->
       rdc clusters' c = rdc (replicate 5 zero_cluster) c).
Proof.
  apply (signal_cluster_detections_frame [100; 200]%Z 2 echo_signal 600
           200000 (replicate 5 zero_cluster) 5 0).
  - unfold is_u32. lia.
  - lia.
  - unfold is_u32. lia.
  - simpl. lia.
Defined.

(** ** signal_detect_multi_target: the reported targets *)

Lemma round_trip_range_mono (p q sample_rate : Z) :
  (0 < sample_rate)%Z -> (p <= q)%Z ->
  (round_trip_range p sample_rate <= round_trip_range q sample_rate)%R.
Proof.
  intros Hs Hpq. unfold round_trip_range, SPEED_OF_SOUND.
  apply IZR_le in Hpq. apply IZR_lt in Hs.
  apply Rmult_le_reg_r with (r := (2 * IZR sample_rate)%R); [lra|].
  replace (IZR p * 343 * 100 / (2 * IZR sample_rate) * (2 * IZR sample_rate))%R
    with (IZR p * 343 * 100)%R by (field; lra).
  replace (IZR q * 343 * 100 / (2 * IZR sample_rate) * (2 * IZR sample_rate))%R
    with (IZR q * 343 * 100)%R by (field; lra).
  lra.
Qed.

Lemma reported_nth (peaks : list Z) (num j : Z) :
  (0 <= j < num)%Z -> (num <= Z.of_nat (List.length peaks))%Z ->
  In (rdz peaks j) (reported peaks num).
Proof.
  intros Hj Hn. unfold reported, rdz.
  replace (nth (Z.to_nat j) peaks 0%Z)
    with (nth (Z.to_nat j) (take (Z.to_nat num) peaks) 0%Z).
  - apply nth_In. rewrite length_take. lia.
  - rewrite nth_firstn.
    replace (Z.to_nat j <? Z.to_nat num)%nat with true
      by (symmetry; apply Nat.ltb_lt; lia).
    reflexivity.
Qed.

Lemma copy_clusters_spec (clusters targets : list target_cluster_t) (n : Z) :
  (0 <= n <= MAX_TARGETS)%Z ->
  (MAX_TARGETS <= Z.of_nat (List.length targets))%Z ->
  let res := copy_clusters clusters n targets in
  List.length res = List.length targets /\
  (forall c, (0 <= c < n)%Z ->
     rdc res c =
     {| cl_range_cm := cl_range_cm (rdc clusters c);
        cl_azimuth_rad := 0; cl_elevation_rad := 0;
        cl_power := cl_power (rdc clusters c);
        cl_sample_count := cl_sample_count (rdc clusters c) |}) /\
  (forall c, (n <= c)%Z -> rdc res c = rdc targets c).
Proof.
  intros Hn Hcap. cbv zeta. unfold copy_clusters.
  rewrite Z.min_l by lia.
  destruct (for_loop_fill
              (fun i => {| cl_range_cm := cl_range_cm (rdc clusters i);
                           cl_azimuth_rad := 0; cl_elevation_rad := 0;
                           cl_power := cl_power (rdc clusters i);
                           cl_sample_count := cl_sample_count (rdc clusters i) |})
              zero_cluster (Z.to_nat n) 0%Z targets ltac:(lia))
    as (Hl & Hin & Hout).
  split; [exact Hl|]. split.
  - intros c Hc. unfold rdc at 1. rewrite Hin by lia.
    rewrite Z2Nat.id by lia. reflexivity.
  - intros c Hc. unfold rdc. apply Hout. lia.
Qed.



(** ** sonar_beamform and sonar_detect_target: bounds and frame *)

Lemma Rabs_le_bounds (x M : R) : (Rabs x <= M)%R -> (- M <= x <= M)%R.
Proof. unfold Rabs. destruct (Rcase_abs x); lra. Qed.

Lemma channel_sample_bound (st : sonar_state_t) (M : R) (i src : Z) :
  (0 <= M)%R -> (0 <= i < 4)%Z ->
  (forall i k, (0 <= i < 4)%Z -> (0 <= k < sample_count st)%Z ->
     (Rabs (rd (nth (Z.to_nat i) (filtered_buffer st) []) k) <= M)%R) ->
  (- M <= channel_sample st i src <= M)%R.
Proof.
  intros HM Hi H. unfold channel_sample.
  destruct ((0 <=? src)%Z && (src <? sample_count st)%Z) eqn:E; [|lra].
  apply andb_true_iff in E as [E1 E2].
  apply Z.leb_le in E1. apply Z.ltb_lt in E2.
  apply Rabs_le_bounds, H; lia.
Qed.


Lemma impulse_state_bound (i k : Z) :
  (0 <= i < 4)%Z -> (0 <= k < 8)%Z ->
  (Rabs (rd (nth (Z.to_nat i) (filtered_buffer impulse_state) []) k) <= 1)%R.
Proof.
  intros Hi Hk.
  assert (i = 0 \/ i = 1 \/ i = 2 \/ i = 3)%Z as [ -> | [ -> | [ -> | -> ] ] ] by lia;
  assert (k = 0 \/ k = 1 \/ k = 2 \/ k = 3 \/ k = 4 \/ k = 5 \/ k = 6 \/ k = 7)%Z
    as [ -> | [ -> | [ -> | [ -> | [ -> | [ -> | [ -> | -> ] ] ] ] ] ] ] by lia;
  unfold rd; simpl; unfold Rabs; destruct (Rcase_abs _); lra.
Qed.


Lemma beamform_frame (st : sonar_state_t) (azimuth elevation : R) :
  same_but_output (beamform st azimuth elevation) st.
Proof.
  unfold same_but_output. repeat split; try reflexivity. apply length_beamform.
Qed.

Lemma same_but_output_refl st : same_but_output st st.
Proof. unfold same_but_output. repeat split; reflexivity. Qed.

Lemma same_but_output_trans st1 st2 st3 :
  same_but_output st1 st2 -> same_but_output st2 st3 ->
  same_but_output st1 st3.
Proof.
  unfold same_but_output. intros (?&?&?&?&?&?&?&?) (?&?&?&?&?&?&?&?).
  repeat split; congruence.
Qed.

Lemma beamform_unfold (st : sonar_state_t) (azimuth elevation : R) :
  beamform st azimuth elevation =
  set_beamformed_output st
    (beamformed_output (beamform st azimuth elevation)).
Proof. reflexivity. Qed.

Lemma set_beamformed_output_beamform (st : sonar_state_t)
    (azimuth elevation : R) (out : list R) :
  set_beamformed_output (beamform st azimuth elevation) out =
  set_beamformed_output st out.
Proof. reflexivity. Qed.

(** X20.  The result of [sonar_beamform] does not depend on what the output
    buffer held before: beamforming to one direction after another gives
    the same state as beamforming to the second direction alone. *)
Theorem beamform_overwrites_previous_output
    (st : sonar_state_t) (az1 el1 az2 el2 : R) :
  (0 <= sample_count st < 2 ^ 30)%Z ->
  (sample_count st <= Z.of_nat (List.length (beamformed_output st)))%Z ->
  beamform (beamform st az1 el1) az2 el2 = beamform st az2 el2.
Proof.
  intros HL Hcap.
  assert (Hout : beamformed_output (beamform (beamform st az1 el1) az2 el2) =
                 beamformed_output (beamform st az2 el2)).
  { apply nth_ext with (d := 0%R) (d' := 0%R).
    - rewrite !length_beamform. reflexivity.
    - intros k Hk. rewrite !length_beamform in Hk.
      destruct (le_lt_dec (Z.to_nat (sample_count st)) k) as [Hge|Hlt].
      + rewrite (beamform_tail (beamform st az1 el1)) by assumption.
        rewrite !beamform_tail by assumption. reflexivity.
      + rewrite <- !rd_of_nat.
        rewrite (beamform_output_spec (beamform st az1 el1));
          [|exact HL|rewrite length_beamform; exact Hcap
           |change (sample_count (beamform st az1 el1)) with (sample_count st);
            lia].
        rewrite (beamform_output_spec st) by (assumption || lia).
        apply delay_and_sum_same_input, same_input_beamform. }
  transitivity
    (set_beamformed_output (beamform st az1 el1)
       (beamformed_output (beamform (beamform st az1 el1) az2 el2)));
    [apply beamform_unfold|].
  rewrite Hout, set_beamformed_output_beamform. symmetry.
  apply beamform_unfold.
Qed.

Lemma beamform_overwrites_previous_output_witness :
  beamform (beamform impulse_state 0 0) 1 0 = beamform impulse_state 1 0.
Proof.
  apply (beamform_overwrites_previous_output impulse_state 0 0 1 0).
  - simpl. lia.
  - simpl. lia.
Defined.

Lemma scan_el_body_state (azimuth : R) (e : Z) (s : scan_state) :
  sc_state (scan_el_body azimuth e s) =
  beamform (sc_state s) azimuth (grid_elevation e).
Proof.
  unfold scan_el_body. cbv zeta. fold (grid_elevation e).
  destruct (arm_max_f32 _ _) as [v i]. destruct (Rgtb _ _); reflexivity.
Qed.

Lemma el_loop_frame azimuth n : forall e0 s,
  same_but_output (sc_state (for_loop n e0 (scan_el_body azimuth) s))
    (sc_state s).
Proof.
  induction n as [|n IH]; intros e0 s; simpl; [apply same_but_output_refl|].
  eapply same_but_output_trans; [apply IH|].
  rewrite scan_el_body_state. apply beamform_frame.
Qed.

Lemma az_loop_frame n : forall a0 s,
  same_but_output (sc_state (for_loop n a0 scan_az_body s)) (sc_state s).
Proof.
  induction n as [|n IH]; intros a0 s; [apply same_but_output_refl|].
  rewrite for_loop_S.
  eapply same_but_output_trans; [apply IH|].
  unfold scan_az_body. apply el_loop_frame.
Qed.

Lemma angular_search_frame (st : sonar_state_t) :
  same_but_output (sc_state (angular_search st)) st.
Proof. unfold angular_search. apply (az_loop_frame _ 0%Z). Qed.

Lemma detect_decide_frame (s : scan_state) :
  let st := sc_state s in
  let r := detect_decide s in
  tx_chirp r.2 = tx_chirp st /\ matched_filter r.2 = matched_filter st /\
  rx_buffer r.2 = rx_buffer st /\ filtered_buffer r.2 = filtered_buffer st /\
  beamformed_output r.2 = beamformed_output st /\
  sample_count r.2 = sample_count st /\
  (r.1 = 0 \/ r.1 = -2 \/ r.1 = -3)%Z /\
  (r.1 <> 0%Z ->
   target r.2 = invalidate (target st) /\
   processing_complete r.2 = processing_complete st) /\
  (r.1 = 0%Z -> valid (target r.2) = true /\ processing_complete r.2 = true).
Proof.
  cbv zeta. unfold detect_decide.
  destruct (Rltb (max_power s) DETECTION_THRESHOLD);
    [|destruct (Rltb _ _ || Rgtb _ _)];
    cbn [fst snd];
    (split; [reflexivity|]); (split; [reflexivity|]); (split; [reflexivity|]);
    (split; [reflexivity|]); (split; [reflexivity|]); (split; [reflexivity|]);
    (split; [lia|]);
    (split; [intros H; try lia; split; reflexivity
            |intros H; try lia; split; reflexivity]).
Qed.

Section DetectFrame.
Variable arm_correlate_f32 :
  list R -> Z -> list R -> Z -> list R -> list R.

Lemma matched_filter_mic_frame (st : sonar_state_t) (mic_idx : Z) :
  let st' := matched_filter_mic arm_correlate_f32 st mic_idx in
  tx_chirp st' = tx_chirp st /\ matched_filter st' = matched_filter st /\
  rx_buffer st' = rx_buffer st /\
  List.length (filtered_buffer st') = List.length (filtered_buffer st) /\
  beamformed_output st' = beamformed_output st /\
  target st' = target st /\
  processing_complete st' = processing_complete st /\
  sample_count st' = sample_count st /\
  ((NUM_MICS <= mic_idx)%Z -> st' = st) /\
  (forall k, k <> Z.to_nat mic_idx ->
     nth k (filtered_buffer st') [] = nth k (filtered_buffer st) []).
Proof using Type.
  cbv zeta. unfold matched_filter_mic.
  destruct (NUM_MICS <=? mic_idx)%Z eqn:E.
  - repeat split; reflexivity.
  - apply Z.leb_gt in E.
    cbn [tx_chirp matched_filter rx_buffer filtered_buffer beamformed_output
         target processing_complete sample_count set_filtered_buffer].
    repeat split; try reflexivity.
    + apply length_insert.
    + intros H. lia.
    + intros k Hk. rewrite !nth_lookup, list_lookup_insert_ne by lia.
      reflexivity.
Qed.

Lemma matched_filter_loop_frame n : forall i0 (st : sonar_state_t),
  let st' := for_loop n i0 (fun i st => matched_filter_mic arm_correlate_f32 st i) st in
  tx_chirp st' = tx_chirp st /\ matched_filter st' = matched_filter st /\
  rx_buffer st' = rx_buffer st /\
  List.length (filtered_buffer st') = List.length (filtered_buffer st) /\
  beamformed_output st' = beamformed_output st /\
  target st' = target st /\
  processing_complete st' = processing_complete st /\
  sample_count st' = sample_count st.
Proof using Type.
  induction n as [|n IH]; intros i0 st; cbv zeta.
  - simpl. repeat split; reflexivity.
  - rewrite for_loop_S.
    destruct (IH (i0 + 1)%Z (matched_filter_mic arm_correlate_f32 st i0))
      as (H1 & H2 & H3 & H4 & H5 & H6 & H7 & H8).
    destruct (matched_filter_mic_frame st i0)
      as (G1 & G2 & G3 & G4 & G5 & G6 & G7 & G8 & _).
    repeat split; congruence.
Qed.

(** The buffer that one call of [sonar_matched_filter] writes. *)
Lemma matched_filter_mic_buffer (st : sonar_state_t) (mic_idx : Z) :
  (0 <= mic_idx < NUM_MICS)%Z ->
  (Z.to_nat mic_idx < List.length (filtered_buffer st))%nat ->
  nth (Z.to_nat mic_idx)
    (filtered_buffer (matched_filter_mic arm_correlate_f32 st mic_idx)) [] =
  arm_correlate_f32 (nth (Z.to_nat mic_idx) (rx_buffer st) [])
    (sample_count st) (matched_filter st) SONAR_CHIRP_SAMPLES
    (nth (Z.to_nat mic_idx) (filtered_buffer st) []).
Proof using Type.
  intros Hm Hlen. unfold matched_filter_mic.
  replace (NUM_MICS <=? mic_idx)%Z with false
    by (symmetry; apply Z.leb_gt; lia).
  cbn [filtered_buffer set_filtered_buffer].
  rewrite nth_lookup, list_lookup_insert_eq by exact Hlen. reflexivity.
Qed.

(** The filtered buffers after the loop over the microphones. *)
Lemma matched_filter_loop_buffers n : forall i0 (st : sonar_state_t) (k : nat),
  (0 <= i0)%Z ->
  nth k (filtered_buffer
           (for_loop n i0
              (fun i st => matched_filter_mic arm_correlate_f32 st i) st)) [] =
  if decide ((i0 <= Z.of_nat k < i0 + Z.of_nat n)%Z /\
             (Z.of_nat k < NUM_MICS)%Z /\
             (k < List.length (filtered_buffer st))%nat)
  then arm_correlate_f32 (nth k (rx_buffer st) []) (sample_count st)
         (matched_filter st) SONAR_CHIRP_SAMPLES
         (nth k (filtered_buffer st) [])
  else nth k (filtered_buffer st) [].
Proof using Type.
  induction n as [|n IH]; intros i0 st k Hi0.
  - cbn [for_loop]. destruct (decide _) as [H|H]; [lia|reflexivity].
  - rewrite for_loop_S.
    rewrite IH by lia.
    destruct (matched_filter_mic_frame st i0)
      as (_ & G2 & G3 & G4 & _ & _ & _ & G8 & G9 & G10).
    cbv zeta in G2, G3, G4, G8, G9, G10.
    rewrite G2, G3, G4, G8.
    destruct (decide (Z.of_nat k = i0)) as [Hk|Hk].
    + subst i0.
      destruct (decide ((Z.of_nat k + 1 <= Z.of_nat k < _)%Z /\ _)) as [H|_];
        [lia|].
      destruct (decide (_ /\ _)) as [(_ & H1 & H2)|H].
      * rewrite <- (Nat2Z.id k) at 1.
        rewrite matched_filter_mic_buffer by (rewrite ?Nat2Z.id; lia).
        rewrite Nat2Z.id. reflexivity.
      * assert (Hc : (NUM_MICS <= Z.of_nat k)%Z \/
                     (List.length (filtered_buffer st) <= k)%nat) by lia.
        destruct Hc as [Hc|Hc].
        -- rewrite (G9 Hc). reflexivity.
        -- rewrite !(nth_overflow _ _) by (rewrite ?G4; exact Hc).
           reflexivity.
    + rewrite (G10 k) by lia.
      destruct (decide _) as [H|H], (decide _) as [H'|H'];
        try reflexivity; lia.
Qed.

(** X21.  [sonar_detect_target] returns -1 on a null state and
    otherwise 0, -2 or -3.  It never changes the transmit chirp, the
    matched filter, the receive buffers or the sample count, nor the
    number of filtered buffers and the size of the beamformed buffer.
    Each of the four filtered buffers holds on return what
    [arm_correlate_f32] made of it from its receive buffer and the
    matched filter, and any further buffer is as it was; so every
    filtered buffer keeps its size whenever [arm_correlate_f32] keeps
    the size of its destination.  On a failure the target is the
    previous one marked invalid and [processing_complete] is as it was;
    on 0 the target is valid and [processing_complete] is set. *)
Theorem sonar_detect_target_frame (st : sonar_state_t) :
  sonar_detect_target arm_correlate_f32 None = ((-1)%Z, None) /\
  exists rc st',
    sonar_detect_target arm_correlate_f32 (Some st) = (rc, Some st') /\
    (rc = 0 \/ rc = -2 \/ rc = -3)%Z /\
    tx_chirp st' = tx_chirp st /\ matched_filter st' = matched_filter st /\
    rx_buffer st' = rx_buffer st /\ sample_count st' = sample_count st /\
    List.length (filtered_buffer st') = List.length (filtered_buffer st) /\
    List.length (beamformed_output st') =
      List.length (beamformed_output st) /\
    (rc <> 0%Z ->
     target st' = invalidate (target st) /\
     processing_complete st' = processing_complete st) /\
    (rc = 0%Z -> valid (target st') = true /\ processing_complete st' = true) /\
    (forall k, (k < Z.to_nat NUM_MICS)%nat ->
       (k < List.length (filtered_buffer st))%nat ->
       nth k (filtered_buffer st') [] =
       arm_correlate_f32 (nth k (rx_buffer st) []) (sample_count st)
         (matched_filter st) SONAR_CHIRP_SAMPLES
         (nth k (filtered_buffer st) [])) /\
    (forall k, (Z.to_nat NUM_MICS <= k)%nat ->
       nth k (filtered_buffer st') [] = nth k (filtered_buffer st) []) /\
    ((forall pSrcA srcALen pSrcB srcBLen pDst,
        List.length (arm_correlate_f32 pSrcA srcALen pSrcB srcBLen pDst) =
        List.length pDst) ->
     forall k, List.length (nth k (filtered_buffer st') []) =
               List.length (nth k (filtered_buffer st) [])).
Proof using Type.
  split; [reflexivity|].
  unfold sonar_detect_target.
  destruct (matched_filter_loop_frame (Z.to_nat NUM_MICS) 0%Z st) as (H1 & H2 & H3 & H4 & H5 & H6 & H7 & H8).
  pose proof (fun k => matched_filter_loop_buffers (Z.to_nat NUM_MICS) 0%Z st k
                         ltac:(lia)) as Hbuf.
  set (st1 := for_loop (Z.to_nat NUM_MICS) 0%Z
                (fun i st => matched_filter_mic arm_correlate_f32 st i) st) in *.
  destruct (angular_search_frame st1)
    as (G1 & G2 & G3 & G4 & G5 & G6 & G7 & G8).
  destruct (detect_decide_frame (angular_search st1))
    as (D1 & D2 & D3 & D4 & D5 & D6 & D7 & D8 & D9).
  destruct (detect_decide (angular_search st1)) as [rc st2].
  cbn [fst snd] in *.
  assert (Hf : filtered_buffer st2 = filtered_buffer st1) by congruence.
  assert (Hin : forall k, (k < Z.to_nat NUM_MICS)%nat ->
            (k < List.length (filtered_buffer st))%nat ->
            nth k (filtered_buffer st2) [] =
            arm_correlate_f32 (nth k (rx_buffer st) []) (sample_count st)
              (matched_filter st) SONAR_CHIRP_SAMPLES
              (nth k (filtered_buffer st) [])).
  { intros k Hk Hl. rewrite Hf, Hbuf.
    destruct (decide _) as [_|H]; [reflexivity|].
    exfalso. apply H. unfold NUM_MICS in *. lia. }
  assert (Hout : forall k, (Z.to_nat NUM_MICS <= k)%nat ->
            nth k (filtered_buffer st2) [] = nth k (filtered_buffer st) []).
  { intros k Hk. rewrite Hf, Hbuf.
    destruct (decide _) as [H|_]; [|reflexivity].
    unfold NUM_MICS in *. lia. }
  exists rc, st2. split; [reflexivity|]. split; [exact D7|].
  split; [congruence|]. split; [congruence|]. split; [congruence|].
  split; [congruence|]. split; [congruence|]. split; [congruence|].
  split; [|split; [|split; [exact Hin|split; [exact Hout|]]]].
  - intros H. destruct (D8 H) as [Ht Hp]. split; congruence.
  - apply D9.
  - intros Hcorr k.
    destruct (le_lt_dec (Z.to_nat NUM_MICS) k) as [Hk|Hk];
      [rewrite Hout by exact Hk; reflexivity|].
    destruct (le_lt_dec (List.length (filtered_buffer st)) k) as [Hl|Hl].
    + rewrite !nth_overflow; [reflexivity|exact Hl|].
      rewrite Hf, H4. exact Hl.
    + rewrite Hin by assumption. apply Hcorr.
Qed.

End DetectFrame.

Lemma In_zrange (k : Z) n : forall j, In k (zrange j n) -> (j <= k < j + Z.of_nat n)%Z.
Proof.
  induction n as [|n IH]; intros j; simpl; [tauto|].
  intros [<-|H]; [lia|]. specialize (IH _ H). lia.
Qed.

Lemma In_grid (g : R * R) :
  In g grid ->
  exists a e, (0 <= a < BEAMFORM_AZIMUTH_STEPS)%Z /\
              (0 <= e < BEAMFORM_ELEVATION_STEPS)%Z /\
              g = (grid_azimuth a, grid_elevation e).
Proof.
  unfold grid. intros H. apply in_flat_map in H as (a & Ha & H).
  apply in_map_iff in H as (e & <- & He).
  apply In_zrange in Ha, He. exists a, e.
  unfold BEAMFORM_AZIMUTH_STEPS, BEAMFORM_ELEVATION_STEPS in *.
  simpl in Ha, He. split; [lia|]. split; [lia|reflexivity].
Qed.

Lemma grid_azimuth_range (a : Z) :
  (0 <= a < BEAMFORM_AZIMUTH_STEPS)%Z ->
  (BEAMFORM_AZIMUTH_MIN <= grid_azimuth a < BEAMFORM_AZIMUTH_MAX)%R.
Proof.
  unfold BEAMFORM_AZIMUTH_STEPS. intros [H0 H1].
  apply IZR_le in H0. apply IZR_lt in H1.
  unfold grid_azimuth, az_step, BEAMFORM_AZIMUTH_MIN, BEAMFORM_AZIMUTH_MAX,
    BEAMFORM_AZIMUTH_STEPS.
  pose proof PI_RGT_0 as Hpi.
  replace (- PI / 2 + IZR a * ((PI / 2 - - PI / 2) / 20))%R
    with (- PI / 2 + IZR a * (PI / 20))%R by field.
  split; nra.
Qed.

Lemma grid_elevation_range (e : Z) :
  (0 <= e < BEAMFORM_ELEVATION_STEPS)%Z ->
  (BEAMFORM_ELEVATION_MIN <= grid_elevation e < BEAMFORM_ELEVATION_MAX)%R.
Proof.
  unfold BEAMFORM_ELEVATION_STEPS. intros [H0 H1].
  apply IZR_le in H0. apply IZR_lt in H1.
  unfold grid_elevation, el_step, BEAMFORM_ELEVATION_MIN,
    BEAMFORM_ELEVATION_MAX, BEAMFORM_ELEVATION_STEPS.
  pose proof PI_RGT_0 as Hpi.
  replace (- PI / 4 + IZR e * ((PI / 4 - - PI / 4) / 20))%R
    with (- PI / 4 + IZR e * (PI / 40))%R by field.
  split; nra.
Qed.

Lemma point_peak_index (st : sonar_state_t) (g : R * R) :
  (1 <= sample_count st)%Z ->
  (sample_count st <= Z.of_nat (List.length (beamformed_output st)))%Z ->
  (0 <= (point_peak st g).2 < sample_count st)%Z.
Proof.
  intros HL Hcap. unfold point_peak.
  destruct (arm_max_f32_first_max
              (beamformed_output (beamform st g.1 g.2)) (sample_count st))
    as (i & Hi & (Hlt & _)).
  { intros E. apply (f_equal (@List.length R)) in E.
    unfold block in E. rewrite length_take, length_beamform in E.
    simpl in E. lia. }
  unfold block in Hlt. rewrite length_take, length_beamform in Hlt.
  destruct (arm_max_f32 _ _) as [v idx]. cbn [fst snd] in *. lia.
Qed.

Section DetectBounds.
Variable arm_correlate_f32 :
  list R -> Z -> list R -> Z -> list R -> list R.

End DetectBounds.


(** ** sonar_init *)

Lemma length_malloc_f32 r count b :
  malloc_f32 r count = Some b -> List.length b = Z.to_nat count.
Proof.
  unfold malloc_f32. destruct r; [|discriminate].
  intros H. injection H as <-. rewrite length_map, length_seq. reflexivity.
Qed.

Lemma malloc_f32_some r count :
  r <> None -> exists b, malloc_f32 r count = Some b.
Proof. destruct r; [eexists; reflexivity|done]. Qed.

Lemma malloc_f32_none r count :
  malloc_f32 r count = None <-> r = None.
Proof. destruct r; simpl; split; congruence. Qed.

Lemma length_malloc_f32_Z r count b :
  (0 <= count)%Z -> malloc_f32 r count = Some b ->
  Z.of_nat (List.length b) = count.
Proof. intros Hc H. apply length_malloc_f32 in H. lia. Qed.

(** With the four microphone slots present and the eight allocations
    successful the loop fills every slot. *)
Lemma sonar_init_mics_ok heap (rx filt : list (option (list R))) :
  List.length rx = 4%nat -> List.length filt = 4%nat ->
  (forall k, (3 <= k < 11)%nat -> heap k <> None) ->
  exists r0 r1 r2 r3 f0 f1 f2 f3,
    sonar_init_mics 4 0%Z heap rx filt =
      (true, [Some r0; Some r1; Some r2; Some r3],
             [Some f0; Some f1; Some f2; Some f3]) /\
    Forall (fun b => Z.of_nat (List.length b) = SONAR_MAX_SAMPLES)
           [r0; r1; r2; r3] /\
    Forall (fun b => Z.of_nat (List.length b) =
                     (SONAR_MAX_SAMPLES + SONAR_CHIRP_SAMPLES)%Z)
           [f0; f1; f2; f3].
Proof.
  intros Hrx Hf Hheap.
  destruct rx as [|a0 [|a1 [|a2 [|a3 [|]]]]]; try discriminate.
  destruct filt as [|b0 [|b1 [|b2 [|b3 [|]]]]]; try discriminate.
  destruct (malloc_f32_some (heap 3%nat) SONAR_MAX_SAMPLES) as [r0 E0];
    [apply Hheap; lia|].
  destruct (malloc_f32_some (heap 5%nat) SONAR_MAX_SAMPLES) as [r1 E1];
    [apply Hheap; lia|].
  destruct (malloc_f32_some (heap 7%nat) SONAR_MAX_SAMPLES) as [r2 E2];
    [apply Hheap; lia|].
  destruct (malloc_f32_some (heap 9%nat) SONAR_MAX_SAMPLES) as [r3 E3];
    [apply Hheap; lia|].
  destruct (malloc_f32_some (heap 4%nat) (SONAR_MAX_SAMPLES + SONAR_CHIRP_SAMPLES))
    as [f0 F0]; [apply Hheap; lia|].
  destruct (malloc_f32_some (heap 6%nat) (SONAR_MAX_SAMPLES + SONAR_CHIRP_SAMPLES))
    as [f1 F1]; [apply Hheap; lia|].
  destruct (malloc_f32_some (heap 8%nat) (SONAR_MAX_SAMPLES + SONAR_CHIRP_SAMPLES))
    as [f2 F2]; [apply Hheap; lia|].
  destruct (malloc_f32_some (heap 10%nat) (SONAR_MAX_SAMPLES + SONAR_CHIRP_SAMPLES))
    as [f3 F3]; [apply Hheap; lia|].
  exists r0, r1, r2, r3, f0, f1, f2, f3.
  split; [|split].
  - cbn [sonar_init_mics].
    change (Z.to_nat (3 + 2 * 0)) with 3%nat.
    change (Z.to_nat (4 + 2 * 0)) with 4%nat.
    change (Z.to_nat (3 + 2 * (0 + 1))) with 5%nat.
    change (Z.to_nat (4 + 2 * (0 + 1))) with 6%nat.
    change (Z.to_nat (3 + 2 * (0 + 1 + 1))) with 7%nat.
    change (Z.to_nat (4 + 2 * (0 + 1 + 1))) with 8%nat.
    change (Z.to_nat (3 + 2 * (0 + 1 + 1 + 1))) with 9%nat.
    change (Z.to_nat (4 + 2 * (0 + 1 + 1 + 1))) with 10%nat.
    rewrite E0, E1, E2, E3, F0, F1, F2, F3. reflexivity.
  - repeat constructor;
      (eapply length_malloc_f32_Z; [|eassumption]; vm_compute; discriminate).
  - repeat constructor;
      (eapply length_malloc_f32_Z; [|eassumption]; vm_compute; discriminate).
Qed.

Lemma sonar_init_mics_true heap rx filt rx' filt' :
  sonar_init_mics 4 0%Z heap rx filt = (true, rx', filt') ->
  forall k, (3 <= k < 11)%nat -> heap k <> None.
Proof.
  cbn [sonar_init_mics].
  change (Z.to_nat (3 + 2 * 0)) with 3%nat.
  change (Z.to_nat (4 + 2 * 0)) with 4%nat.
  change (Z.to_nat (3 + 2 * (0 + 1))) with 5%nat.
  change (Z.to_nat (4 + 2 * (0 + 1))) with 6%nat.
  change (Z.to_nat (3 + 2 * (0 + 1 + 1))) with 7%nat.
  change (Z.to_nat (4 + 2 * (0 + 1 + 1))) with 8%nat.
  change (Z.to_nat (3 + 2 * (0 + 1 + 1 + 1))) with 9%nat.
  change (Z.to_nat (4 + 2 * (0 + 1 + 1 + 1))) with 10%nat.
  destruct (heap 3%nat) eqn:E3; [|discriminate].
  destruct (heap 4%nat) eqn:E4; [|discriminate].
  destruct (heap 5%nat) eqn:E5; [|discriminate].
  destruct (heap 6%nat) eqn:E6; [|discriminate].
  destruct (heap 7%nat) eqn:E7; [|discriminate].
  destruct (heap 8%nat) eqn:E8; [|discriminate].
  destruct (heap 9%nat) eqn:E9; [|discriminate].
  destruct (heap 10%nat) eqn:E10; [|discriminate].
  intros _ k Hk.
  assert (k = 3 \/ k = 4 \/ k = 5 \/ k = 6 \/ k = 7 \/ k = 8 \/ k = 9 \/
          k = 10)%nat as [ -> | [ -> | [ -> | [ -> | [ -> | [ -> | [ -> | -> ] ] ] ] ] ] ]
    by lia; congruence.
Qed.

Lemma SONAR_CHIRP_SAMPLES_eq : SONAR_CHIRP_SAMPLES = 200%Z.
Proof. reflexivity. Qed.

Lemma SONAR_MAX_SAMPLES_eq : SONAR_MAX_SAMPLES = 5830%Z.
Proof. reflexivity. Qed.

(** X23.  When all eleven allocations succeed, [sonar_init] returns 0 and leaves
    a state without null pointers: chirp and matched filter of
    [SONAR_CHIRP_SAMPLES] samples, the matched filter being the chirp
    reversed in time, four receive buffers of [SONAR_MAX_SAMPLES] samples,
    four filtered buffers of [SONAR_MAX_SAMPLES + SONAR_CHIRP_SAMPLES]
    samples, no target, no samples; [sonar_get_target] on it returns -2. *)
Theorem sonar_init_ready (st : sonar_state_raw)
    (heap : nat -> option (nat -> float32_t)) :
  List.length (raw_rx_buffer st) = 4%nat ->
  List.length (raw_filtered_buffer st) = 4%nat ->
  (forall k, (k < 11)%nat -> heap k <> None) ->
  exists r' st',
    sonar_init (Some st) heap = (0%Z, Some r') /\
    sonar_state_of r' = Some st' /\
    Z.of_nat (List.length (tx_chirp st')) = SONAR_CHIRP_SAMPLES /\
    Z.of_nat (List.length (matched_filter st')) = SONAR_CHIRP_SAMPLES /\
    (forall i, (0 <= i < SONAR_CHIRP_SAMPLES)%Z ->
       rd (tx_chirp st') i = chirp_sample SONAR_CHIRP_SAMPLES i /\
       rd (matched_filter st') i =
         rd (tx_chirp st') (SONAR_CHIRP_SAMPLES - 1 - i)) /\
    Z.of_nat (List.length (beamformed_output st')) = SONAR_MAX_SAMPLES /\
    List.length (rx_buffer st') = 4%nat /\
    Forall (fun b => Z.of_nat (List.length b) = SONAR_MAX_SAMPLES)
           (rx_buffer st') /\
    List.length (filtered_buffer st') = 4%nat /\
    Forall (fun b => Z.of_nat (List.length b) =
                     (SONAR_MAX_SAMPLES + SONAR_CHIRP_SAMPLES)%Z)
           (filtered_buffer st') /\
    valid (target st') = false /\ sample_count st' = 0%Z /\
    processing_complete st' = false /\
    (forall t0, sonar_get_target (Some st') (Some t0) = ((-2)%Z, Some t0)).
Proof.
  intros Hrx Hf Hheap. unfold sonar_init.
  destruct (sonar_init_mics_ok heap _ _ Hrx Hf ltac:(intros; apply Hheap; lia))
    as (r0 & r1 & r2 & r3 & f0 & f1 & f2 & f3 & Hm & Hlr & Hlf).
  change (Z.to_nat NUM_MICS) with 4%nat. rewrite Hm. cbn [negb].
  destruct (malloc_f32_some (heap 0%nat) SONAR_CHIRP_SAMPLES) as [tx Etx];
    [apply Hheap; lia|].
  destruct (malloc_f32_some (heap 1%nat) SONAR_CHIRP_SAMPLES) as [mf Emf];
    [apply Hheap; lia|].
  destruct (malloc_f32_some (heap 2%nat) SONAR_MAX_SAMPLES) as [bo Ebo];
    [apply Hheap; lia|].
  rewrite Etx, Emf, Ebo.
  apply length_malloc_f32_Z in Etx; [|vm_compute; discriminate].
  apply length_malloc_f32_Z in Emf; [|vm_compute; discriminate].
  apply length_malloc_f32_Z in Ebo; [|vm_compute; discriminate].
  assert (Hn : (1 <= SONAR_CHIRP_SAMPLES < 2 ^ 32)%Z)
    by (rewrite SONAR_CHIRP_SAMPLES_eq; lia).
  eexists _, _. split; [reflexivity|].
  unfold sonar_state_of.
  cbn [raw_tx_chirp raw_matched_filter raw_beamformed_output raw_rx_buffer
       raw_filtered_buffer raw_target raw_processing_complete
       raw_sample_count buffers_of].
  split; [reflexivity|].
  cbn [tx_chirp matched_filter rx_buffer filtered_buffer beamformed_output
       target processing_complete sample_count valid].
  destruct (for_loop_fill
              (fun i => rd (sonar_generate_chirp tx SONAR_CHIRP_SAMPLES)
                           (u32 (SONAR_CHIRP_SAMPLES - 1 - i)))
              0%R (Z.to_nat SONAR_CHIRP_SAMPLES) 0%Z mf ltac:(lia))
    as (Hl & Hin & _).
  assert (Hchirp : forall i, (0 <= i < SONAR_CHIRP_SAMPLES)%Z ->
            rd (sonar_generate_chirp tx SONAR_CHIRP_SAMPLES) i =
            chirp_sample SONAR_CHIRP_SAMPLES i).
  { intros i Hi. rewrite sonar_generate_chirp_cells by exact Hn.
    unfold rd. rewrite cells_in by lia. f_equal. lia. }
  split.
  { rewrite sonar_generate_chirp_cells by exact Hn.
    rewrite cells_len. exact Etx. }
  split; [rewrite Hl; exact Emf|].
  split.
  { intros i Hi. split; [apply Hchirp; exact Hi|].
    unfold rd at 1. rewrite Hin by lia.
    rewrite Z2Nat.id by lia. rewrite u32_id by (red; lia). reflexivity. }
  split; [exact Ebo|]. split; [reflexivity|]. split; [exact Hlr|].
  split; [reflexivity|]. split; [exact Hlf|].
  split; [reflexivity|]. split; [reflexivity|]. split; [reflexivity|].
  intros t0. reflexivity.
Qed.

Lemma sonar_init_ready_witness :
  exists r' st',
    sonar_init (Some blank_state) ready_heap = (0%Z, Some r') /\
    sonar_state_of r' = Some st' /\
    Z.of_nat (List.length (tx_chirp st')) = SONAR_CHIRP_SAMPLES /\
    Z.of_nat (List.length (matched_filter st')) = SONAR_CHIRP_SAMPLES /\
    (forall i, (0 <= i < SONAR_CHIRP_SAMPLES)%Z ->
       rd (tx_chirp st') i = chirp_sample SONAR_CHIRP_SAMPLES i /\
       rd (matched_filter st') i =
         rd (tx_chirp st') (SONAR_CHIRP_SAMPLES - 1 - i)) /\
    Z.of_nat (List.length (beamformed_output st')) = SONAR_MAX_SAMPLES /\
    List.length (rx_buffer st') = 4%nat /\
    Forall (fun b => Z.of_nat (List.length b) = SONAR_MAX_SAMPLES)
           (rx_buffer st') /\
    List.length (filtered_buffer st') = 4%nat /\
    Forall (fun b => Z.of_nat (List.length b) =
                     (SONAR_MAX_SAMPLES + SONAR_CHIRP_SAMPLES)%Z)
           (filtered_buffer st') /\
    valid (target st') = false /\ sample_count st' = 0%Z /\
    processing_complete st' = false /\
    (forall t0, sonar_get_target (Some st') (Some t0) = ((-2)%Z, Some t0)).
Proof.
  apply (sonar_init_ready blank_state ready_heap).
  - reflexivity.
  - reflexivity.
  - intros k Hk. discriminate.
Defined.

Lemma sonar_init_mics_false heap rx filt rx' filt' :
  sonar_init_mics 4 0%Z heap rx filt = (false, rx', filt') ->
  exists k, (3 <= k < 11)%nat /\ heap k = None.
Proof.
  cbn [sonar_init_mics].
  change (Z.to_nat (3 + 2 * 0)) with 3%nat.
  change (Z.to_nat (4 + 2 * 0)) with 4%nat.
  change (Z.to_nat (3 + 2 * (0 + 1))) with 5%nat.
  change (Z.to_nat (4 + 2 * (0 + 1))) with 6%nat.
  change (Z.to_nat (3 + 2 * (0 + 1 + 1))) with 7%nat.
  change (Z.to_nat (4 + 2 * (0 + 1 + 1))) with 8%nat.
  change (Z.to_nat (3 + 2 * (0 + 1 + 1 + 1))) with 9%nat.
  change (Z.to_nat (4 + 2 * (0 + 1 + 1 + 1))) with 10%nat.
  destruct (heap 3%nat) eqn:E3; [|intros _; exists 3%nat; split; [lia|done]].
  destruct (heap 4%nat) eqn:E4; [|intros _; exists 4%nat; split; [lia|done]].
  destruct (heap 5%nat) eqn:E5; [|intros _; exists 5%nat; split; [lia|done]].
  destruct (heap 6%nat) eqn:E6; [|intros _; exists 6%nat; split; [lia|done]].
  destruct (heap 7%nat) eqn:E7; [|intros _; exists 7%nat; split; [lia|done]].
  destruct (heap 8%nat) eqn:E8; [|intros _; exists 8%nat; split; [lia|done]].
  destruct (heap 9%nat) eqn:E9; [|intros _; exists 9%nat; split; [lia|done]].
  destruct (heap 10%nat) eqn:E10; [|intros _; exists 10%nat; split; [lia|done]].
  discriminate.
Qed.

(** X24.  [sonar_init] returns -1 on a null state and otherwise 0 or -2; it
    returns 0 exactly when every one of the eleven allocations succeeds.
    When it returns -2 the target, [processing_complete] and the sample
    count are not initialised: they hold what they held before. *)
Theorem sonar_init_return_code (st : sonar_state_raw)
    (heap : nat -> option (nat -> float32_t)) :
  sonar_init None heap = ((-1)%Z, None) /\
  exists rc r',
    sonar_init (Some st) heap = (rc, Some r') /\
    (rc = 0 \/ rc = -2)%Z /\
    (rc = 0%Z <-> forall k, (k < 11)%nat -> heap k <> None) /\
    (rc = (-2)%Z ->
     raw_target r' = raw_target st /\
     raw_processing_complete r' = raw_processing_complete st /\
     raw_sample_count r' = raw_sample_count st).
Proof.
  split; [reflexivity|].
  unfold sonar_init. change (Z.to_nat NUM_MICS) with 4%nat.
  destruct (sonar_init_mics 4 0%Z heap (raw_rx_buffer st)
              (raw_filtered_buffer st)) as [[ok rx] filt] eqn:Em.
  assert (Hfail : forall r1 : sonar_state_raw,
            (exists k, (k < 11)%nat /\ heap k = None) ->
            raw_target r1 = raw_target st ->
            raw_processing_complete r1 = raw_processing_complete st ->
            raw_sample_count r1 = raw_sample_count st ->
            exists rc0 r', ((-2)%Z, Some r1) = (rc0, Some r') /\
              (rc0 = 0 \/ rc0 = -2)%Z /\
              (rc0 = 0%Z <-> forall k, (k < 11)%nat -> heap k <> None) /\
              (rc0 = (-2)%Z ->
               raw_target r' = raw_target st /\
               raw_processing_complete r' = raw_processing_complete st /\
               raw_sample_count r' = raw_sample_count st)).
  { intros r1 (k & Hk & Hnone) H1 H2 H3.
    exists (-2)%Z, r1. split; [reflexivity|]. split; [right; reflexivity|].
    split; [|intros _; done].
    split; [lia|]. intros H. exfalso. exact (H k Hk Hnone). }
  destruct ok; cbn [negb].
  2:{ apply Hfail; try reflexivity.
      destruct (sonar_init_mics_false _ _ _ _ _ Em) as (k & Hk & Hn).
      exists k. split; [lia|exact Hn]. }
  pose proof (sonar_init_mics_true _ _ _ _ _ Em) as Hmics.
  unfold malloc_f32 at 1 2 3.
  destruct (heap 0%nat) eqn:E0;
    [|apply Hfail; try reflexivity; exists 0%nat; split; [lia|exact E0]].
  destruct (heap 1%nat) eqn:E1;
    [|apply Hfail; try reflexivity; exists 1%nat; split; [lia|exact E1]].
  destruct (heap 2%nat) eqn:E2;
    [|apply Hfail; try reflexivity; exists 2%nat; split; [lia|exact E2]].
  eexists _, _. split; [reflexivity|]. split; [left; reflexivity|].
  split; [|intros H; lia].
  split; [|reflexivity]. intros _ k Hk.
  destruct (le_lt_dec 3 k) as [Hge|Hlt]; [apply Hmics; lia|].
  assert (k = 0 \/ k = 1 \/ k = 2)%nat as [ -> | [ -> | -> ] ] by lia; congruence.
Qed.

(** ** The data logger *)

Lemma ring_index_ne (r c k : Z) :
  (0 <= r < 1000)%Z -> (0 <= k < c)%Z -> (c < 1000)%Z ->
  ((r + k) mod 1000 <> (r + c) mod 1000)%Z.
Proof. intros. Z.to_euclidean_division_equations. lia. Qed.

Lemma ring_index_range (x : Z) : (0 <= x mod 1000 < 1000)%Z.
Proof. apply Z.mod_pos_bound. lia. Qed.

Lemma ring_index_next (r k : Z) :
  (0 <= r)%Z -> (0 <= k)%Z ->
  (((r + 1) mod 1000 + k) mod 1000 = (r + (k + 1)) mod 1000)%Z.
Proof. intros. Z.to_euclidean_division_equations. lia. Qed.

Lemma logger_store_appends (lg : data_logger_t) (entry : log_entry_t) :
  logger_wf lg -> (entry_count lg < LOGGER_MAX_ENTRIES)%Z ->
  exists lg',
    logger_store lg entry = (0%Z, Some lg') /\
    logger_wf lg' /\
    logger_queue lg' = logger_queue lg ++ [entry] /\
    entry_count lg' = (entry_count lg + 1)%Z /\
    enabled lg' = enabled lg /\ overflow lg' = overflow lg.
Proof.
  intros (Hl & Hr & Hc & Hw) Hfree. unfold logger_store.
  unfold LOGGER_MAX_ENTRIES in *.
  replace (1000 <=? entry_count lg)%Z with false
    by (symmetry; apply Z.leb_gt; lia).
  pose proof (ring_index_range (read_index lg + entry_count lg)) as Hwi.
  rewrite <- Hw in Hwi.
  rewrite (u32_id (write_index lg + 1)) by (red; lia).
  rewrite (u32_id (entry_count lg + 1)) by (red; lia).
  eexists. split; [reflexivity|].
  split; [|split; [|split; [reflexivity|split; reflexivity]]].
  - unfold logger_wf, LOGGER_MAX_ENTRIES.
    cbn [entries write_index read_index entry_count].
    rewrite length_insert. split; [exact Hl|]. split; [exact Hr|].
    split; [lia|]. rewrite Hw. Z.to_euclidean_division_equations. lia.
  - unfold logger_queue, LOGGER_MAX_ENTRIES.
    cbn [entries write_index read_index entry_count].
    replace (Z.to_nat (entry_count lg + 1))
      with (S (Z.to_nat (entry_count lg))) by lia.
    rewrite seq_S, map_app. cbn [map Nat.add]. f_equal.
    + apply map_ext_in. intros k Hk. apply in_seq in Hk.
      rewrite nth_lookup, list_lookup_insert_ne; [rewrite <- nth_lookup; done|].
      pose proof (ring_index_ne (read_index lg) (entry_count lg) (Z.of_nat k)
                    Hr ltac:(lia) Hfree) as Hne.
      pose proof (ring_index_range (read_index lg + Z.of_nat k)).
      rewrite Hw. lia.
    + f_equal. rewrite Z2Nat.id by lia. rewrite <- Hw.
      rewrite nth_lookup, list_lookup_insert_eq by lia. reflexivity.
Qed.

(** Logging appends to the queue of waiting entries. *)
Lemma logger_log_appends_spec (lg : data_logger_t) (tick : Z) :
  logger_wf lg -> enabled lg = true ->
  (entry_count lg < LOGGER_MAX_ENTRIES)%Z ->
  (forall target confidence, exists lg',
     logger_log_target (Some lg) (Some target) confidence tick =
       (0%Z, Some lg') /\
     logger_wf lg' /\
     logger_queue lg' =
       logger_queue lg ++
       [{| entry_type := LOG_ENTRY_TARGET_DETECTION;
           entry_data := data_target tick target confidence |}] /\
     logger_get_count (Some lg') = (logger_get_count (Some lg) + 1)%Z) /\
  (forall cmd vehicle_state, exists lg',
     logger_log_guidance (Some lg) (Some cmd) (Some vehicle_state) tick =
       (0%Z, Some lg') /\
     logger_wf lg' /\
     logger_queue lg' =
       logger_queue lg ++
       [{| entry_type := LOG_ENTRY_GUIDANCE_CMD;
           entry_data := data_guidance tick cmd vehicle_state |}] /\
     logger_get_count (Some lg') = (logger_get_count (Some lg) + 1)%Z) /\
  (forall p0 p1 p2 p3 sample_count beamformed beamformed_length, exists lg',
     logger_log_sonar (Some lg) [p0; p1; p2; p3] sample_count beamformed
       beamformed_length tick = (0%Z, Some lg') /\
     logger_wf lg' /\
     logger_queue lg' =
       logger_queue lg ++
       [{| entry_type := LOG_ENTRY_SONAR_DATA;
           entry_data := data_sonar tick [p0; p1; p2; p3] sample_count
                           beamformed beamformed_length |}] /\
     logger_get_count (Some lg') = (logger_get_count (Some lg) + 1)%Z).
Proof.
  intros Hwf Hen Hfree. split; [|split].
  - intros target confidence. unfold logger_log_target. rewrite Hen. cbn [negb].
    destruct (logger_store_appends lg
                {| entry_type := LOG_ENTRY_TARGET_DETECTION;
                   entry_data := data_target tick target confidence |}
                Hwf Hfree) as (lg' & -> & H1 & H2 & H3 & _).
    exists lg'. done.
  - intros cmd vehicle_state. unfold logger_log_guidance. rewrite Hen.
    cbn [negb].
    destruct (logger_store_appends lg
                {| entry_type := LOG_ENTRY_GUIDANCE_CMD;
                   entry_data := data_guidance tick cmd vehicle_state |}
                Hwf Hfree) as (lg' & -> & H1 & H2 & H3 & _).
    exists lg'. done.
  - intros p0 p1 p2 p3 sample_count beamformed beamformed_length.
    unfold logger_log_sonar. rewrite Hen. cbn [negb].
    change (map (fun i => rdz [p0; p1; p2; p3] i) (indices NUM_MICS))
      with [p0; p1; p2; p3].
    destruct (logger_store_appends lg
                {| entry_type := LOG_ENTRY_SONAR_DATA;
                   entry_data := data_sonar tick [p0; p1; p2; p3] sample_count
                                   beamformed beamformed_length |}
                Hwf Hfree) as (lg' & -> & H1 & H2 & H3 & _).
    exists lg'. done.
Qed.

Lemma zero_logger_wf : logger_wf zero_logger.
Proof.
  unfold logger_wf, zero_logger, LOGGER_MAX_ENTRIES.
  cbn [entries write_index read_index entry_count].
  rewrite length_replicate. split; [lia|]. split; [lia|]. split; [lia|].
  reflexivity.
Qed.

Lemma logger_set_enabled_wf (lg : data_logger_t) (b : bool) :
  logger_wf lg ->
  exists lg', logger_set_enabled (Some lg) b = Some lg' /\ logger_wf lg' /\
              enabled lg' = b /\ logger_queue lg' = logger_queue lg /\
              entry_count lg' = entry_count lg.
Proof. intros H. eexists. split; [reflexivity|]. done. Qed.

(** Reading returns the oldest waiting entry. *)
Lemma logger_read_spec (lg : data_logger_t) (e0 : log_entry_t) :
  logger_wf lg ->
  (logger_queue lg = [] ->
   logger_read (Some lg) (Some e0) = ((-2)%Z, Some lg, Some e0)) /\
  (forall e q, logger_queue lg = e :: q ->
     exists lg',
       logger_read (Some lg) (Some e0) = (0%Z, Some lg', Some e) /\
       logger_wf lg' /\ logger_queue lg' = q /\
       logger_get_count (Some lg') = (logger_get_count (Some lg) - 1)%Z /\
       enabled lg' = enabled lg /\ overflow lg' = overflow lg).
Proof.
  intros (Hl & Hr & Hc & Hw). unfold LOGGER_MAX_ENTRIES in *. split.
  - intros Hq. unfold logger_read.
    assert (entry_count lg = 0)%Z as ->.
    { apply (f_equal (@List.length log_entry_t)) in Hq.
      unfold logger_queue in Hq. rewrite length_map, length_seq in Hq.
      simpl in Hq. lia. }
    reflexivity.
  - intros e q Hq. unfold logger_read.
    assert (Hpos : (1 <= entry_count lg)%Z).
    { apply (f_equal (@List.length log_entry_t)) in Hq.
      unfold logger_queue in Hq. rewrite length_map, length_seq in Hq.
      simpl in Hq. lia. }
    replace (entry_count lg =? 0)%Z with false
      by (symmetry; apply Z.eqb_neq; lia).
    rewrite (u32_id (read_index lg + 1)) by (red; lia).
    rewrite (u32_id (entry_count lg - 1)) by (red; lia).
    unfold logger_queue, LOGGER_MAX_ENTRIES in Hq.
    replace (Z.to_nat (entry_count lg))
      with (S (Z.to_nat (entry_count lg - 1))) in Hq by lia.
    rewrite <- cons_seq in Hq. cbn [map] in Hq.
    injection Hq as He Hq.
    change (Z.of_nat 0) with 0%Z in He.
    rewrite Z.add_0_r, Z.mod_small in He by lia.
    eexists. split; [rewrite He; reflexivity|].
    split; [|split; [|split; [reflexivity|split; reflexivity]]].
    + unfold logger_wf, LOGGER_MAX_ENTRIES.
      cbn [entries write_index read_index entry_count].
      split; [exact Hl|]. split; [apply ring_index_range|]. split; [lia|].
      rewrite Hw. Z.to_euclidean_division_equations. lia.
    + unfold logger_queue, LOGGER_MAX_ENTRIES.
      cbn [entries write_index read_index entry_count].
      rewrite <- Hq. rewrite <- seq_shift, map_map.
      apply map_ext. intros k. f_equal. f_equal.
      rewrite ring_index_next by lia. f_equal. lia.
Qed.

(** X25.  The logger is a first-in first-out queue.  On an enabled logger that
    is not full, each of the three logging functions returns 0 and appends
    its entry behind the entries waiting to be read; [logger_read] returns
    -2 on an empty queue and otherwise returns 0 with the oldest entry,
    which it removes.  [logger_get_count] follows the length of the
    queue. *)
Theorem logger_first_in_first_out (lg : data_logger_t) (tick : Z)
    (e0 : log_entry_t) :
  logger_wf lg ->
  (enabled lg = true -> (entry_count lg < LOGGER_MAX_ENTRIES)%Z ->
   (forall target confidence, exists lg',
      logger_log_target (Some lg) (Some target) confidence tick =
        (0%Z, Some lg') /\
      logger_wf lg' /\
      logger_queue lg' =
        logger_queue lg ++
        [{| entry_type := LOG_ENTRY_TARGET_DETECTION;
            entry_data := data_target tick target confidence |}] /\
      logger_get_count (Some lg') = (logger_get_count (Some lg) + 1)%Z) /\
   (forall cmd vehicle_state, exists lg',
      logger_log_guidance (Some lg) (Some cmd) (Some vehicle_state) tick =
        (0%Z, Some lg') /\
      logger_wf lg' /\
      logger_queue lg' =
        logger_queue lg ++
        [{| entry_type := LOG_ENTRY_GUIDANCE_CMD;
            entry_data := data_guidance tick cmd vehicle_state |}] /\
      logger_get_count (Some lg') = (logger_get_count (Some lg) + 1)%Z) /\
   (forall p0 p1 p2 p3 sample_count beamformed beamformed_length, exists lg',
      logger_log_sonar (Some lg) [p0; p1; p2; p3] sample_count beamformed
        beamformed_length tick = (0%Z, Some lg') /\
      logger_wf lg' /\
      logger_queue lg' =
        logger_queue lg ++
        [{| entry_type := LOG_ENTRY_SONAR_DATA;
            entry_data := data_sonar tick [p0; p1; p2; p3] sample_count
                            beamformed beamformed_length |}] /\
      logger_get_count (Some lg') = (logger_get_count (Some lg) + 1)%Z)) /\
  (logger_queue lg = [] ->
   logger_read (Some lg) (Some e0) = ((-2)%Z, Some lg, Some e0)) /\
  (forall e q, logger_queue lg = e :: q ->
     exists lg',
       logger_read (Some lg) (Some e0) = (0%Z, Some lg', Some e) /\
       logger_wf lg' /\ logger_queue lg' = q /\
       logger_get_count (Some lg') = (logger_get_count (Some lg) - 1)%Z /\
       enabled lg' = enabled lg /\ overflow lg' = overflow lg).
Proof.
  intros Hwf. split.
  - intros Hen Hfree. apply logger_log_appends_spec; assumption.
  - apply logger_read_spec. exact Hwf.
Qed.

Lemma fresh_logger_wf : logger_wf fresh_logger.
Proof. exact zero_logger_wf. Qed.

Lemma logger_first_in_first_out_witness :
  exists lg1,
    logger_log_target (Some fresh_logger)
      (Some {| range_cm := 100; azimuth_rad := 0; elevation_rad := 0;
               confidence := 1; valid := true |}) 1 5 = (0%Z, Some lg1) /\
    logger_queue lg1 =
      [{| entry_type := LOG_ENTRY_TARGET_DETECTION;
          entry_data :=
            data_target 5
              {| range_cm := 100; azimuth_rad := 0; elevation_rad := 0;
                 confidence := 1; valid := true |} 1 |}] /\
    exists lg2,
      logger_read (Some lg1) (Some zero_entry) =
        (0%Z, Some lg2,
         Some {| entry_type := LOG_ENTRY_TARGET_DETECTION;
                 entry_data :=
                   data_target 5
                     {| range_cm := 100; azimuth_rad := 0;
                        elevation_rad := 0; confidence := 1;
                        valid := true |} 1 |}) /\
      logger_queue lg2 = [].
Proof.
  destruct (logger_first_in_first_out fresh_logger 5 zero_entry
              fresh_logger_wf) as [Hlog _].
  destruct Hlog as [Ht _]; [reflexivity|unfold LOGGER_MAX_ENTRIES; simpl; lia|].
  destruct (Ht {| range_cm := 100; azimuth_rad := 0; elevation_rad := 0;
                  confidence := 1; valid := true |} 1%R)
    as (lg1 & H1 & Hwf1 & Hq1 & _).
  exists lg1. split; [exact H1|]. split; [exact Hq1|].
  destruct (logger_first_in_first_out lg1 5 zero_entry Hwf1) as (_ & _ & Hread).
  destruct (Hread _ _ Hq1) as (lg2 & H2 & _ & Hq2 & _).
  exists lg2. split; [exact H2|exact Hq2].
Defined.


Lemma logger_log_target_appends (lg : data_logger_t)
    (x : target_info_t * float32_t * Z) :
  logger_wf lg -> enabled lg = true ->
  (entry_count lg < LOGGER_MAX_ENTRIES)%Z ->
  exists lg',
    logger_log_target (Some lg) (Some x.1.1) x.1.2 x.2 = (0%Z, Some lg') /\
    logger_wf lg' /\ enabled lg' = true /\
    logger_queue lg' = logger_queue lg ++ [target_entry x] /\
    entry_count lg' = (entry_count lg + 1)%Z /\ overflow lg' = overflow lg.
Proof.
  intros Hwf Hen Hfree. unfold logger_log_target. rewrite Hen. cbn [negb].
  destruct (logger_store_appends lg (target_entry x) Hwf Hfree)
    as (lg' & H & Hwf' & Hq' & Hc' & Hen' & Ho').
  exists lg'. unfold target_entry in H. rewrite H.
  split; [reflexivity|]. split; [exact Hwf'|]. split; [congruence|].
  split; [exact Hq'|]. split; [exact Hc'|exact Ho'].
Qed.

Lemma logger_log_targets_appends ts : forall lg,
  logger_wf lg -> enabled lg = true ->
  (entry_count lg + Z.of_nat (List.length ts) <= LOGGER_MAX_ENTRIES)%Z ->
  exists lg',
    logger_log_targets (Some lg) ts = (map (fun _ => 0%Z) ts, Some lg') /\
    logger_wf lg' /\ enabled lg' = true /\
    logger_queue lg' = logger_queue lg ++ map target_entry ts /\
    entry_count lg' = (entry_count lg + Z.of_nat (List.length ts))%Z /\
    overflow lg' = overflow lg.
Proof.
  induction ts as [|x ts IH]; intros lg Hwf Hen Hroom.
  - exists lg. cbn [logger_log_targets map List.length].
    rewrite app_nil_r. split; [reflexivity|]. split; [exact Hwf|].
    split; [exact Hen|]. split; [reflexivity|]. split; [lia|reflexivity].
  - change (List.length (x :: ts)) with (S (List.length ts)) in Hroom.
    rewrite Nat2Z.inj_succ in Hroom.
    assert (Hfree : (entry_count lg < LOGGER_MAX_ENTRIES)%Z) by lia.
    destruct (logger_log_target_appends lg x Hwf Hen Hfree)
      as (lg1 & H & Hwf1 & Hen1 & Hq1 & Hc1 & Ho1).
    destruct (IH lg1 Hwf1 Hen1 ltac:(lia))
      as (lg' & H' & Hwf' & Hen' & Hq' & Hc' & Ho').
    exists lg'. cbn [logger_log_targets]. rewrite H, H'.
    split; [reflexivity|]. split; [exact Hwf'|]. split; [exact Hen'|].
    split; [|split].
    + rewrite Hq', Hq1, <- app_assoc. reflexivity.
    + change (List.length (x :: ts)) with (S (List.length ts)).
      rewrite Nat2Z.inj_succ. lia.
    + congruence.
Qed.

(** X26.  An enabled logger accepts a series of target entries as long as the
    count stays within [LOGGER_MAX_ENTRIES]: every call returns 0 and the
    entries queue up in order.  Once the count has reached
    [LOGGER_MAX_ENTRIES], a further call returns -2, sets the overflow
    flag and leaves the queue as it is: the new entry is dropped, no old
    one is overwritten. *)
Theorem logger_capacity (lg : data_logger_t)
    (ts : list (target_info_t * float32_t * Z)) :
  logger_wf lg -> enabled lg = true ->
  (logger_get_count (Some lg) + Z.of_nat (List.length ts) <=
   LOGGER_MAX_ENTRIES)%Z ->
  exists lg',
    logger_log_targets (Some lg) ts = (map (fun _ => 0%Z) ts, Some lg') /\
    logger_wf lg' /\
    logger_queue lg' = logger_queue lg ++ map target_entry ts /\
    logger_get_count (Some lg') =
      (logger_get_count (Some lg) + Z.of_nat (List.length ts))%Z /\
    (logger_get_count (Some lg') = LOGGER_MAX_ENTRIES ->
     forall x, exists lg'',
       logger_log_target (Some lg') (Some x.1.1) x.1.2 x.2 =
         ((-2)%Z, Some lg'') /\
       overflow lg'' = true /\ logger_wf lg'' /\
       logger_queue lg'' = logger_queue lg' /\
       logger_get_count (Some lg'') = LOGGER_MAX_ENTRIES).
Proof.
  intros Hwf Hen Hroom. cbn [logger_get_count] in *.
  destruct (logger_log_targets_appends ts lg Hwf Hen Hroom)
    as (lg' & H & Hwf' & Hen' & Hq' & Hc' & _).
  exists lg'. split; [exact H|]. split; [exact Hwf'|]. split; [exact Hq'|].
  split; [exact Hc'|].
  intros Hfull x. unfold logger_log_target, logger_store.
  rewrite Hen'. cbn [negb]. rewrite Hfull.
  replace (LOGGER_MAX_ENTRIES <=? LOGGER_MAX_ENTRIES)%Z with true
    by (symmetry; apply Z.leb_le; lia).
  eexists. split; [reflexivity|]. split; [reflexivity|].
  split; [|split; [|reflexivity]].
  - destruct Hwf' as (Hl & Hr & Hc & Hw). unfold logger_wf.
    cbn [entries write_index read_index entry_count].
    rewrite Hfull in Hc, Hw. tauto.
  - unfold logger_queue. cbn [entries read_index entry_count].
    rewrite Hfull. reflexivity.
Qed.

Lemma logger_capacity_witness :
  exists lg',
    logger_log_targets (Some fresh_logger)
      [({| range_cm := 100; azimuth_rad := 0; elevation_rad := 0;
           confidence := 1; valid := true |}, 1%R, 5%Z);
       ({| range_cm := 90; azimuth_rad := 0; elevation_rad := 0;
           confidence := 1; valid := true |}, 1%R, 6%Z)] =
      ([0; 0]%Z, Some lg') /\
    logger_wf lg' /\
    logger_queue lg' =
      logger_queue fresh_logger ++
      map target_entry
        [({| range_cm := 100; azimuth_rad := 0; elevation_rad := 0;
             confidence := 1; valid := true |}, 1%R, 5%Z);
         ({| range_cm := 90; azimuth_rad := 0; elevation_rad := 0;
             confidence := 1; valid := true |}, 1%R, 6%Z)] /\
    logger_get_count (Some lg') =
      (logger_get_count (Some fresh_logger) + 2)%Z /\
    (logger_get_count (Some lg') = LOGGER_MAX_ENTRIES ->
     forall x, exists lg'',
       logger_log_target (Some lg') (Some x.1.1) x.1.2 x.2 =
         ((-2)%Z, Some lg'') /\
       overflow lg'' = true /\ logger_wf lg'' /\
       logger_queue lg'' = logger_queue lg' /\
       logger_get_count (Some lg'') = LOGGER_MAX_ENTRIES).
Proof.
  apply (logger_capacity fresh_logger
           [({| range_cm := 100; azimuth_rad := 0; elevation_rad := 0;
                confidence := 1; valid := true |}, 1%R, 5%Z);
            ({| range_cm := 90; azimuth_rad := 0; elevation_rad := 0;
                confidence := 1; valid := true |}, 1%R, 6%Z)]).
  - exact fresh_logger_wf.
  - reflexivity.
  - unfold LOGGER_MAX_ENTRIES. simpl. lia.
Defined.

(** ** Configuration *)

(** X27.  [config_init], [config_load] and [config_reset] all return 0 and
    leave the same default configuration, whatever the structure held;
    the defaults pass [config_validate], can be saved, and agree with the
    constants compiled into the sonar and guidance code. *)
Theorem config_defaults_are_valid (config : system_config_t) :
  exists d,
    config_init (Some config) = (0%Z, Some d) /\
    config_load (Some config) = (0%Z, Some d) /\
    config_reset (Some config) = (0%Z, Some d) /\
    config_validate (Some d) = 0%Z /\ config_save (Some d) = 0%Z /\
    cfg_sample_rate (sonar d) = SONAR_SAMPLE_RATE /\
    (chirp_duration_ms (sonar d) * cfg_sample_rate (sonar d) / 1000)%Z =
      SONAR_CHIRP_SAMPLES /\
    chirp_f0 (sonar d) = SONAR_CHIRP_F0 /\
    chirp_f1 (sonar d) = SONAR_CHIRP_F1 /\
    detection_threshold (sonar d) = DETECTION_THRESHOLD /\
    min_range_cm (sonar d) = MIN_RANGE_CM /\
    max_range_cm (sonar d) = MAX_RANGE_CM /\
    navigation_constant (guidance d) = GUIDANCE_N /\
    max_acceleration (guidance d) = GUIDANCE_MAX_ACCEL /\
    guidance_min_range_cm (guidance d) = GUIDANCE_MIN_RANGE_CM.
Proof.
  eexists. split; [reflexivity|]. split; [reflexivity|].
  split; [reflexivity|].
  assert (Hv : config_validate (snd (config_init (Some config))) = 0%Z).
  { unfold config_init, config_validate. cbn [snd sonar guidance
      cfg_sample_rate chirp_duration_ms chirp_f0 chirp_f1 max_range_cm
      min_range_cm navigation_constant max_acceleration].
    unfold CONFIG_DEFAULT_SONAR_SAMPLE_RATE,
      CONFIG_DEFAULT_SONAR_CHIRP_DURATION_MS, CONFIG_DEFAULT_SONAR_CHIRP_F0,
      CONFIG_DEFAULT_SONAR_CHIRP_F1, CONFIG_DEFAULT_SONAR_MAX_RANGE_CM,
      CONFIG_DEFAULT_SONAR_MIN_RANGE_CM, CONFIG_DEFAULT_GUIDANCE_N,
      CONFIG_DEFAULT_GUIDANCE_MAX_ACCEL.
    cbn [Z.ltb Z.eqb Z.leb Z.compare Pos.compare Pos.compare_cont orb].
    unfold Rgtb.
    replace (Rltb 3 1) with false by (symmetry; apply Rltb_false; lra).
    replace (Rltb 10 3) with false by (symmetry; apply Rltb_false; lra).
    replace (Rltb 0 9.81) with true by (symmetry; apply Rltb_true; lra).
    reflexivity. }
  cbn [snd config_init] in Hv.
  split; [exact Hv|]. split; [unfold config_save; rewrite Hv; reflexivity|].
  repeat split; reflexivity.
Qed.

(** X28.  [config_set_sonar] and [config_set_guidance] store the new
    sub-configuration first and return the result of validating the whole
    configuration afterwards: a rejected value is in the structure all the
    same, [config_get_sonar] and [config_get_guidance] read it back, and
    [config_save] returns -2 until it is replaced.  With a null pointer
    they return -1 and change nothing. *)
Theorem config_set_stores_before_validating
    (config : system_config_t) (sc sc0 : sonar_config_t)
    (gc gc0 : guidance_config_t) :
  (exists c',
     config_set_sonar (Some config) (Some sc) =
       (config_validate (Some c'), Some c') /\
     sonar c' = sc /\ guidance c' = guidance config /\
     version c' = version config /\
     config_get_sonar (Some c') (Some sc0) = (0%Z, Some sc) /\
     (config_validate (Some c') <> 0%Z -> config_save (Some c') = (-2)%Z) /\
     (config_validate (Some c') = 0%Z -> config_save (Some c') = 0%Z)) /\
  (exists c',
     config_set_guidance (Some config) (Some gc) =
       (config_validate (Some c'), Some c') /\
     guidance c' = gc /\ sonar c' = sonar config /\
     version c' = version config /\
     config_get_guidance (Some c') (Some gc0) = (0%Z, Some gc) /\
     (config_validate (Some c') <> 0%Z -> config_save (Some c') = (-2)%Z) /\
     (config_validate (Some c') = 0%Z -> config_save (Some c') = 0%Z)) /\
  config_set_sonar None (Some sc) = ((-1)%Z, None) /\
  config_set_sonar (Some config) None = ((-1)%Z, Some config) /\
  config_set_guidance None (Some gc) = ((-1)%Z, None) /\
  config_set_guidance (Some config) None = ((-1)%Z, Some config).
Proof.
  split; [|split; [|repeat split; reflexivity]].
  - eexists. split; [reflexivity|]. split; [reflexivity|].
    split; [reflexivity|]. split; [reflexivity|]. split; [reflexivity|].
    unfold config_save. split; intros H.
    + apply Z.eqb_neq in H. rewrite H. reflexivity.
    + rewrite H. reflexivity.
  - eexists. split; [reflexivity|]. split; [reflexivity|].
    split; [reflexivity|]. split; [reflexivity|]. split; [reflexivity|].
    unfold config_save. split; intros H.
    + apply Z.eqb_neq in H. rewrite H. reflexivity.
    + rewrite H. reflexivity.
Qed.

(** A valid sonar block can be rejected because of the guidance block,
    and stays stored. *)
Example config_set_sonar_rejected_for_guidance :
  let d := {| version := 1;
              sonar := {| cfg_sample_rate := 0; chirp_duration_ms := 0;
                          chirp_f0 := 0; chirp_f1 := 0;
                          detection_threshold := 0; max_range_cm := 0;
                          min_range_cm := 0 |};
              guidance := {| navigation_constant := 0; max_acceleration := 0;
                             guidance_min_range_cm := 0 |};
              logging_enabled := false; log_level := 0 |} in
  let sc := {| cfg_sample_rate := 200000; chirp_duration_ms := 1;
               chirp_f0 := 38000; chirp_f1 := 42000;
               detection_threshold := 1000; max_range_cm := 500;
               min_range_cm := 10 |} in
  exists c', config_set_sonar (Some d) (Some sc) = ((-6)%Z, Some c') /\
             sonar c' = sc.
Proof.
  cbv zeta. eexists. split.
  - unfold config_set_sonar. f_equal.
    unfold config_validate. cbn [sonar guidance cfg_sample_rate
      chirp_duration_ms chirp_f0 chirp_f1 max_range_cm min_range_cm
      navigation_constant max_acceleration].
    cbn [Z.ltb Z.eqb Z.leb Z.compare Pos.compare Pos.compare_cont orb].
    replace (Rltb 0 1) with true by (symmetry; apply Rltb_true; lra).
    reflexivity.
  - reflexivity.
Qed.

(** ** Calibration *)

Lemma unity_mic_cal_arrays (a b c d e f g h i j k l : R) (b0 b1 : bool) :
  unity_mic_cal {| gain := [a; b; c; d]; phase_offset := [e; f; g; h];
                   dc_offset := [i; j; k; l]; calibrated := b0 |} b1 =
  {| gain := [1; 1; 1; 1]%R; phase_offset := [0; 0; 0; 0]%R;
     dc_offset := [0; 0; 0; 0]%R; calibrated := b1 |}.
Proof. reflexivity. Qed.

(** Invariant of the reachable structures. *)
Lemma cal_reachable_inv (c : system_calibration_t) :
  cal_reachable c ->
  system_calibrated c = false /\
  gain (mic_cal c) = [1; 1; 1; 1]%R /\
  phase_offset (mic_cal c) = [0; 0; 0; 0]%R /\
  dc_offset (mic_cal c) = [0; 0; 0; 0]%R /\
  speed_of_sound c =
    (SPEED_OF_SOUND_BASE + SPEED_OF_SOUND_COEFF * temperature c)%R.
Proof.
  induction 1 as [c0 c H|c ref len rc c' Hr IH H|c t rc c' Hr IH H].
  - unfold calibration_init in H. injection H as <-.
    repeat split; reflexivity.
  - destruct IH as (H1 & H2 & H3 & H4 & H5).
    unfold calibration_calibrate_mics in H.
    destruct ref; [|injection H as _ <-; done].
    destruct (len =? 0)%Z; [injection H as _ <-; done|].
    injection H as _ <-.
    cbn [system_calibrated mic_cal speed_of_sound temperature].
    destruct (mic_cal c) as [g p d b]. cbn [gain phase_offset dc_offset] in *.
    subst g p d. rewrite unity_mic_cal_arrays.
    repeat split; assumption.
  - destruct IH as (H1 & H2 & H3 & H4 & H5).
    unfold calibration_set_temperature in H. injection H as _ <-.
    repeat split; assumption.
Qed.

(** X29.  Of a calibration structure produced by [calibration_init] followed
    by any calls of [calibration_calibrate_mics] and
    [calibration_set_temperature], [calibration_is_calibrated] is always
    false: nothing sets [system_calibrated].  Its speed of sound follows
    its temperature, its gains are 1 and its offsets 0, and saving and
    loading return 0. *)
Theorem calibration_never_reported_complete (c : system_calibration_t) :
  cal_reachable c ->
  calibration_is_calibrated (Some c) = false /\
  calibration_save (Some c) = 0%Z /\ calibration_load (Some c) = 0%Z /\
  speed_of_sound c =
    (SPEED_OF_SOUND_BASE + SPEED_OF_SOUND_COEFF * temperature c)%R /\
  gain (mic_cal c) = [1; 1; 1; 1]%R /\
  dc_offset (mic_cal c) = [0; 0; 0; 0]%R.
Proof.
  intros H. destruct (cal_reachable_inv c H) as (H1 & H2 & H3 & H4 & H5).
  unfold calibration_is_calibrated. rewrite H1. done.
Qed.

(** A loop that fills the first [n] cells of [dst] from a function of
    the index. *)
Lemma fill_cells (g : Z -> R) (n : Z) (dst : list R) :
  (0 <= n <= Z.of_nat (List.length dst))%Z ->
  let res := for_loop (Z.to_nat n) 0%Z
               (fun j o => <[Z.to_nat j := g j]> o) dst in
  List.length res = List.length dst /\
  (forall j, (0 <= j < n)%Z -> rd res j = g j) /\
  (forall j, (n <= j)%Z -> rd res j = rd dst j).
Proof.
  intros Hn. cbv zeta.
  destruct (for_loop_fill g 0%R (Z.to_nat n) 0%Z dst ltac:(lia))
    as (Hl & Hin & Hout).
  split; [exact Hl|]. split.
  - intros j Hj. unfold rd. rewrite Hin by lia. f_equal. lia.
  - intros j Hj. unfold rd. apply Hout. lia.
Qed.

(** X30.  [calibration_apply] writes, for each microphone, the first [length]
    samples of the output buffer: the raw sample when the microphones are
    not calibrated, otherwise the raw sample minus the DC offset times the
    gain; the rest of each buffer is not touched.  With a calibration
    produced by the module the output is a copy of the raw samples. *)
Theorem calibration_apply_corrects (c : system_calibration_t)
    (raw out : list (list float32_t)) (length : Z) :
  (0 <= length < 2 ^ 30)%Z ->
  List.length raw = 4%nat -> List.length out = 4%nat ->
  (forall i, (i < 4)%nat -> (length <= Z.of_nat (List.length (nth i out [])))%Z) ->
  exists out',
    calibration_apply (Some c) (Some raw) (Some out) length = Some out' /\
    List.length out' = 4%nat /\
    (forall i, (i < 4)%nat ->
       List.length (nth i out' []) = List.length (nth i out []) /\
       (forall j, (0 <= j < length)%Z ->
          rd (nth i out' []) j =
          if calibrated (mic_cal c)
          then ((rd (nth i raw []) j - rd (dc_offset (mic_cal c)) (Z.of_nat i)) *
                rd (gain (mic_cal c)) (Z.of_nat i))%R
          else rd (nth i raw []) j) /\
       (forall j, (length <= j)%Z -> rd (nth i out' []) j = rd (nth i out []) j) /\
       (cal_reachable c ->
        forall j, (0 <= j < length)%Z ->
          rd (nth i out' []) j = rd (nth i raw []) j)).
Proof.
  intros Hlen Hraw Hout Hcap.
  destruct raw as [|r0 [|r1 [|r2 [|r3 [|]]]]]; try discriminate.
  destruct out as [|o0 [|o1 [|o2 [|o3 [|]]]]]; try discriminate.
  pose proof (Hcap 0%nat ltac:(lia)) as Hc0.
  pose proof (Hcap 1%nat ltac:(lia)) as Hc1.
  pose proof (Hcap 2%nat ltac:(lia)) as Hc2.
  pose proof (Hcap 3%nat ltac:(lia)) as Hc3.
  cbn [nth] in Hc0, Hc1, Hc2, Hc3.
  unfold calibration_apply.
  assert (Hreach : cal_reachable c ->
            forall (r : list R) iz j, (0 <= iz < 4)%Z ->
              ((rd r j - rd (dc_offset (mic_cal c)) iz) *
               rd (gain (mic_cal c)) iz)%R = rd r j).
  { intros Hr r iz j Hiz.
    destruct (cal_reachable_inv c Hr) as (_ & Hg & _ & Hd & _).
    rewrite Hg, Hd.
    assert (iz = 0 \/ iz = 1 \/ iz = 2 \/ iz = 3)%Z
      as [ -> | [ -> | [ -> | -> ] ] ] by lia;
      unfold rd; simpl; ring. }
  destruct (calibrated (mic_cal c)) eqn:Ecal; cbn [negb].
  - change (Z.to_nat NUM_MICS) with 4%nat. cbn [for_loop].
    change (Z.to_nat 0) with 0%nat. change (Z.to_nat (0 + 1)) with 1%nat.
    change (Z.to_nat (0 + 1 + 1)) with 2%nat.
    change (Z.to_nat (0 + 1 + 1 + 1)) with 3%nat.
    cbn [nth insert list_insert].
    eexists. split; [reflexivity|]. split; [reflexivity|].
    intros i Hi.
    destruct i as [|[|[|[|i]]]]; [| | | |lia]; cbn [nth];
      match goal with
      | |- context [for_loop (Z.to_nat length) 0%Z
                      (fun j o => <[Z.to_nat j := @?g j]> o) ?dst] =>
          destruct (fill_cells g length dst ltac:(lia)) as (Hl & Hin & Hrest)
      end;
      (split; [exact Hl|]); (split; [exact Hin|]); (split; [exact Hrest|]);
      intros Hr j Hj; rewrite Hin by exact Hj;
      (apply Hreach; [exact Hr|lia]).
  - change (Z.to_nat NUM_MICS) with 4%nat. cbn [for_loop].
    change (Z.to_nat 0) with 0%nat. change (Z.to_nat (0 + 1)) with 1%nat.
    change (Z.to_nat (0 + 1 + 1)) with 2%nat.
    change (Z.to_nat (0 + 1 + 1 + 1)) with 3%nat.
    cbn [nth insert list_insert].
    unfold memcpy_f32. rewrite u32_id by (red; lia).
    rewrite Z.div_mul by lia.
    eexists. split; [reflexivity|]. split; [reflexivity|].
    intros i Hi.
    destruct i as [|[|[|[|i]]]]; [| | | |lia]; cbn [nth];
      match goal with
      | |- context [for_loop (Z.to_nat length) 0%Z
                      (fun k d => <[Z.to_nat k := @?g k]> d) ?dst] =>
          destruct (fill_cells g length dst ltac:(lia)) as (Hl & Hin & Hrest)
      end;
      (split; [exact Hl|]); (split; [exact Hin|]); (split; [exact Hrest|]);
      intros Hr j Hj; apply Hin; exact Hj.
Qed.

Lemma calibrated_mics_example_reachable : cal_reachable calibrated_mics_example.
Proof.
  eapply (reach_calibrate_mics _ (Some [1%R]) 1%Z 0%Z).
  - eapply (reach_init calibrated_mics_example). reflexivity.
  - reflexivity.
Qed.

Lemma calibration_never_reported_complete_witness :
  calibration_is_calibrated (Some calibrated_mics_example) = false /\
  calibration_save (Some calibrated_mics_example) = 0%Z /\
  calibration_load (Some calibrated_mics_example) = 0%Z /\
  speed_of_sound calibrated_mics_example =
    (SPEED_OF_SOUND_BASE +
     SPEED_OF_SOUND_COEFF * temperature calibrated_mics_example)%R /\
  gain (mic_cal calibrated_mics_example) = [1; 1; 1; 1]%R /\
  dc_offset (mic_cal calibrated_mics_example) = [0; 0; 0; 0]%R.
Proof.
  apply (calibration_never_reported_complete calibrated_mics_example).
  exact calibrated_mics_example_reachable.
Defined.

Lemma calibration_apply_corrects_witness :
  exists out',
    calibration_apply (Some calibrated_mics_example)
      (Some [[1; 2]; [3; 4]; [5; 6]; [7; 8]]%R)
      (Some [[0; 0]; [0; 0]; [0; 0]; [0; 0]]%R) 2 = Some out' /\
    List.length out' = 4%nat /\
    (forall i, (i < 4)%nat ->
       List.length (nth i out' []) =
         List.length (nth i [[0; 0]; [0; 0]; [0; 0]; [0; 0]]%R []) /\
       (forall j, (0 <= j < 2)%Z ->
          rd (nth i out' []) j =
          if calibrated (mic_cal calibrated_mics_example)
          then ((rd (nth i [[1; 2]; [3; 4]; [5; 6]; [7; 8]]%R []) j -
                 rd (dc_offset (mic_cal calibrated_mics_example))
                    (Z.of_nat i)) *
                rd (gain (mic_cal calibrated_mics_example)) (Z.of_nat i))%R
          else rd (nth i [[1; 2]; [3; 4]; [5; 6]; [7; 8]]%R []) j) /\
       (forall j, (2 <= j)%Z ->
          rd (nth i out' []) j =
          rd (nth i [[0; 0]; [0; 0]; [0; 0]; [0; 0]]%R []) j) /\
       (cal_reachable calibrated_mics_example ->
        forall j, (0 <= j < 2)%Z ->
          rd (nth i out' []) j =
          rd (nth i [[1; 2]; [3; 4]; [5; 6]; [7; 8]]%R []) j)).
Proof.
  apply (calibration_apply_corrects calibrated_mics_example
           [[1; 2]; [3; 4]; [5; 6]; [7; 8]]%R
           [[0; 0]; [0; 0]; [0; 0]; [0; 0]]%R 2).
  - lia.
  - reflexivity.
  - reflexivity.
  - intros i Hi. destruct i as [|[|[|[|i]]]]; simpl; lia.
Defined.
